(** * Image-FT-Mixer-Pro: the Fourier mixing core ([app/core/mixer.py])

    A shallow embedding of the [Mixer] class and of the parts of Python,
    numpy and OpenCV it calls, followed by the properties of the
    specification that were checked against it.

    Numbers.  A float64 is modelled by an exact real number, a complex128
    by a pair of reals: rounding is abstracted away, so every equation
    between real or complex values below is an equation of exact
    arithmetic, which the doubles of the code satisfy up to rounding (the
    reals have neither the underflow of [np.exp] to 0.0 nor the sign of a
    floating-point zero).  Where the code turns rounding into something
    discrete, the statements allow for it.  Python's [float ** int] raises
    [OverflowError] when the result leaves the double range (numpy's
    array operations never raise, they saturate): this is modelled.  The
    conversion to [uint8] that ends [mix_images] truncates, so that a
    double just below an integer loses a grey level: pixels are stated up
    to that grey level, for magnitude images whose range is not negligible
    against their maximum.  Module [Binary64] is the last step of
    [mix_images] in IEEE binary64 arithmetic, for the examples in which
    the rounding decides a pixel.

    Arrays.  A two-dimensional numpy array is its shape together with the
    value at every index; [Np.tolist] gives the nested-list view. *)

From Stdlib Require Import Reals ZArith List String Ascii Bool Lia Lra Psatz.
From Stdlib Require Import Permutation.
From Stdlib Require PrimFloat FloatOps SpecFloat.
Import ListNotations.
Open Scope R_scope.

(* ================================================================= *)
(** * Part I: the program *)
(* ================================================================= *)

(** ** Python: exceptions, indexing, the [for] loop, float power *)

Module Py.

Inductive exn : Type :=
| IndexError
| OverflowError
| ValueError
| UnboundLocalError
| Cv2Error.

Inductive result (A : Type) : Type :=
| Ok (a : A)
| Raise (e : exn).

Arguments Ok {A} a.
Arguments Raise {A} e.

Definition bind {A B : Type} (c : result A) (k : A -> result B) : result B :=
  match c with
  | Ok a => k a
  | Raise e => Raise e
  end.

(** [l[i]] for a non-negative index [i]. *)
Definition getitem {A : Type} (l : list A) (i : nat) : result A :=
  match nth_error l i with
  | Some a => Ok a
  | None => Raise IndexError
  end.

(** [for i in idx: s = body(s, i)], an exception leaving the loop. *)
Fixpoint for_each {S : Type} (body : S -> nat -> result S)
         (idx : list nat) (s : S) : result S :=
  match idx with
  | [] => Ok s
  | i :: rest => bind (body s i) (for_each body rest)
  end.

(** [range(n)] *)
Definition range (n : nat) : list nat := seq 0 n.

(** The largest finite double, [(2 - 2^-52) * 2^1023]. *)
Definition DBL_MAX : R := IZR (2 ^ 1024 - 2 ^ 971).

(** [x ** n] on a Python float: CPython's [float_pow] calls C's [pow] and
    turns a result outside the double range into [OverflowError]
    ([1e200 ** 2] raises, where [1e200 * 1e200] is [inf]). *)
Definition float_pow (x : R) (n : nat) : result R :=
  if Rle_dec (Rabs (x ^ n)) DBL_MAX then Ok (x ^ n) else Raise OverflowError.

(** [needle in hay] on strings: [needle] occurs as a substring. *)
Fixpoint contains (needle hay : string) : bool :=
  match hay with
  | EmptyString => String.prefix needle EmptyString
  | String _ rest => String.prefix needle hay || contains needle rest
  end.

(** [x in l] for a list of strings. *)
Definition str_in (x : string) (l : list string) : bool :=
  existsb (String.eqb x) l.

End Py.

Import Py.

Notation "x <- c ;; k" := (Py.bind c (fun x => k))
  (at level 61, c at next level, right associativity).

(** ** Complex numbers (complex128) *)

Module Cplx.

Definition C : Type := (R * R)%type.

Definition re (z : C) : R := fst z.
Definition im (z : C) : R := snd z.

Definition C0 : C := (0, 0).
Definition C1 : C := (1, 0).
(** The Python literal [1j]. *)
Definition Ci : C := (0, 1).
(** Promotion of a float to a complex. *)
Definition RtoC (x : R) : C := (x, 0).

Definition Cadd (a b : C) : C := (re a + re b, im a + im b).
Definition Cmul (a b : C) : C :=
  (re a * re b - im a * im b, re a * im b + im a * re b).
Definition Copp (a : C) : C := (- re a, - im a).
Definition Csub (a b : C) : C := Cadd a (Copp b).
Definition Cconj (a : C) : C := (re a, - im a).

(** The point of the unit circle at angle [theta], [exp(1j * theta)]. *)
Definition cis (theta : R) : C := (cos theta, sin theta).

(** [np.exp] on a complex. *)
Definition Cexp (z : C) : C := (exp (re z) * cos (im z), exp (re z) * sin (im z)).

(** [np.abs] on a complex. *)
Definition Cabs (z : C) : R := sqrt (re z * re z + im z * im z).

(** [np.arctan2(y, x)], the angle of the point [(x, y)] in [(-PI, PI]]. *)
Definition atan2 (y x : R) : R :=
  if Rlt_dec 0 x then atan (y / x)
  else if Rlt_dec x 0 then
         if Rle_dec 0 y then atan (y / x) + PI else atan (y / x) - PI
  else if Rlt_dec 0 y then PI / 2
  else if Rlt_dec y 0 then - (PI / 2)
  else 0.

(** [np.angle] *)
Definition Cangle (z : C) : R := atan2 (im z) (re z).

(** [sum_{i < n} f i] *)
Fixpoint Csum (f : nat -> C) (n : nat) : C :=
  match n with
  | O => C0
  | S k => Cadd (Csum f k) (f k)
  end.

End Cplx.

Import Cplx.

(** ** numpy: two-dimensional arrays *)

Record ndarray (A : Type) : Type := NDArray {
  nrows : nat;
  ncols : nat;
  at_ : nat -> nat -> A
}.

Arguments NDArray {A} nrows ncols at_.
Arguments nrows {A} _.
Arguments ncols {A} _.
Arguments at_ {A} _ _ _.

Module Np.

Definition shape {A : Type} (a : ndarray A) : nat * nat := (nrows a, ncols a).

(** [a.tolist()] *)
Definition tolist {A : Type} (a : ndarray A) : list (list A) :=
  List.map (fun y => List.map (fun x => at_ a y x) (seq 0 (ncols a)))
           (seq 0 (nrows a)).

(** [np.array(l)] for a rectangular nested list [l]. *)
Definition array {A : Type} (d : A) (l : list (list A)) : ndarray A :=
  NDArray (List.length l) (List.length (hd [] l))
          (fun y x => nth x (nth y l []) d).

(** [np.zeros((h, w))]: a negative dimension is a [ValueError]. *)
Definition zeros {A : Type} (zero : A) (h w : Z) : result (ndarray A) :=
  if ((h <? 0) || (w <? 0))%Z then Raise ValueError
  else Ok (NDArray (Z.to_nat h) (Z.to_nat w) (fun _ _ => zero)).

(** A unary ufunc, or an operation with a scalar. *)
Definition map {A B : Type} (f : A -> B) (a : ndarray A) : ndarray B :=
  NDArray (nrows a) (ncols a) (fun y x => f (at_ a y x)).

(** Broadcasting of one axis: equal lengths, or one of them is 1. *)
Definition bdim (n m : nat) : option nat :=
  if (n =? m)%nat then Some n
  else if (n =? 1)%nat then Some m
  else if (m =? 1)%nat then Some n
  else None.

(** The index read on an axis of length [n] when it is stretched. *)
Definition bidx (n i : nat) : nat := if (n =? 1)%nat then O else i.

(** A binary ufunc [f(a, b)] with broadcasting; shapes that do not
    broadcast are a [ValueError]. *)
Definition ufunc2 {A B D : Type} (f : A -> B -> D)
           (a : ndarray A) (b : ndarray B) : result (ndarray D) :=
  match bdim (nrows a) (nrows b), bdim (ncols a) (ncols b) with
  | Some h, Some w =>
      Ok (NDArray h w (fun y x =>
            f (at_ a (bidx (nrows a) y) (bidx (ncols a) x))
              (at_ b (bidx (nrows b) y) (bidx (ncols b) x))))
  | _, _ => Raise ValueError
  end.

(** [a += b] on complex arrays: [b] is broadcast to the shape of [a], which
    does not change; otherwise [ValueError]. *)
Definition iadd (a b : ndarray C) : result (ndarray C) :=
  if (((nrows b =? nrows a) || (nrows b =? 1)) &&
      ((ncols b =? ncols a) || (ncols b =? 1)))%nat
  then Ok (NDArray (nrows a) (ncols a) (fun y x =>
             Cadd (at_ a y x) (at_ b (bidx (nrows b) y) (bidx (ncols b) x))))
  else Raise ValueError.

(** A real array used where a complex one is expected. *)
Definition to_complex (a : ndarray R) : ndarray C := map RtoC a.

Definition real (a : ndarray C) : ndarray R := map re a.
Definition imag (a : ndarray C) : ndarray R := map im a.
Definition abs (a : ndarray C) : ndarray R := map Cabs a.
Definition angle (a : ndarray C) : ndarray R := map Cangle a.
Definition exp (a : ndarray C) : ndarray C := map Cexp a.

(** The factor [exp(sgn * 2 pi i * k * j / n)] of the discrete Fourier
    transform of length [n]. *)
Definition twiddle (sgn : R) (n k j : nat) : C :=
  cis (sgn * (2 * PI * INR k * INR j / INR n)).

(** One-dimensional transforms along the last and along the first axis. *)
Definition dft_axis1 (sgn : R) (a : ndarray C) : ndarray C :=
  NDArray (nrows a) (ncols a) (fun y k =>
    Csum (fun j => Cmul (at_ a y j) (twiddle sgn (ncols a) k j)) (ncols a)).

Definition dft_axis0 (sgn : R) (a : ndarray C) : ndarray C :=
  NDArray (nrows a) (ncols a) (fun k x =>
    Csum (fun j => Cmul (at_ a j x) (twiddle sgn (nrows a) k j)) (nrows a)).

(** [np.fft.fft2]: the forward transform over the last axis, then over the
    first; an axis of length 0 is a [ValueError]. *)
Definition fft2 (a : ndarray C) : result (ndarray C) :=
  if ((nrows a =? 0) || (ncols a =? 0))%nat then Raise ValueError
  else Ok (dft_axis0 (-1) (dft_axis1 (-1) a)).

(** [np.fft.ifft2]: the backward transform, each axis scaled by [1/n]. *)
Definition ifft2 (a : ndarray C) : result (ndarray C) :=
  if ((nrows a =? 0) || (ncols a =? 0))%nat then Raise ValueError
  else
    let a1 := map (Cmul (RtoC (/ INR (ncols a)))) (dft_axis1 1 a) in
    Ok (map (Cmul (RtoC (/ INR (nrows a)))) (dft_axis0 1 a1)).

(** [np.fft.fftshift]: every axis rolled forward by [n // 2]. *)
Definition fftshift {A : Type} (a : ndarray A) : ndarray A :=
  let h := nrows a in
  let w := ncols a in
  NDArray h w (fun y x =>
    at_ a ((y + (h - h / 2)) mod h)%nat ((x + (w - w / 2)) mod w)%nat).

(** [np.fft.ifftshift]: every axis rolled back by [n // 2]. *)
Definition ifftshift {A : Type} (a : ndarray A) : ndarray A :=
  let h := nrows a in
  let w := ncols a in
  NDArray h w (fun y x =>
    at_ a ((y + h / 2) mod h)%nat ((x + w / 2) mod w)%nat).

(** A reduction [op] over the values [g 0 .. g (n-1)], started at [init]. *)
Fixpoint reduce (op : R -> R -> R) (g : nat -> R) (n : nat) (init : R) : R :=
  match n with
  | O => init
  | S k => op (reduce op g k init) (g k)
  end.

(** [a.min()] and [a.max()] of a non-empty array. *)
Definition amin (a : ndarray R) : R :=
  reduce Rmin (fun y => reduce Rmin (at_ a y) (ncols a) (at_ a O O))
         (nrows a) (at_ a O O).

Definition amax (a : ndarray R) : R :=
  reduce Rmax (fun y => reduce Rmax (at_ a y) (ncols a) (at_ a O O))
         (nrows a) (at_ a O O).

(** The conversion of a float to an integer: truncation toward zero. *)
Definition trunc (r : R) : Z :=
  if Rle_dec 0 r then Int_part r else (- Int_part (- r))%Z.

(** [a.astype(np.uint8)]: truncation toward zero, kept in the 8 bits of the
    type ([cv2.normalize] hands over values of [[0, 255]] only). *)
Definition astype_uint8 (a : ndarray R) : ndarray Z :=
  map (fun v => (trunc v mod 256)%Z) a.

End Np.

(** ** OpenCV: [cv2.normalize] with [NORM_MINMAX] *)

Module Cv2.

Definition DBL_EPSILON : R := / IZR (2 ^ 52).

(** [cv2.normalize(src, None, alpha, beta, cv2.NORM_MINMAX)]: the source
    range [[smin, smax]] is mapped linearly onto [[min alpha beta,
    max alpha beta]]; a source range of at most [DBL_EPSILON] gives the
    scale 0.  An empty source is refused. *)
Definition normalize (src : ndarray R) (alpha beta : R) : result (ndarray R) :=
  if ((nrows src =? 0) || (ncols src =? 0))%nat then Raise Cv2Error
  else
    let smin := Np.amin src in
    let smax := Np.amax src in
    let dmin := Rmin alpha beta in
    let dmax := Rmax alpha beta in
    let scale :=
      (dmax - dmin) *
      (if Rlt_dec DBL_EPSILON (smax - smin) then 1 / (smax - smin) else 0) in
    let shift := dmin - smin * scale in
    Ok (Np.map (fun v => v * scale + shift) src).

End Cv2.

(** ** The [Mixer] class *)

Module Mixer.

(** A reference to a UI output element; the core only stores it. *)
Inductive widget : Type := Widget (id : nat).

(** The attributes set by [__init__]. *)
Record t : Type := Build {
  _region_mode : string;
  _output_label_1 : option widget;
  _output_label_2 : option widget
}.

Definition __init__ : t :=
  {| _region_mode := "None";
     _output_label_1 := None;
     _output_label_2 := None |}.

Definition region_mode (self : t) : string := _region_mode self.

Definition set_region_mode (self : t) (mode : string) : t :=
  if Py.contains "Inner" mode then
    {| _region_mode := "Inner";
       _output_label_1 := _output_label_1 self;
       _output_label_2 := _output_label_2 self |}
  else if Py.contains "Outer" mode then
    {| _region_mode := "Outer";
       _output_label_1 := _output_label_1 self;
       _output_label_2 := _output_label_2 self |}
  else
    {| _region_mode := "None";
       _output_label_1 := _output_label_1 self;
       _output_label_2 := _output_label_2 self |}.

Definition set_output_labels (self : t) (label1 label2 : option widget) : t :=
  {| _region_mode := _region_mode self;
     _output_label_1 := label1;
     _output_label_2 := label2 |}.

(** [__create_gaussian_mask(height, width, sigma)].  [x] and [y] are the
    integer ranges [np.arange(n) - n // 2], [X, Y] their mesh grid. *)
Definition __create_gaussian_mask (height width : Z) (sigma : R)
  : result (ndarray R) :=
  let center_x := (width / 2)%Z in
  let center_y := (height / 2)%Z in
  let x := fun j : nat => (Z.of_nat j - center_x)%Z in
  let y := fun i : nat => (Z.of_nat i - center_y)%Z in
  let X := NDArray (Z.to_nat height) (Z.to_nat width) (fun _ j => x j) in
  let Y := NDArray (Z.to_nat height) (Z.to_nat width) (fun i _ => y i) in
  let distance_sq :=
    NDArray (nrows X) (ncols X)
            (fun i j => (at_ X i j ^ 2 + at_ Y i j ^ 2)%Z) in
  sigma_sq <- Py.float_pow sigma 2 ;;
  Ok (Np.map (fun d => exp (IZR (- d) / (2 * (sigma_sq + 1e-6))))
             distance_sq).

(** [__apply_region_mask(ft_data, gaussian_mask)].  A region mode outside
    the three known ones leaves [mask] unassigned. *)
Definition __apply_region_mask (self : t) (ft_data : ndarray C)
           (gaussian_mask : ndarray R) : result (ndarray C) :=
  if (_region_mode self =? "None")%string then Ok ft_data
  else
    mask <- (if (_region_mode self =? "Inner")%string then Ok gaussian_mask
             else if (_region_mode self =? "Outer")%string
                  then Ok (Np.map (fun g => 1 - g) gaussian_mask)
                  else Raise UnboundLocalError) ;;
    Np.ufunc2 (fun z m => Cmul z (RtoC m)) ft_data mask.

(** Step 2 of the loop body, "Extract and Weight Component": the new value
    of [combined_ft] for the selection [selected].  A selection outside
    the four known ones adds nothing. *)
Definition weigh_component (selected : string) (weight : R)
           (ft_image_masked combined_ft : ndarray C) : result (ndarray C) :=
  if Py.str_in selected ["FT Magnitude"; "FT Phase"]%string then
    let magnitude := Np.abs ft_image_masked in
    let phase := Np.angle ft_image_masked in
    let rotation := Np.exp (Np.map (fun p => Cmul Ci (RtoC p)) phase) in
    weighted_complex <-
      (if (selected =? "FT Magnitude")%string then
         Np.ufunc2 (fun m e => Cmul (RtoC m) e)
                   (Np.map (fun m => weight * m) magnitude) rotation
       else
         Ok (Np.map (fun e => Cmul (RtoC weight) e) rotation)) ;;
    Np.iadd combined_ft weighted_complex
  else if Py.str_in selected ["FT Real"; "FT Imaginary"]%string then
    let real_part := Np.real ft_image_masked in
    let imag_part := Np.imag ft_image_masked in
    if (selected =? "FT Real")%string then
      Np.iadd combined_ft
        (Np.map (fun r => Cmul (RtoC weight) (Cadd (RtoC r) C0)) real_part)
    else
      Np.iadd combined_ft
        (Np.map (fun m => Cmul (RtoC weight)
                               (Cadd (RtoC 0) (Cmul Ci (RtoC m))))
                imag_part)
  else Ok combined_ft.

(** The body of the loop of [mix_images] for slot [i]: the new value of
    [combined_ft]. *)
Definition mix_slot (self : t) (images : list (option (ndarray R)))
           (weights : list R) (component_selections : list string)
           (gaussian_mask : ndarray R)
           (combined_ft : ndarray C) (i : nat) : result (ndarray C) :=
  image <- Py.getitem images i ;;
  match image with
  | None => Ok combined_ft
  | Some image =>
    weight <- Py.getitem weights i ;;
    if Req_dec_T weight 0 then Ok combined_ft
    else
      ft_image <- Np.fft2 (Np.to_complex image) ;;
      let ft_image_shifted := Np.fftshift ft_image in
      ft_image_masked <-
        __apply_region_mask self ft_image_shifted gaussian_mask ;;
      selected <- Py.getitem component_selections i ;;
      weigh_component selected weight ft_image_masked combined_ft
  end.

(** The first half of [mix_images], for supplied dimensions: the composite
    spectrum [combined_ft] at the end of the loop. *)
Definition mix_spectrum (self : t) (images : list (option (ndarray R)))
           (weights : list R) (component_selections : list string)
           (selector_region : list R) (min_height min_width : Z)
  : result (ndarray C) :=
  combined_ft <- Np.zeros C0 min_height min_width ;;
  sigma <- Py.getitem selector_region 2 ;;
  gaussian_mask <- __create_gaussian_mask min_height min_width sigma ;;
  Py.for_each
    (mix_slot self images weights component_selections gaussian_mask)
    (Py.range 4) combined_ft.

(** The second half.  Step 3: the inverse transform of the unshifted
    composite spectrum and its elementwise magnitude, [mixed_image]. *)
Definition mixed_image (combined_ft : ndarray C) : result (ndarray R) :=
  let combined_ft_shifted := Np.ifftshift combined_ft in
  mixed_image_complex <- Np.ifft2 combined_ft_shifted ;;
  Ok (Np.abs mixed_image_complex).

(** Step 4: [cv2.normalize(...).astype(np.uint8)]. *)
Definition normalize_uint8 (mixed : ndarray R) : result (ndarray Z) :=
  normalized <- Cv2.normalize mixed 0 255 ;;
  Ok (Np.astype_uint8 normalized).

(** Steps 3 and 4 together: the image returned for a composite spectrum. *)
Definition reconstruct (combined_ft : ndarray C) : result (ndarray Z) :=
  mixed <- mixed_image combined_ft ;;
  normalize_uint8 mixed.

(** [np.zeros((100, 100), dtype=np.uint8)] *)
Definition placeholder : ndarray Z := NDArray 100 100 (fun _ _ => 0%Z).

(** [mix_images(images, weights, component_selections, selector_region,
    min_height, min_width)]: the test of the two dimensions comes first,
    before any other argument is read. *)
Definition mix_images (self : t) (images : list (option (ndarray R)))
           (weights : list R) (component_selections : list string)
           (selector_region : list R) (min_height min_width : option Z)
  : result (ndarray Z) :=
  match min_width, min_height with
  | Some width, Some height =>
      combined_ft <- mix_spectrum self images weights component_selections
                       selector_region height width ;;
      reconstruct combined_ft
  | _, _ => Ok placeholder
  end.

End Mixer.

(** ** Step 4 in double precision

    Step 4 of [mix_images] ends in a conversion to integers, which turns
    the rounding of the preceding double arithmetic into whole grey
    levels.  This module is the same step,
    [cv2.normalize(mixed_image, None, 0, 255, cv2.NORM_MINMAX)
    .astype(np.uint8)], on IEEE binary64 numbers: every operation below
    is the correctly rounded operation of the type. *)

Module Binary64.

Import PrimFloat.

Definition DBL_EPSILON : float := 0x1p-52%float.

Definition fmin (a b : float) : float := if ltb b a then b else a.

Definition fmax (a b : float) : float := if ltb a b then b else a.

Fixpoint reduce (op : float -> float -> float) (g : nat -> float) (n : nat)
         (init : float) : float :=
  match n with
  | O => init
  | S k => op (reduce op g k init) (g k)
  end.

Definition amin (a : ndarray float) : float :=
  reduce fmin (fun y => reduce fmin (at_ a y) (ncols a) (at_ a O O))
         (nrows a) (at_ a O O).

Definition amax (a : ndarray float) : float :=
  reduce fmax (fun y => reduce fmax (at_ a y) (ncols a) (at_ a O O))
         (nrows a) (at_ a O O).

(** [cv2.normalize(src, None, alpha, beta, cv2.NORM_MINMAX)] *)
Definition normalize (src : ndarray float) (alpha beta : float)
  : result (ndarray float) :=
  if ((nrows src =? 0) || (ncols src =? 0))%nat then Raise Cv2Error
  else
    let smin := amin src in
    let smax := amax src in
    let dmin := fmin alpha beta in
    let dmax := fmax alpha beta in
    let scale :=
      mul (sub dmax dmin)
          (if ltb DBL_EPSILON (sub smax smin)
           then div 1%float (sub smax smin) else 0%float) in
    let shift := sub dmin (mul smin scale) in
    Ok (Np.map (fun v => add (mul v scale) shift) src).

(** The conversion of a finite double to an integer: truncation toward
    zero. *)
Definition trunc (x : float) : Z :=
  match FloatOps.Prim2SF x with
  | SpecFloat.S754_finite s m e =>
      let magnitude :=
        match e with
        | Z0 => Zpos m
        | Zpos p => (Zpos m * 2 ^ Zpos p)%Z
        | Zneg p => (Zpos m / 2 ^ Zpos p)%Z
        end in
      if s then (- magnitude)%Z else magnitude
  | _ => 0%Z
  end.

(** [a.astype(np.uint8)] *)
Definition astype_uint8 (a : ndarray float) : ndarray Z :=
  Np.map (fun v => (trunc v mod 256)%Z) a.

(** Step 4: [cv2.normalize(...).astype(np.uint8)]. *)
Definition normalize_uint8 (mixed : ndarray float) : result (ndarray Z) :=
  normalized <- normalize mixed 0%float 255%float ;;
  Ok (astype_uint8 normalized).

(** The magnitude images of the examples. *)
Definition row (l : list float) : ndarray float := Np.array 0%float [l].


Definition one_and_next : ndarray float :=
  row [1%float; 0x1.0000000000002p0%float].

End Binary64.

(** ** The simplification the specification asks about

    The specification notes that the Magnitude contribution
    [weight * magnitude * exp(1j * phase)] should be the same as scaling the
    masked spectrum, [weight * ft_image_masked].  [Scaled] is the loop of
    [mix_images] rewritten in those words: it differs from
    [Mixer.mix_slot] in the "FT Magnitude" branch only. *)

Module Scaled.

Definition weigh_component (selected : string) (weight : R)
           (ft_image_masked combined_ft : ndarray C) : result (ndarray C) :=
  if Py.str_in selected ["FT Magnitude"; "FT Phase"]%string then
    let phase := Np.angle ft_image_masked in
    let rotation := Np.exp (Np.map (fun p => Cmul Ci (RtoC p)) phase) in
    weighted_complex <-
      (if (selected =? "FT Magnitude")%string then
         Ok (Np.map (fun z => Cmul (RtoC weight) z) ft_image_masked)
       else
         Ok (Np.map (fun e => Cmul (RtoC weight) e) rotation)) ;;
    Np.iadd combined_ft weighted_complex
  else if Py.str_in selected ["FT Real"; "FT Imaginary"]%string then
    let real_part := Np.real ft_image_masked in
    let imag_part := Np.imag ft_image_masked in
    if (selected =? "FT Real")%string then
      Np.iadd combined_ft
        (Np.map (fun r => Cmul (RtoC weight) (Cadd (RtoC r) C0)) real_part)
    else
      Np.iadd combined_ft
        (Np.map (fun m => Cmul (RtoC weight)
                               (Cadd (RtoC 0) (Cmul Ci (RtoC m))))
                imag_part)
  else Ok combined_ft.

Definition mix_slot (self : Mixer.t) (images : list (option (ndarray R)))
           (weights : list R) (component_selections : list string)
           (gaussian_mask : ndarray R)
           (combined_ft : ndarray C) (i : nat) : result (ndarray C) :=
  image <- Py.getitem images i ;;
  match image with
  | None => Ok combined_ft
  | Some image =>
    weight <- Py.getitem weights i ;;
    if Req_dec_T weight 0 then Ok combined_ft
    else
      ft_image <- Np.fft2 (Np.to_complex image) ;;
      let ft_image_shifted := Np.fftshift ft_image in
      ft_image_masked <-
        Mixer.__apply_region_mask self ft_image_shifted gaussian_mask ;;
      selected <- Py.getitem component_selections i ;;
      weigh_component selected weight ft_image_masked combined_ft
  end.

Definition mix_spectrum (self : Mixer.t) (images : list (option (ndarray R)))
           (weights : list R) (component_selections : list string)
           (selector_region : list R) (min_height min_width : Z)
  : result (ndarray C) :=
  combined_ft <- Np.zeros C0 min_height min_width ;;
  sigma <- Py.getitem selector_region 2 ;;
  gaussian_mask <- Mixer.__create_gaussian_mask min_height min_width sigma ;;
  Py.for_each
    (mix_slot self images weights component_selections gaussian_mask)
    (Py.range 4) combined_ft.

End Scaled.

(** ** Notions used to state the properties *)

(** [needle] occurs in [hay]. *)
Definition substring_of (needle hay : string) : Prop :=
  exists pre post : string, hay = (pre ++ needle ++ post)%string.

(** Two arrays are the same array: same shape, same entries. *)
Definition same_array {A : Type} (a b : ndarray A) : Prop :=
  nrows a = nrows b /\ ncols a = ncols b /\
  forall y x : nat, (y < nrows a)%nat -> (x < ncols a)%nat ->
                    at_ a y x = at_ b y x.

(** Two computations agree: the same exception, or the same array. *)
Definition same_result {A : Type} (r1 r2 : result (ndarray A)) : Prop :=
  match r1, r2 with
  | Ok a, Ok b => same_array a b
  | Raise e1, Raise e2 => e1 = e2
  | _, _ => False
  end.

(** The four component selectors of the interface. *)
Definition selectors : list string :=
  ["FT Magnitude"; "FT Phase"; "FT Real"; "FT Imaginary"]%string.

(** The three region modes. *)
Definition known_mode (m : string) : Prop :=
  m = "None"%string \/ m = "Inner"%string \/ m = "Outer"%string.

(** Slot [i] of a call is active: its image is present and its weight is
    not zero. *)
Definition active (images : list (option (ndarray R))) (weights : list R)
           (i : nat) (image : ndarray R) (weight : R) : Prop :=
  nth_error images i = Some (Some image) /\
  nth_error weights i = Some weight /\ weight <> 0.

(** Slot [i] is skipped: the image is absent, or its weight is zero. *)
Definition skipped (images : list (option (ndarray R))) (weights : list R)
           (i : nat) : Prop :=
  nth_error images i = Some None \/
  (exists image, nth_error images i = Some (Some image) /\
                 nth_error weights i = Some 0).

(** The image reflected through the origin of the index grid, rows and
    columns taken modulo their lengths. *)
Definition reflected (a : ndarray R) : ndarray R :=
  NDArray (nrows a) (ncols a) (fun y x =>
    at_ a ((nrows a - y) mod nrows a)%nat ((ncols a - x) mod ncols a)%nat).

(** The even part of an image: the mean of the image and its reflection. *)
Definition even_part (a : ndarray R) : ndarray R :=
  NDArray (nrows a) (ncols a) (fun y x =>
    (at_ a y x + at_ (reflected a) y x) / 2).

(** The index selected by a backward transform of a transform of sign
    [z]: [m] itself for the forward transform, the reflection of [m] for
    the backward one. *)
Definition partner (z : Z) (n m : nat) : nat :=
  if (z =? 1)%Z then ((n - m) mod n)%nat else m.

(** The two-dimensional transform of sign [z]; [np.fft.fft2] is the one of
    sign -1. *)
Definition transform2 (z : Z) (a : ndarray C) : ndarray C :=
  Np.dft_axis0 (IZR z) (Np.dft_axis1 (IZR z) a).

(** The value at [(m1, m2)] of the inverse transform of an [h x w] array
    with entries [X]. *)
Definition backward_at (h w : nat) (X : nat -> nat -> C) (m1 m2 : nat) : C :=
  Cmul (RtoC (/ INR h))
       (Csum (fun k1 =>
          Cmul (Cmul (RtoC (/ INR w))
                     (Csum (fun k2 => Cmul (X k1 k2) (Np.twiddle 1 w m2 k2))
                           w))
               (Np.twiddle 1 h m1 k1)) h).

(** A well-formed call: a known region mode, four images, weights and
    known selections, and a region parameter that carries a sigma whose
    square is within the double range. *)
Definition well_formed_call (self : Mixer.t)
           (images : list (option (ndarray R))) (weights : list R)
           (component_selections : list string) (selector_region : list R)
           (sigma : R) : Prop :=
  known_mode (Mixer._region_mode self) /\
  List.length images = 4%nat /\
  List.length weights = 4%nat /\
  List.length component_selections = 4%nat /\
  (forall selected, In selected component_selections ->
                    In selected selectors) /\
  nth_error selector_region 2 = Some sigma /\
  sigma * sigma <= Py.DBL_MAX.

(** An axis of length [n] fits a target axis of length [m] under numpy's
    broadcasting of the right operand of [+=]. *)
Definition stretches (n m : nat) : Prop := n = m \/ n = 1%nat.

(** ** Notions used to state the further properties *)

(** The states of a [Mixer] object: the one built by [__init__], changed
    by the two setters only. *)
Inductive reachable : Mixer.t -> Prop :=
| reach_init : reachable Mixer.__init__
| reach_region_mode (self : Mixer.t) (mode : string) :
    reachable self -> reachable (Mixer.set_region_mode self mode)
| reach_output_labels (self : Mixer.t) (label1 label2 : option Mixer.widget) :
    reachable self -> reachable (Mixer.set_output_labels self label1 label2).

(** The squared distance of the grid point [(y, x)] to the centre
    [(H // 2, W // 2)] of an [H x W] grid. *)
Definition distance_sq (H W : Z) (y x : nat) : Z :=
  ((Z.of_nat x - W / 2) ^ 2 + (Z.of_nat y - H / 2) ^ 2)%Z.

(** What step 2 of the loop adds to one entry of the accumulator, for the
    entry [z] of the masked spectrum. *)
Definition contribution (selected : string) (weight : R) (z : C) : C :=
  if (selected =? "FT Magnitude")%string then Cmul (RtoC weight) z
  else if (selected =? "FT Phase")%string
       then Cmul (RtoC weight) (cis (Cangle z))
  else if (selected =? "FT Real")%string
       then Cmul (RtoC weight) (RtoC (re z))
  else if (selected =? "FT Imaginary")%string
       then Cmul (RtoC weight) (Cmul Ci (RtoC (im z)))
  else C0.

(** The odd part of an image: half the difference of the image and its
    reflection. *)
Definition odd_part (a : ndarray R) : ndarray R :=
  NDArray (nrows a) (ncols a) (fun y x =>
    (at_ a y x - at_ (reflected a) y x) / 2).

(** [s'] is [s] with every entry multiplied by the real [c]. *)
Definition scaled_by (c : R) (s s' : ndarray C) : Prop :=
  nrows s' = nrows s /\ ncols s' = ncols s /\
  forall y x : nat, at_ s' y x = Cmul (RtoC c) (at_ s y x).

(** Two computations fail alike, or the second result is the first one
    multiplied by [c]. *)
Definition scaled_result (c : R) (r r' : result (ndarray C)) : Prop :=
  match r, r' with
  | Ok s, Ok s' => scaled_by c s s'
  | Raise e, Raise e' => e = e'
  | _, _ => False
  end.

(** Two arrays with the same shape and the same entry at every index. *)
Definition same_entries {A : Type} (a b : ndarray A) : Prop :=
  nrows a = nrows b /\ ncols a = ncols b /\
  forall y x : nat, at_ a y x = at_ b y x.

(** Two computations both return, with the same array, or both raise. *)
Definition agree {A : Type} (r r' : result (ndarray A)) : Prop :=
  match r, r' with
  | Ok a, Ok b => same_entries a b
  | Raise _, Raise _ => True
  | _, _ => False
  end.

(** Two calls end alike: both return, with arrays of one shape, or both
    raise. *)
Definition same_outcome {A : Type} (r r' : result (ndarray A)) : Prop :=
  match r, r' with
  | Ok a, Ok b => Np.shape a = Np.shape b
  | Raise _, Raise _ => True
  | _, _ => False
  end.

(** The list [l] read in the order [p]: entry [i] of the result is entry
    [p[i]] of [l]. *)
Definition reorder {A : Type} (d : A) (p : list nat) (l : list A) : list A :=
  List.map (fun k => nth k l d) p.

(** What one pass of the loop body can be, as a function of the
    accumulator. *)
Definition slot_effect (f : ndarray C -> result (ndarray C)) : Prop :=
  (forall s, f s = Ok s) \/
  (exists e, forall s, f s = Raise e) \/
  (exists b, forall s, f s = Np.iadd s b).

(* ================================================================= *)
(** * Part II: properties *)
(* ================================================================= *)

(** ** Strings *)

Lemma prefix_app (n h : string) :
  String.prefix n h = true <-> exists post, h = (n ++ post)%string.
Proof.
  revert h; induction n as [|c n IH]; intros h.
  - split; [intros _; now exists h | intros _; now destruct h].
  - destruct h as [|d h]; simpl.
    + split; [discriminate | intros [post Hp]; discriminate].
    + destruct (Ascii.ascii_dec c d) as [->|Hcd].
      * rewrite IH. split; intros [post Hp]; exists post.
        -- now rewrite Hp.
        -- now injection Hp.
      * split; [discriminate | intros [post Hp]; injection Hp; congruence].
Qed.

Lemma contains_spec (n h : string) :
  Py.contains n h = true <-> substring_of n h.
Proof.
  unfold substring_of. induction h as [|d h IH].
  - unfold Py.contains. rewrite prefix_app. split.
    + intros [post Hp]. exists EmptyString, post. exact Hp.
    + intros [pre [post Hp]]. destruct pre; simpl in Hp.
      * now exists post.
      * discriminate.
  - change (Py.contains n (String d h))
      with (String.prefix n (String d h) || Py.contains n h)%bool.
    rewrite orb_true_iff, IH, prefix_app. split.
    + intros [[post Hp] | [pre [post Hp]]].
      * exists EmptyString, post. exact Hp.
      * exists (String d pre), post. simpl. now rewrite Hp.
    + intros [pre [post Hp]]. destruct pre as [|e pre]; simpl in Hp.
      * left. now exists post.
      * right. injection Hp as _ Hp. now exists pre, post.
Qed.

Lemma contains_false (n h : string) :
  Py.contains n h = false <-> ~ substring_of n h.
Proof.
  rewrite <- contains_spec. destruct (Py.contains n h); split; congruence.
Qed.

(** C8. [set_region_mode] stores "Inner" when the text contains "Inner",
    otherwise "Outer" when it contains "Outer", otherwise "None"; it leaves
    the two output labels as they were.  The three texts of the
    specification give Outer, Inner and None. *)
Theorem set_region_mode_normalizes (self : Mixer.t) (mode : string) :
  (substring_of "Inner" mode ->
   Mixer.region_mode (Mixer.set_region_mode self mode) = "Inner"%string) /\
  (~ substring_of "Inner" mode -> substring_of "Outer" mode ->
   Mixer.region_mode (Mixer.set_region_mode self mode) = "Outer"%string) /\
  (~ substring_of "Inner" mode -> ~ substring_of "Outer" mode ->
   Mixer.region_mode (Mixer.set_region_mode self mode) = "None"%string) /\
  Mixer._output_label_1 (Mixer.set_region_mode self mode)
    = Mixer._output_label_1 self /\
  Mixer._output_label_2 (Mixer.set_region_mode self mode)
    = Mixer._output_label_2 self /\
  Mixer.region_mode (Mixer.set_region_mode self "High-Frequency (Outer)")
    = "Outer"%string /\
  Mixer.region_mode (Mixer.set_region_mode self "Low (Inner) Region")
    = "Inner"%string /\
  Mixer.region_mode (Mixer.set_region_mode self "Off") = "None"%string.
Proof.
  unfold Mixer.set_region_mode, Mixer.region_mode.
  repeat split.
  - intros Hi. apply contains_spec in Hi. now rewrite Hi.
  - intros Hi Ho. apply contains_false in Hi. apply contains_spec in Ho.
    now rewrite Hi, Ho.
  - intros Hi Ho. apply contains_false in Hi. apply contains_false in Ho.
    now rewrite Hi, Ho.
  - destruct (Py.contains "Inner" mode), (Py.contains "Outer" mode);
      reflexivity.
  - destruct (Py.contains "Inner" mode), (Py.contains "Outer" mode);
      reflexivity.
Qed.

(** ** The error monad *)

Lemma bind_ok {A B : Type} (c : result A) (k : A -> result B) (b : B) :
  Py.bind c k = Ok b -> exists a, c = Ok a /\ k a = Ok b.
Proof.
  destruct c as [a|e]; simpl; intros Hb; [now exists a | discriminate].
Qed.

Lemma getitem_nth {A : Type} (l : list A) (i : nat) (a : A) :
  nth_error l i = Some a -> Py.getitem l i = Ok a.
Proof. unfold Py.getitem. now intros ->. Qed.

(** ** The placeholder of [mix_images] *)

(** C3. When the target height or the target width is [None], whatever the
    region mode and the other arguments, [mix_images] returns without an
    exception the 100 x 100 array whose entries are all 0. *)
Theorem mix_images_placeholder
        (self : Mixer.t) (images : list (option (ndarray R)))
        (weights : list R) (component_selections : list string)
        (selector_region : list R) (dim : option Z) :
  Mixer.mix_images self images weights component_selections selector_region
                   None dim = Ok Mixer.placeholder /\
  Mixer.mix_images self images weights component_selections selector_region
                   dim None = Ok Mixer.placeholder /\
  Np.shape Mixer.placeholder = (100%nat, 100%nat) /\
  Np.tolist Mixer.placeholder = repeat (repeat 0%Z 100) 100.
Proof.
  repeat split; unfold Mixer.mix_images; now destruct dim.
Qed.

(** With the dimensions supplied, the same malformed arguments do raise. *)
Lemma mix_images_short_region_raises (self : Mixer.t) :
  Mixer.mix_images self [] [] [] [0; 0] (Some 2%Z) (Some 2%Z)
  = Raise IndexError.
Proof. reflexivity. Qed.

(** C10. When the target height or the target width is [None], the result
    of [mix_images] is the placeholder for every value of the images, the
    weights, the component selections and the region parameter, none of
    which is read: two calls that differ in them agree, and the calls with
    an empty region parameter, with no images and no weights, or with an
    unknown selection return the placeholder as well. *)
Theorem mix_images_placeholder_reads_nothing
        (self : Mixer.t) (images images' : list (option (ndarray R)))
        (weights weights' : list R)
        (component_selections component_selections' : list string)
        (selector_region selector_region' : list R)
        (min_height min_width : option Z) :
  min_height = None \/ min_width = None ->
  Mixer.mix_images self images weights component_selections selector_region
                   min_height min_width
  = Mixer.mix_images self images' weights' component_selections'
                     selector_region' min_height min_width /\
  Mixer.mix_images self images weights component_selections []
                   min_height min_width = Ok Mixer.placeholder /\
  Mixer.mix_images self [] [] component_selections selector_region
                   min_height min_width = Ok Mixer.placeholder /\
  Mixer.mix_images self images weights ["no such component"%string]
                   selector_region min_height min_width
  = Ok Mixer.placeholder.
Proof.
  intros Hnone; unfold Mixer.mix_images.
  destruct min_width, min_height; repeat split;
    destruct Hnone; discriminate.
Qed.

Lemma mix_images_placeholder_reads_nothing_witness :
  Mixer.mix_images Mixer.__init__ [] [] [] [0; 0] None (Some 2%Z)
  = Mixer.mix_images Mixer.__init__ [None] [1] ["FT Real"%string]
                     [0; 0; 1; 0] None (Some 2%Z).
Proof.
  apply (mix_images_placeholder_reads_nothing
           Mixer.__init__ [] [None] [] [1] [] ["FT Real"%string]
           [0; 0] [0; 0; 1; 0] None (Some 2%Z)).
  left; reflexivity.
Defined.

(** ** The Gaussian mask *)


Lemma float_pow_2_in_range (x : R) :
  x * x <= Py.DBL_MAX -> Py.float_pow x 2 = Ok (x * x).
Proof.
  intros Hx. unfold Py.float_pow.
  replace (x ^ 2) with (x * x) by (simpl; ring).
  rewrite Rabs_pos_eq by nra.
  destruct (Rle_dec (x * x) Py.DBL_MAX); [reflexivity | contradiction].
Qed.

Lemma float_pow_2_overflow (x : R) :
  Py.DBL_MAX < x * x -> Py.float_pow x 2 = Raise OverflowError.
Proof.
  intros Hx. unfold Py.float_pow.
  replace (x ^ 2) with (x * x) by (simpl; ring).
  rewrite Rabs_pos_eq by nra.
  destruct (Rle_dec (x * x) Py.DBL_MAX); [lra | reflexivity].
Qed.

Lemma create_gaussian_mask_overflow (height width : Z) (sigma : R) :
  Py.DBL_MAX < sigma * sigma ->
  Mixer.__create_gaussian_mask height width sigma = Raise OverflowError.
Proof.
  intros Hs. unfold Mixer.__create_gaussian_mask.
  now rewrite (float_pow_2_overflow _ Hs).
Qed.

Lemma create_gaussian_mask_ok (height width : Z) (sigma : R) :
  sigma * sigma <= Py.DBL_MAX ->
  Mixer.__create_gaussian_mask height width sigma =
  Ok (NDArray (Z.to_nat height) (Z.to_nat width) (fun i j =>
        exp (IZR (- ((Z.of_nat j - width / 2) ^ 2
                     + (Z.of_nat i - height / 2) ^ 2))
             / (2 * (sigma * sigma + 1e-6))))).
Proof.
  intros Hs. unfold Mixer.__create_gaussian_mask.
  now rewrite (float_pow_2_in_range _ Hs).
Qed.




(** ** Arrays *)

Lemma same_array_refl {A : Type} (a : ndarray A) : same_array a a.
Proof. now repeat split. Qed.

Lemma same_result_refl {A : Type} (r : result (ndarray A)) : same_result r r.
Proof. destruct r; simpl; [apply same_array_refl | reflexivity]. Qed.

Lemma bdim_same (n : nat) : Np.bdim n n = Some n.
Proof. unfold Np.bdim. now rewrite Nat.eqb_refl. Qed.

Lemma bidx_lt (n i : nat) : (i < n)%nat -> Np.bidx n i = i.
Proof.
  unfold Np.bidx. destruct (Nat.eqb_spec n 1); [lia | reflexivity].
Qed.

(** A binary ufunc on two arrays of one shape is the elementwise map. *)
Lemma ufunc2_same_shape {A B D : Type} (f : A -> B -> D)
      (a : ndarray A) (b : ndarray B) :
  Np.shape a = Np.shape b ->
  exists out : ndarray D,
    Np.ufunc2 f a b = Ok out /\
    Np.shape out = Np.shape a /\
    forall y x : nat, (y < nrows a)%nat -> (x < ncols a)%nat ->
                      at_ out y x = f (at_ a y x) (at_ b y x).
Proof.
  unfold Np.shape. intros Hs. injection Hs as Hr Hc.
  unfold Np.ufunc2. rewrite <- Hr, <- Hc, !bdim_same.
  eexists. split; [reflexivity|]. split; [reflexivity|].
  intros y x Hy Hx. cbn [at_]. now rewrite !bidx_lt.
Qed.

(** ** The region mask *)

(** C5. For a spectrum and a Gaussian mask of one shape,
    [__apply_region_mask] returns the spectrum itself in mode None, the
    spectrum times the mask in mode Inner, and the spectrum times
    [1 - mask] in mode Outer, entry by entry: the Outer mask is 1 minus
    the Inner mask.  Whatever the shapes, mode Outer is mode Inner applied
    to the complemented mask. *)
Theorem apply_region_mask_modes
        (l1 l2 : option Mixer.widget) (ft : ndarray C) (g : ndarray R) :
  Np.shape ft = Np.shape g ->
  Mixer.__apply_region_mask (Mixer.Build "None" l1 l2) ft g = Ok ft /\
  (exists inner : ndarray C,
     Mixer.__apply_region_mask (Mixer.Build "Inner" l1 l2) ft g = Ok inner /\
     Np.shape inner = Np.shape ft /\
     forall y x : nat, (y < nrows ft)%nat -> (x < ncols ft)%nat ->
       at_ inner y x = Cmul (at_ ft y x) (RtoC (at_ g y x))) /\
  (exists outer : ndarray C,
     Mixer.__apply_region_mask (Mixer.Build "Outer" l1 l2) ft g = Ok outer /\
     Np.shape outer = Np.shape ft /\
     forall y x : nat, (y < nrows ft)%nat -> (x < ncols ft)%nat ->
       at_ outer y x = Cmul (at_ ft y x) (RtoC (1 - at_ g y x))) /\
  Mixer.__apply_region_mask (Mixer.Build "Outer" l1 l2) ft g
  = Mixer.__apply_region_mask (Mixer.Build "Inner" l1 l2) ft
                              (Np.map (fun m => 1 - m) g).
Proof.
  intros Hs. split; [reflexivity|]. split; [|split; [|reflexivity]].
  - unfold Mixer.__apply_region_mask; simpl.
    apply (ufunc2_same_shape (fun z m => Cmul z (RtoC m)) ft g Hs).
  - unfold Mixer.__apply_region_mask; simpl.
    destruct (ufunc2_same_shape (fun z m => Cmul z (RtoC m)) ft
                (Np.map (fun m => 1 - m) g) Hs) as [out [Ho [Hsh Hat]]].
    exists out. repeat split; assumption.
Qed.

Lemma apply_region_mask_modes_witness :
  Mixer.__apply_region_mask
    (Mixer.Build "None" None None)
    (Np.array C0 [[(1, 2); (3, 4)]]) (Np.array 0 [[1; 0]])
  = Ok (Np.array C0 [[(1, 2); (3, 4)]]).
Proof.
  apply (apply_region_mask_modes None None
           (Np.array C0 [[(1, 2); (3, 4)]]) (Np.array 0 [[1; 0]])).
  reflexivity.
Defined.

(** ** Complex numbers: polar form *)

Lemma Ceq (a b : C) : re a = re b -> im a = im b -> a = b.
Proof. destruct a, b; simpl; now intros -> ->. Qed.

Lemma hypot_scaled (x t : R) :
  sqrt (x * x + (t * x) * (t * x)) = Rabs x * sqrt (1 + t²).
Proof.
  replace (x * x + t * x * (t * x)) with ((x * x) * (1 + t²))
    by (unfold Rsqr; ring).
  rewrite sqrt_mult_alt by nra.
  now rewrite <- (sqrt_Rsqr_abs x).
Qed.

Lemma sqrt_1_sqr_pos (t : R) : 0 < sqrt (1 + t²).
Proof. apply sqrt_lt_R0. pose proof (Rle_0_sqr t). lra. Qed.

(** [|z| * cos (arg z) = Re z] and [|z| * sin (arg z) = Im z]. *)
Lemma polar_form (z : C) :
  Cabs z * cos (Cangle z) = re z /\ Cabs z * sin (Cangle z) = im z.
Proof.
  destruct z as [x y]. unfold Cabs, Cangle, atan2; simpl.
  pose proof (sqrt_1_sqr_pos (y / x)) as Hs.
  destruct (Rlt_dec 0 x) as [Hx | Hx].
  - replace (y * y) with ((y / x * x) * (y / x * x)) by (field; lra).
    rewrite hypot_scaled, cos_atan, sin_atan, Rabs_pos_eq by lra.
    split; field; lra.
  - destruct (Rlt_dec x 0) as [Hx' | Hx'].
    + replace (y * y) with ((y / x * x) * (y / x * x)) by (field; lra).
      rewrite hypot_scaled, Rabs_left by lra.
      destruct (Rle_dec 0 y) as [Hy | Hy].
      * rewrite neg_cos, neg_sin, cos_atan, sin_atan. split; field; lra.
      * unfold Rminus. rewrite cos_plus, sin_plus, cos_neg, sin_neg.
        rewrite cos_PI, sin_PI, cos_atan, sin_atan. split; field; lra.
    + assert (x = 0) by lra. subst x.
      replace (0 * 0 + y * y) with (y * y) by ring.
      destruct (Rlt_dec 0 y) as [Hy | Hy].
      * rewrite sqrt_square, cos_PI2, sin_PI2 by lra. split; ring.
      * destruct (Rlt_dec y 0) as [Hy' | Hy'].
        -- replace (y * y) with ((- y) * (- y)) by ring.
           rewrite sqrt_square, cos_neg, sin_neg, cos_PI2, sin_PI2 by lra.
           split; ring.
        -- assert (y = 0) by lra. subst y.
           rewrite Rmult_0_l, sqrt_0. split; ring.
Qed.

(** The Magnitude contribution of one spectrum value is the value scaled
    by the weight. *)
Lemma magnitude_term_scaled (weight : R) (z : C) :
  Cmul (RtoC (weight * Cabs z)) (Cexp (Cmul Ci (RtoC (Cangle z))))
  = Cmul (RtoC weight) z.
Proof.
  destruct (polar_form z) as [Hc Hs].
  set (c := cos (Cangle z)) in *. set (s := sin (Cangle z)) in *.
  set (m := Cabs z) in *.
  apply Ceq; unfold Cmul, Cexp, RtoC, Ci; simpl;
    replace (0 * Cangle z - 1 * 0) with 0 by ring;
    replace (0 * 0 + 1 * Cangle z) with (Cangle z) by ring;
    rewrite exp_0; fold c s; rewrite <- Hc, <- Hs; ring.
Qed.

(** ** The loop of [mix_images] against its simplification *)

Lemma iadd_same (a a' b b' : ndarray C) :
  same_array a a' -> same_array b b' ->
  same_result (Np.iadd a b) (Np.iadd a' b').
Proof.
  intros (Har & Hac & Ha) (Hbr & Hbc & Hb). unfold Np.iadd.
  rewrite <- Har, <- Hac, <- Hbr, <- Hbc.
  destruct (((nrows b =? nrows a) || (nrows b =? 1)) &&
            ((ncols b =? ncols a) || (ncols b =? 1)))%nat eqn:Hfit;
    simpl; [|reflexivity].
  repeat split; simpl; try assumption.
  intros y x Hy Hx. rewrite (Ha y x Hy Hx). f_equal.
  apply andb_prop in Hfit. destruct Hfit as [Hr Hc].
  apply orb_prop in Hr. apply orb_prop in Hc.
  apply Hb; unfold Np.bidx.
  - destruct (Nat.eqb_spec (nrows b) 1) as [E|E]; [lia|].
    destruct Hr as [Hr|Hr]; [apply Nat.eqb_eq in Hr; lia | discriminate].
  - destruct (Nat.eqb_spec (ncols b) 1) as [E|E]; [lia|].
    destruct Hc as [Hc|Hc]; [apply Nat.eqb_eq in Hc; lia | discriminate].
Qed.

Lemma for_each_same (f g : ndarray C -> nat -> result (ndarray C))
      (idx : list nat) :
  (forall s s' i, same_array s s' -> same_result (f s i) (g s' i)) ->
  forall s s', same_array s s' ->
               same_result (Py.for_each f idx s) (Py.for_each g idx s').
Proof.
  intros Hfg. induction idx as [|i idx IH]; intros s s' Hs; simpl.
  - exact Hs.
  - specialize (Hfg s s' i Hs).
    destruct (f s i) as [t|e], (g s' i) as [t'|e']; simpl in *;
      try contradiction; [now apply IH | assumption].
Qed.

(** The weighted Magnitude array of the source is the scaled spectrum. *)
Lemma weighted_magnitude_scaled (weight : R) (masked : ndarray C) :
  exists weighted : ndarray C,
    Np.ufunc2 (fun m e => Cmul (RtoC m) e)
              (Np.map (fun m => weight * m) (Np.abs masked))
              (Np.exp (Np.map (fun p => Cmul Ci (RtoC p)) (Np.angle masked)))
    = Ok weighted /\
    same_array weighted (Np.map (fun z => Cmul (RtoC weight) z) masked).
Proof.
  destruct (ufunc2_same_shape (fun m e => Cmul (RtoC m) e)
              (Np.map (fun m => weight * m) (Np.abs masked))
              (Np.exp (Np.map (fun p => Cmul Ci (RtoC p)) (Np.angle masked)))
              eq_refl) as [out [Ho [Hsh Hat]]].
  exists out. split; [exact Ho|].
  injection Hsh as Hr Hc. repeat split; try assumption.
  intros y x Hy Hx. simpl in Hr, Hc. rewrite Hr in Hy. rewrite Hc in Hx.
  rewrite (Hat y x Hy Hx). simpl. apply magnitude_term_scaled.
Qed.

Lemma weigh_component_scaled (selected : string) (weight : R)
      (masked s s' : ndarray C) :
  same_array s s' ->
  same_result (Mixer.weigh_component selected weight masked s)
              (Scaled.weigh_component selected weight masked s').
Proof.
  intros Hs. unfold Mixer.weigh_component, Scaled.weigh_component.
  destruct (Py.str_in selected ["FT Magnitude"; "FT Phase"]%string).
  - destruct (selected =? "FT Magnitude")%string.
    + destruct (weighted_magnitude_scaled weight masked) as [wm [-> Hwm]].
      cbn [Py.bind]. now apply iadd_same.
    + cbn [Py.bind]. apply iadd_same; [exact Hs | apply same_array_refl].
  - destruct (Py.str_in selected ["FT Real"; "FT Imaginary"]%string);
      [|exact Hs].
    destruct (selected =? "FT Real")%string;
      (apply iadd_same; [exact Hs | apply same_array_refl]).
Qed.

Lemma mix_slot_scaled (self : Mixer.t) (images : list (option (ndarray R)))
      (weights : list R) (component_selections : list string)
      (gaussian_mask : ndarray R) (s s' : ndarray C) (i : nat) :
  same_array s s' ->
  same_result
    (Mixer.mix_slot self images weights component_selections gaussian_mask
                    s i)
    (Scaled.mix_slot self images weights component_selections gaussian_mask
                     s' i).
Proof.
  intros Hs. unfold Mixer.mix_slot, Scaled.mix_slot.
  destruct (Py.getitem images i) as [[image|]|e]; cbn [Py.bind];
    [| exact Hs | reflexivity].
  destruct (Py.getitem weights i) as [weight|e]; cbn [Py.bind]; [|reflexivity].
  destruct (Req_dec_T weight 0); [exact Hs|].
  destruct (Np.fft2 (Np.to_complex image)) as [ft|e]; cbn [Py.bind];
    [|reflexivity].
  destruct (Mixer.__apply_region_mask self (Np.fftshift ft) gaussian_mask)
    as [masked|e]; cbn [Py.bind]; [|reflexivity].
  destruct (Py.getitem component_selections i) as [selected|e]; cbn [Py.bind];
    [|reflexivity].
  now apply weigh_component_scaled.
Qed.

(** C6. For every spectrum value [z] and weight,
    [weight * |z| * exp(1j * arg z)] is [weight * z]; hence, for every
    call, the composite spectrum accumulated by the loop of [mix_images]
    is the one accumulated when the Magnitude contribution is computed as
    [weight * ft_image_masked]: the two raise the same exception or return
    the same array. *)
Theorem magnitude_selector_is_scaling :
  (forall (weight : R) (z : C),
     Cmul (RtoC (weight * Cabs z)) (Cexp (Cmul Ci (RtoC (Cangle z))))
     = Cmul (RtoC weight) z) /\
  (forall (self : Mixer.t) (images : list (option (ndarray R)))
          (weights : list R) (component_selections : list string)
          (selector_region : list R) (min_height min_width : Z),
     same_result
       (Mixer.mix_spectrum self images weights component_selections
                           selector_region min_height min_width)
       (Scaled.mix_spectrum self images weights component_selections
                            selector_region min_height min_width)).
Proof.
  split; [exact magnitude_term_scaled|].
  intros. unfold Mixer.mix_spectrum, Scaled.mix_spectrum.
  destruct (Np.zeros C0 min_height min_width) as [z|e]; cbn [Py.bind]; [|reflexivity].
  destruct (Py.getitem selector_region 2) as [sigma|e]; cbn [Py.bind]; [|reflexivity].
  destruct (Mixer.__create_gaussian_mask min_height min_width sigma)
    as [g|e]; cbn [Py.bind]; [|reflexivity].
  apply for_each_same; [|apply same_array_refl].
  intros s s' i Hs. now apply mix_slot_scaled.
Qed.

(** ** Minimum, maximum and truncation *)

Lemma reduce_Rmin_le_init (g : nat -> R) (n : nat) (init : R) :
  Np.reduce Rmin g n init <= init.
Proof.
  induction n as [|n IH]; simpl; [lra|].
  eapply Rle_trans; [apply Rmin_l | exact IH].
Qed.


Lemma reduce_Rmax_ge_init (g : nat -> R) (n : nat) (init : R) :
  init <= Np.reduce Rmax g n init.
Proof.
  induction n as [|n IH]; simpl; [lra|].
  eapply Rle_trans; [exact IH | apply Rmax_l].
Qed.




(** The minimum and the maximum of a constant array. *)
Lemma reduce_const (op : R -> R -> R) (g : nat -> R) (n : nat) (c : R) :
  op c c = c -> (forall k, (k < n)%nat -> g k = c) ->
  Np.reduce op g n c = c.
Proof.
  intros Hop. induction n as [|n IH]; intros Hg; simpl; [reflexivity|].
  rewrite IH by (intros; apply Hg; lia).
  rewrite Hg by lia. exact Hop.
Qed.

Lemma amin_const (a : ndarray R) (c : R) :
  (forall y x, at_ a y x = c) -> Np.amin a = c.
Proof.
  intros Ha. unfold Np.amin. rewrite Ha.
  assert (Hmin : Rmin c c = c) by (apply Rmin_left; lra).
  apply reduce_const; [exact Hmin|]. intros y _.
  apply reduce_const; [exact Hmin|]. intros x _. apply Ha.
Qed.

Lemma amax_const (a : ndarray R) (c : R) :
  (forall y x, at_ a y x = c) -> Np.amax a = c.
Proof.
  intros Ha. unfold Np.amax. rewrite Ha.
  assert (Hmax : Rmax c c = c) by (apply Rmax_left; lra).
  apply reduce_const; [exact Hmax|]. intros y _.
  apply reduce_const; [exact Hmax|]. intros x _. apply Ha.
Qed.


Lemma Int_part_IZR (z : Z) : Int_part (IZR z) = z.
Proof. symmetry. apply Int_part_spec. lra. Qed.

Lemma trunc_IZR (z : Z) : (0 <= z)%Z -> Np.trunc (IZR z) = z.
Proof.
  intros Hz. unfold Np.trunc. apply IZR_le in Hz.
  destruct (Rle_dec 0 (IZR z)); [apply Int_part_IZR | contradiction].
Qed.


Lemma DBL_EPSILON_pos : 0 < Cv2.DBL_EPSILON.
Proof.
  unfold Cv2.DBL_EPSILON. apply Rinv_0_lt_compat, IZR_lt. reflexivity.
Qed.

(** ** Normalisation to 8 bits *)

(** The scale and the shift computed by [cv2.normalize(_, None, 0, 255,
    NORM_MINMAX)]. *)
Lemma normalize_uint8_eq (mixed : ndarray R) :
  (0 < nrows mixed)%nat -> (0 < ncols mixed)%nat ->
  Mixer.normalize_uint8 mixed =
  Ok (Np.astype_uint8
        (Np.map (fun v =>
           v * (255 * (if Rlt_dec Cv2.DBL_EPSILON (Np.amax mixed - Np.amin mixed)
                       then 1 / (Np.amax mixed - Np.amin mixed) else 0))
           + (0 - Np.amin mixed *
                  (255 * (if Rlt_dec Cv2.DBL_EPSILON
                                     (Np.amax mixed - Np.amin mixed)
                          then 1 / (Np.amax mixed - Np.amin mixed) else 0))))
           mixed)).
Proof.
  intros Hr Hc. unfold Mixer.normalize_uint8, Cv2.normalize.
  destruct (Nat.eqb_spec (nrows mixed) 0); [lia|].
  destruct (Nat.eqb_spec (ncols mixed) 0); [lia|]. simpl.
  rewrite Rmin_left, Rmax_right by lra.
  replace (255 - 0) with 255 by ring. reflexivity.
Qed.

(** Every pixel of the result is a value of the 8-bit type. *)
Lemma normalize_uint8_range (mixed : ndarray R) (out : ndarray Z) :
  Mixer.normalize_uint8 mixed = Ok out ->
  forall y x : nat, (0 <= at_ out y x <= 255)%Z.
Proof.
  unfold Mixer.normalize_uint8. intros Ho.
  apply bind_ok in Ho. destruct Ho as [nrm [_ Ho]].
  injection Ho as <-. intros y x. simpl.
  pose proof (Z.mod_pos_bound (Np.trunc (at_ nrm y x)) 256). lia.
Qed.


(** A source range of at most [DBL_EPSILON]: the scale is 0 and the result
    is the zero image. *)
Lemma normalize_uint8_flat (mixed : ndarray R) :
  (0 < nrows mixed)%nat -> (0 < ncols mixed)%nat ->
  Np.amax mixed - Np.amin mixed <= Cv2.DBL_EPSILON ->
  exists out : ndarray Z,
    Mixer.normalize_uint8 mixed = Ok out /\
    Np.shape out = Np.shape mixed /\
    forall y x : nat, at_ out y x = 0%Z.
Proof.
  intros Hr Hc Hrange. eexists. split; [now apply normalize_uint8_eq|].
  split; [reflexivity|]. intros y x.
  destruct (Rlt_dec Cv2.DBL_EPSILON (Np.amax mixed - Np.amin mixed));
    [lra|].
  cbn [at_ Np.astype_uint8 Np.map].
  replace (at_ mixed y x * (255 * 0) + (0 - Np.amin mixed * (255 * 0)))
    with (IZR 0) by ring.
  now rewrite trunc_IZR.
Qed.

(** ** Shapes through the loop *)

Lemma iadd_shape (a b c : ndarray C) :
  Np.iadd a b = Ok c -> Np.shape c = Np.shape a.
Proof.
  unfold Np.iadd.
  destruct (((nrows b =? nrows a) || (nrows b =? 1)) &&
            ((ncols b =? ncols a) || (ncols b =? 1)))%nat;
    [|discriminate].
  now intros [= <-].
Qed.

Lemma weigh_component_shape (selected : string) (weight : R)
      (masked s s' : ndarray C) :
  Mixer.weigh_component selected weight masked s = Ok s' ->
  Np.shape s' = Np.shape s.
Proof.
  unfold Mixer.weigh_component.
  destruct (Py.str_in selected ["FT Magnitude"; "FT Phase"]%string).
  - destruct (selected =? "FT Magnitude")%string.
    + destruct (weighted_magnitude_scaled weight masked) as [wm [-> _]].
      cbn [Py.bind]. apply iadd_shape.
    + cbn [Py.bind]. apply iadd_shape.
  - destruct (Py.str_in selected ["FT Real"; "FT Imaginary"]%string);
      [|now intros [= <-]].
    destruct (selected =? "FT Real")%string; apply iadd_shape.
Qed.

Lemma mix_slot_shape (self : Mixer.t) (images : list (option (ndarray R)))
      (weights : list R) (component_selections : list string)
      (gaussian_mask : ndarray R) (s s' : ndarray C) (i : nat) :
  Mixer.mix_slot self images weights component_selections gaussian_mask s i
  = Ok s' ->
  Np.shape s' = Np.shape s.
Proof.
  unfold Mixer.mix_slot.
  destruct (Py.getitem images i) as [[image|]|e]; cbn [Py.bind];
    [| now intros [= <-] | discriminate].
  destruct (Py.getitem weights i) as [weight|e]; cbn [Py.bind];
    [|discriminate].
  destruct (Req_dec_T weight 0); [now intros [= <-]|].
  destruct (Np.fft2 (Np.to_complex image)) as [ft|e]; cbn [Py.bind];
    [|discriminate].
  destruct (Mixer.__apply_region_mask self (Np.fftshift ft) gaussian_mask)
    as [masked|e]; cbn [Py.bind]; [|discriminate].
  destruct (Py.getitem component_selections i) as [selected|e];
    cbn [Py.bind]; [|discriminate].
  apply weigh_component_shape.
Qed.


Lemma zeros_ok {A : Type} (zero : A) (h w : Z) :
  (0 <= h)%Z -> (0 <= w)%Z ->
  Np.zeros zero h w = Ok (NDArray (Z.to_nat h) (Z.to_nat w) (fun _ _ => zero)).
Proof.
  intros Hh Hw. unfold Np.zeros.
  destruct (Z.ltb_spec h 0); [lia|]. destruct (Z.ltb_spec w 0); [lia|].
  reflexivity.
Qed.

Lemma zeros_shape {A : Type} (zero : A) (h w : Z) (a : ndarray A) :
  Np.zeros zero h w = Ok a -> Np.shape a = (Z.to_nat h, Z.to_nat w).
Proof.
  unfold Np.zeros. destruct ((h <? 0) || (w <? 0))%Z; [discriminate|].
  now intros [= <-].
Qed.


(** ** Reconstruction *)

Lemma mixed_image_ok (combined : ndarray C) :
  (0 < nrows combined)%nat -> (0 < ncols combined)%nat ->
  exists mixed : ndarray R,
    Mixer.mixed_image combined = Ok mixed /\
    Np.shape mixed = Np.shape combined.
Proof.
  intros Hr Hc. unfold Mixer.mixed_image, Np.ifft2. simpl.
  destruct (Nat.eqb_spec (nrows combined) 0); [lia|].
  destruct (Nat.eqb_spec (ncols combined) 0); [lia|]. simpl.
  eexists. split; reflexivity.
Qed.

Lemma mixed_image_shape (combined : ndarray C) (mixed : ndarray R) :
  Mixer.mixed_image combined = Ok mixed ->
  Np.shape mixed = Np.shape combined /\
  (0 < nrows combined)%nat /\ (0 < ncols combined)%nat.
Proof.
  unfold Mixer.mixed_image, Np.ifft2. simpl.
  destruct (Nat.eqb_spec (nrows combined) 0); [discriminate|].
  destruct (Nat.eqb_spec (ncols combined) 0); [discriminate|]. simpl.
  intros [= <-]. repeat split; lia.
Qed.

(** ** A call in which every slot is skipped *)

Lemma Cmul_0_l (z : C) : Cmul C0 z = C0.
Proof. apply Ceq; simpl; ring. Qed.

Lemma Cmul_0_r (z : C) : Cmul z C0 = C0.
Proof. apply Ceq; simpl; ring. Qed.

Lemma Csum_zero (f : nat -> C) (n : nat) :
  (forall j, f j = C0) -> Csum f n = C0.
Proof.
  intros Hf. induction n as [|n IH]; simpl; [reflexivity|].
  rewrite IH, Hf. apply Ceq; simpl; ring.
Qed.

Lemma Cabs_0 : Cabs C0 = 0.
Proof.
  unfold Cabs; simpl. replace (0 * 0 + 0 * 0) with 0 by ring. exact sqrt_0.
Qed.

Lemma mix_slot_skipped (self : Mixer.t) (images : list (option (ndarray R)))
      (weights : list R) (component_selections : list string)
      (gaussian_mask : ndarray R) (s : ndarray C) (i : nat) :
  skipped images weights i ->
  Mixer.mix_slot self images weights component_selections gaussian_mask s i
  = Ok s.
Proof.
  unfold Mixer.mix_slot.
  intros [Hnone | [image [Hi Hw]]].
  - now rewrite (getitem_nth _ _ _ Hnone).
  - rewrite (getitem_nth _ _ _ Hi), (getitem_nth _ _ _ Hw). cbn [Py.bind].
    destruct (Req_dec_T 0 0); [reflexivity | contradiction].
Qed.

Lemma mix_spectrum_all_skipped
      (self : Mixer.t) (images : list (option (ndarray R)))
      (weights : list R) (component_selections : list string)
      (selector_region : list R) (H W : Z) (sigma : R) :
  (0 <= H)%Z -> (0 <= W)%Z ->
  nth_error selector_region 2 = Some sigma ->
  sigma * sigma <= Py.DBL_MAX ->
  (forall i, (i < 4)%nat -> skipped images weights i) ->
  Mixer.mix_spectrum self images weights component_selections
                     selector_region H W
  = Ok (NDArray (Z.to_nat H) (Z.to_nat W) (fun _ _ => C0)).
Proof.
  intros HH HW Hsig Hrange Hskip. unfold Mixer.mix_spectrum.
  rewrite (zeros_ok _ _ _ HH HW), (getitem_nth _ _ _ Hsig).
  cbn [Py.bind]. rewrite (create_gaussian_mask_ok _ _ _ Hrange).
  cbn [Py.bind Py.range seq Py.for_each].
  repeat (rewrite mix_slot_skipped by (apply Hskip; lia); cbn [Py.bind]).
  reflexivity.
Qed.

(** The inverse transform of the zero spectrum is the zero image. *)
Lemma mixed_image_zero (combined : ndarray C) :
  (0 < nrows combined)%nat -> (0 < ncols combined)%nat ->
  (forall y x, at_ combined y x = C0) ->
  exists mixed : ndarray R,
    Mixer.mixed_image combined = Ok mixed /\
    Np.shape mixed = Np.shape combined /\
    forall y x : nat, at_ mixed y x = 0.
Proof.
  intros Hr Hc Hz. unfold Mixer.mixed_image, Np.ifft2. simpl.
  destruct (Nat.eqb_spec (nrows combined) 0); [lia|].
  destruct (Nat.eqb_spec (ncols combined) 0); [lia|]. simpl.
  eexists. split; [reflexivity|]. split; [reflexivity|].
  intros y x. simpl. rewrite <- Cabs_0. f_equal.
  rewrite Csum_zero; [apply Cmul_0_r|]. intros j.
  rewrite Csum_zero; [now rewrite Cmul_0_r, Cmul_0_l|]. intros k.
  now rewrite Hz, Cmul_0_l.
Qed.

Lemma mix_images_all_skipped
      (self : Mixer.t) (images : list (option (ndarray R)))
      (weights : list R) (component_selections : list string)
      (selector_region : list R) (H W : Z) (sigma : R) :
  (1 <= H)%Z -> (1 <= W)%Z ->
  nth_error selector_region 2 = Some sigma ->
  sigma * sigma <= Py.DBL_MAX ->
  (forall i, (i < 4)%nat -> skipped images weights i) ->
  exists (mixed : ndarray R) (out : ndarray Z),
    Mixer.mixed_image (NDArray (Z.to_nat H) (Z.to_nat W) (fun _ _ => C0))
    = Ok mixed /\
    (forall y x : nat, at_ mixed y x = 0) /\
    Mixer.mix_images self images weights component_selections
                     selector_region (Some H) (Some W) = Ok out /\
    Np.shape out = (Z.to_nat H, Z.to_nat W) /\
    forall y x : nat, at_ out y x = 0%Z.
Proof.
  intros HH HW Hsig Hrange Hskip. unfold Mixer.mix_images.
  rewrite (mix_spectrum_all_skipped self images weights component_selections
             selector_region H W sigma) by (assumption || lia).
  cbn [Py.bind]. unfold Mixer.reconstruct.
  destruct (mixed_image_zero
              (NDArray (Z.to_nat H) (Z.to_nat W) (fun _ _ => C0)))
    as [mixed [Hm [Hsh Hzero]]]; simpl; try lia; [reflexivity|].
  rewrite Hm. cbn [Py.bind]. injection Hsh as Hr Hc. simpl in Hr, Hc.
  destruct (normalize_uint8_flat mixed) as [out [Ho [Hsho Hout]]];
    try lia.
  { rewrite (amin_const _ 0 Hzero), (amax_const _ 0 Hzero).
    pose proof DBL_EPSILON_pos. lra. }
  exists mixed, out. repeat split; try assumption.
  rewrite Hsho. unfold Np.shape. now rewrite Hr, Hc.
Qed.

(** C4 (as amended).  In a call with target dimensions of at least 1 x 1
    and a region parameter that carries a sigma whose square is within the
    double range, in which each of the four slots has an absent image or a
    weight equal to 0, [mix_images] raises nothing and returns the image
    of the target dimensions whose pixels are all 0: the normalisation of
    the constant magnitude image (min = max) takes the scale 0, it divides
    by nothing. *)
Theorem mix_images_all_skipped_zero
        (self : Mixer.t) (images : list (option (ndarray R)))
        (weights : list R) (component_selections : list string)
        (selector_region : list R) (H W : Z) (sigma : R) :
  (1 <= H)%Z -> (1 <= W)%Z ->
  nth_error selector_region 2 = Some sigma ->
  sigma * sigma <= Py.DBL_MAX ->
  (forall i, (i < 4)%nat -> skipped images weights i) ->
  exists out : ndarray Z,
    Mixer.mix_images self images weights component_selections
                     selector_region (Some H) (Some W) = Ok out /\
    Np.shape out = (Z.to_nat H, Z.to_nat W) /\
    (forall y x : nat, at_ out y x = 0%Z) /\
    Np.tolist out = repeat (repeat 0%Z (Z.to_nat W)) (Z.to_nat H).
Proof.
  intros HH HW Hsig Hrange Hskip.
  destruct (mix_images_all_skipped self images weights component_selections
              selector_region H W sigma HH HW Hsig Hrange Hskip)
    as [mixed [out [_ [_ [Ho [Hsh Hz]]]]]].
  exists out. repeat split; try assumption.
  injection Hsh as Hr Hc. unfold Np.tolist. rewrite Hr, Hc.
  generalize (Z.to_nat H) as h, (Z.to_nat W) as w. intros h w.
  assert (Hrow : forall k, List.map (fun x => at_ out k x) (seq 0 w)
                           = repeat 0%Z w).
  { intros k. generalize 0%nat. induction w as [|w IH]; intros s; simpl;
      [reflexivity | now rewrite Hz, IH]. }
  rewrite (map_ext _ (fun _ => repeat 0%Z w) Hrow).
  generalize 0%nat. induction h as [|h IH]; intros s; simpl;
    [reflexivity | now rewrite IH].
Qed.

Lemma sigma_one_in_range : 1 * 1 <= Py.DBL_MAX.
Proof.
  rewrite Rmult_1_l. unfold Py.DBL_MAX. apply IZR_le. vm_compute.
  discriminate.
Qed.

Lemma four_absent_skipped (weights : list R) (i : nat) :
  (i < 4)%nat -> skipped [None; None; None; None] weights i.
Proof.
  intros Hi. left.
  destruct i as [|[|[|[|i]]]]; try reflexivity. lia.
Qed.

Lemma mix_images_all_skipped_zero_witness :
  exists out : ndarray Z,
    Mixer.mix_images Mixer.__init__ [None; None; None; None] [0; 0; 0; 0]
                     [] [0; 0; 1; 0] (Some 2%Z) (Some 3%Z) = Ok out /\
    Np.shape out = (Z.to_nat 2, Z.to_nat 3) /\
    (forall y x : nat, at_ out y x = 0%Z) /\
    Np.tolist out = repeat (repeat 0%Z (Z.to_nat 3)) (Z.to_nat 2).
Proof.
  apply (mix_images_all_skipped_zero
           Mixer.__init__ [None; None; None; None] [0; 0; 0; 0] []
           [0; 0; 1; 0] 2 3 1).
  - lia.
  - lia.
  - reflexivity.
  - exact sigma_one_in_range.
  - apply four_absent_skipped.
Defined.

Lemma huge_sigma_overflows : Py.DBL_MAX < 1e200 * 1e200.
Proof.
  unfold Py.DBL_MAX. replace 1e200 with (IZR (10 ^ 200)).
  - rewrite <- mult_IZR. apply IZR_lt. vm_compute. reflexivity.
  - change 1e200 with (1 * IZR (Z.pow_pos 10 200)). now rewrite Rmult_1_l.
Qed.

(** C4, the claim as stated fails: target dimensions supplied and every
    slot skipped do not suffice for the all-zero image.  What comes before
    and after the loop still runs: a region parameter without a sigma
    raises [IndexError] ([selector_region[2]]), the finite sigma 1e200
    raises [OverflowError] ([float(sigma) ** 2]), and a target height of 0
    raises [ValueError] (the inverse transform of an empty array). *)
Lemma mix_images_all_skipped_raises :
  Mixer.mix_images Mixer.__init__ [None; None; None; None] [0; 0; 0; 0]
    ["FT Real"; "FT Real"; "FT Real"; "FT Real"]%string
    [] (Some 2%Z) (Some 2%Z) = Raise IndexError /\
  Mixer.mix_images Mixer.__init__ [None; None; None; None] [0; 0; 0; 0]
    ["FT Real"; "FT Real"; "FT Real"; "FT Real"]%string
    [0; 0; 1e200; 0] (Some 2%Z) (Some 2%Z) = Raise OverflowError /\
  Mixer.mix_images Mixer.__init__ [None; None; None; None] [0; 0; 0; 0]
    ["FT Real"; "FT Real"; "FT Real"; "FT Real"]%string
    [0; 0; 1; 0] (Some 0%Z) (Some 2%Z) = Raise ValueError.
Proof.
  split; [reflexivity|]. split.
  - unfold Mixer.mix_images, Mixer.mix_spectrum.
    rewrite (zeros_ok _ 2 2) by lia.
    change (Py.getitem [0; 0; 1e200; 0] 2) with (Ok (A := R) 1e200).
    cbn [Py.bind].
    now rewrite (create_gaussian_mask_overflow _ _ _ huge_sigma_overflows).
  - unfold Mixer.mix_images.
    rewrite (mix_spectrum_all_skipped _ _ _ _ _ 0 2 1);
      [| lia | lia | reflexivity | exact sigma_one_in_range
       | apply four_absent_skipped].
    reflexivity.
Qed.

(** ** The normalised output *)





(** ** Shapes that do not match the target *)

Lemma stretches_dec (n m : nat) : {stretches n m} + {~ stretches n m}.
Proof.
  unfold stretches.
  destruct (Nat.eq_dec n m); [now left; left|].
  destruct (Nat.eq_dec n 1); [now left; right|].
  right. intros [|]; contradiction.
Qed.

Lemma iadd_fits (a b : ndarray C) :
  stretches (nrows b) (nrows a) -> stretches (ncols b) (ncols a) ->
  exists c, Np.iadd a b = Ok c.
Proof.
  intros Hr Hc. unfold Np.iadd.
  replace ((nrows b =? nrows a) || (nrows b =? 1))%nat with true.
  - replace ((ncols b =? ncols a) || (ncols b =? 1))%nat with true.
    + simpl. eexists; reflexivity.
    + symmetry. apply orb_true_iff. rewrite !Nat.eqb_eq. exact Hc.
  - symmetry. apply orb_true_iff. rewrite !Nat.eqb_eq. exact Hr.
Qed.

Lemma iadd_misfit (a b : ndarray C) :
  ~ (stretches (nrows b) (nrows a) /\ stretches (ncols b) (ncols a)) ->
  Np.iadd a b = Raise ValueError.
Proof.
  intros Hn. unfold Np.iadd.
  destruct (((nrows b =? nrows a) || (nrows b =? 1)) &&
            ((ncols b =? ncols a) || (ncols b =? 1)))%nat eqn:Hfit;
    [|reflexivity].
  exfalso. apply Hn. apply andb_prop in Hfit. destruct Hfit as [Hr Hc].
  apply orb_true_iff in Hr. apply orb_true_iff in Hc.
  rewrite !Nat.eqb_eq in Hr, Hc. now split.
Qed.

(** For a known selection, step 2 is one [+=] of an array that has the
    shape of the masked spectrum. *)
Lemma weigh_component_iadd (selected : string) (weight : R)
      (masked s : ndarray C) :
  In selected selectors ->
  exists contribution : ndarray C,
    Np.shape contribution = Np.shape masked /\
    Mixer.weigh_component selected weight masked s
    = Np.iadd s contribution.
Proof.
  unfold selectors. intros Hsel. simpl in Hsel.
  destruct Hsel as [<- | [<- | [<- | [<- | []]]]];
    unfold Mixer.weigh_component.
  - change (Py.str_in "FT Magnitude" ["FT Magnitude"; "FT Phase"]%string)
      with true.
    change ("FT Magnitude" =? "FT Magnitude")%string with true. cbv iota.
    destruct (weighted_magnitude_scaled weight masked)
      as [wm [Hwm [Hr [Hc _]]]].
    exists wm. split; [unfold Np.shape; now rewrite Hr, Hc|].
    now rewrite Hwm.
  - eexists. split; [|reflexivity]. reflexivity.
  - eexists. split; [|reflexivity]. reflexivity.
  - eexists. split; [|reflexivity]. reflexivity.
Qed.

Lemma bdim_cases (n m : nat) :
  match Np.bdim n m with
  | Some b => stretches b m <-> stretches n m
  | None => ~ stretches n m
  end.
Proof.
  unfold Np.bdim, stretches.
  destruct (Nat.eqb_spec n m) as [->|Hnm]; [tauto|].
  destruct (Nat.eqb_spec n 1) as [->|Hn1]; [tauto|].
  destruct (Nat.eqb_spec m 1) as [->|Hm1]; tauto.
Qed.

(** The masked spectrum fits the target exactly when the spectrum does;
    a mask that cannot be applied is a [ValueError]. *)
Lemma apply_region_mask_fit (self : Mixer.t) (ft : ndarray C)
      (g : ndarray R) (h w : nat) :
  known_mode (Mixer._region_mode self) -> Np.shape g = (h, w) ->
  match Mixer.__apply_region_mask self ft g with
  | Ok masked =>
      (stretches (nrows masked) h /\ stretches (ncols masked) w) <->
      (stretches (nrows ft) h /\ stretches (ncols ft) w)
  | Raise e =>
      e = ValueError /\
      ~ (stretches (nrows ft) h /\ stretches (ncols ft) w)
  end.
Proof.
  intros Hmode Hg. injection Hg as Hgr Hgc.
  unfold Mixer.__apply_region_mask.
  assert (Hmul : forall mask : ndarray R,
    nrows mask = h -> ncols mask = w ->
    match Np.ufunc2 (fun z m => Cmul z (RtoC m)) ft mask with
    | Ok masked =>
        (stretches (nrows masked) h /\ stretches (ncols masked) w) <->
        (stretches (nrows ft) h /\ stretches (ncols ft) w)
    | Raise e =>
        e = ValueError /\
        ~ (stretches (nrows ft) h /\ stretches (ncols ft) w)
    end).
  { intros mask Hr Hc. unfold Np.ufunc2. rewrite Hr, Hc.
    pose proof (bdim_cases (nrows ft) h) as Hbr.
    pose proof (bdim_cases (ncols ft) w) as Hbc.
    destruct (Np.bdim (nrows ft) h), (Np.bdim (ncols ft) w); simpl; tauto. }
  destruct Hmode as [-> | [-> | ->]]; simpl.
  - tauto.
  - now apply Hmul.
  - now apply Hmul.
Qed.

Lemma fft2_shape (a ft : ndarray C) :
  Np.fft2 a = Ok ft -> Np.shape ft = Np.shape a.
Proof.
  unfold Np.fft2. destruct ((nrows a =? 0) || (ncols a =? 0))%nat;
    [discriminate | now intros [= <-]].
Qed.

Lemma fft2_outcome (a : ndarray C) :
  (exists ft, Np.fft2 a = Ok ft) \/ Np.fft2 a = Raise ValueError.
Proof.
  unfold Np.fft2. destruct ((nrows a =? 0) || (ncols a =? 0))%nat;
    [now right | left; eexists; reflexivity].
Qed.

Lemma fft2_ok (a : ndarray C) :
  (0 < nrows a)%nat -> (0 < ncols a)%nat -> exists ft, Np.fft2 a = Ok ft.
Proof.
  intros Hr Hc. unfold Np.fft2.
  destruct (Nat.eqb_spec (nrows a) 0); [lia|].
  destruct (Nat.eqb_spec (ncols a) 0); [lia|]. eexists; reflexivity.
Qed.

(** An active slot with a known selection, in a known mode. *)
Section ActiveSlot.

Variables (self : Mixer.t) (images : list (option (ndarray R)))
          (weights : list R) (component_selections : list string)
          (gaussian_mask : ndarray R) (s : ndarray C)
          (i : nat) (image : ndarray R) (weight : R) (selected : string).

Hypothesis Hmode : known_mode (Mixer._region_mode self).
Hypothesis Hactive : active images weights i image weight.
Hypothesis Hselected : nth_error component_selections i = Some selected.
Hypothesis Hknown : In selected selectors.
Hypothesis Hmask : Np.shape gaussian_mask = Np.shape s.

Lemma mix_slot_active :
  Mixer.mix_slot self images weights component_selections gaussian_mask s i
  = (ft_image <- Np.fft2 (Np.to_complex image) ;;
     ft_image_masked <-
       Mixer.__apply_region_mask self (Np.fftshift ft_image) gaussian_mask ;;
     Mixer.weigh_component selected weight ft_image_masked s).
Proof.
  destruct Hactive as [Hi [Hw Hnz]]. unfold Mixer.mix_slot.
  rewrite (getitem_nth _ _ _ Hi), (getitem_nth _ _ _ Hw). cbn [Py.bind].
  destruct (Req_dec_T weight 0); [contradiction|].
  now rewrite (getitem_nth _ _ _ Hselected).
Qed.

Lemma mix_slot_misfit :
  ~ (stretches (nrows image) (nrows s) /\
     stretches (ncols image) (ncols s)) ->
  Mixer.mix_slot self images weights component_selections gaussian_mask s i
  = Raise ValueError.
Proof.
  intros Hn. rewrite mix_slot_active.
  destruct (fft2_outcome (Np.to_complex image)) as [[ft Hft] | ->];
    [|reflexivity].
  rewrite Hft. cbn [Py.bind].
  pose proof (fft2_shape _ _ Hft) as Hsh. injection Hsh as Hr Hc.
  pose proof (apply_region_mask_fit self (Np.fftshift ft) gaussian_mask
                (nrows s) (ncols s) Hmode Hmask) as Hfit.
  destruct (Mixer.__apply_region_mask self (Np.fftshift ft) gaussian_mask)
    as [masked|e]; cbn [Py.bind].
  - destruct (weigh_component_iadd selected weight masked s Hknown)
      as [contribution [Hcs ->]].
    injection Hcs as Hcr Hcc. apply iadd_misfit.
    rewrite Hcr, Hcc. simpl in Hfit, Hr, Hc. rewrite Hr, Hc in Hfit. tauto.
  - destruct Hfit as [-> _]. reflexivity.
Qed.

Lemma mix_slot_fits :
  (0 < nrows image)%nat -> (0 < ncols image)%nat ->
  stretches (nrows image) (nrows s) -> stretches (ncols image) (ncols s) ->
  exists s', Mixer.mix_slot self images weights component_selections
                            gaussian_mask s i = Ok s'.
Proof.
  intros Hpr Hpc Hfr Hfc. rewrite mix_slot_active.
  destruct (fft2_ok (Np.to_complex image) Hpr Hpc) as [ft Hft].
  rewrite Hft. cbn [Py.bind].
  pose proof (fft2_shape _ _ Hft) as Hsh. injection Hsh as Hr Hc.
  pose proof (apply_region_mask_fit self (Np.fftshift ft) gaussian_mask
                (nrows s) (ncols s) Hmode Hmask) as Hfit.
  simpl in Hfit, Hr, Hc. rewrite Hr, Hc in Hfit.
  destruct (Mixer.__apply_region_mask self (Np.fftshift ft) gaussian_mask)
    as [masked|e]; cbn [Py.bind]; [|tauto].
  destruct (weigh_component_iadd selected weight masked s Hknown)
    as [contribution [Hcs ->]].
  injection Hcs as Hcr Hcc. apply iadd_fits; rewrite ?Hcr, ?Hcc; tauto.
Qed.

End ActiveSlot.

(** The loop under an invariant of the accumulator. *)
Section Loop.

Variables (body : ndarray C -> nat -> result (ndarray C))
          (P : ndarray C -> Prop).

Hypothesis body_keeps : forall s s' i, body s i = Ok s' -> P s -> P s'.

Lemma for_each_raise (e : exn) (idx : list nat) (k : nat) :
  (forall s i, In i idx -> P s ->
               (exists s', body s i = Ok s') \/ body s i = Raise e) ->
  In k idx ->
  (forall s, P s -> body s k = Raise e) ->
  forall s, P s -> Py.for_each body idx s = Raise e.
Proof.
  intros Hout Hk Hraise. induction idx as [|i idx IH]; [contradiction|].
  intros s Hs. simpl.
  destruct (Nat.eq_dec i k) as [->|Hik].
  - now rewrite (Hraise s Hs).
  - destruct (Hout s i (or_introl eq_refl) Hs) as [[s' Hs'] | ->];
      [|reflexivity].
    rewrite Hs'. cbn [Py.bind]. apply IH.
    + intros t j Hj. apply Hout. now right.
    + destruct Hk as [Hk|Hk]; [contradiction | exact Hk].
    + now apply (body_keeps s s' i).
Qed.

Lemma for_each_ok (idx : list nat) :
  (forall s i, In i idx -> P s -> exists s', body s i = Ok s') ->
  forall s, P s -> exists s', Py.for_each body idx s = Ok s' /\ P s'.
Proof.
  induction idx as [|i idx IH]; intros Hok s Hs; simpl.
  - now exists s.
  - destruct (Hok s i (or_introl eq_refl) Hs) as [s' Hs'].
    rewrite Hs'. cbn [Py.bind]. apply IH.
    + intros t j Hj. apply Hok. now right.
    + now apply (body_keeps s s' i).
Qed.

End Loop.

Lemma normalize_uint8_ok (mixed : ndarray R) :
  (0 < nrows mixed)%nat -> (0 < ncols mixed)%nat ->
  exists out : ndarray Z,
    Mixer.normalize_uint8 mixed = Ok out /\ Np.shape out = Np.shape mixed.
Proof.
  intros Hr Hc. eexists. split; [now apply normalize_uint8_eq|reflexivity].
Qed.

Lemma reconstruct_ok (combined : ndarray C) :
  (0 < nrows combined)%nat -> (0 < ncols combined)%nat ->
  exists out : ndarray Z,
    Mixer.reconstruct combined = Ok out /\
    Np.shape out = Np.shape combined.
Proof.
  intros Hr Hc. unfold Mixer.reconstruct.
  destruct (mixed_image_ok combined Hr Hc) as [mixed [-> Hsh]].
  cbn [Py.bind]. injection Hsh as Hmr Hmc.
  destruct (normalize_uint8_ok mixed) as [out [-> Hso]]; try lia.
  exists out. split; [reflexivity|].
  rewrite Hso. unfold Np.shape. now rewrite Hmr, Hmc.
Qed.

Lemma in_range_4 (i : nat) : In i (Py.range 4) <-> (i < 4)%nat.
Proof. unfold Py.range. rewrite in_seq. lia. Qed.

Section WellFormedCall.

Variables (self : Mixer.t) (images : list (option (ndarray R)))
          (weights : list R) (component_selections : list string)
          (selector_region : list R) (sigma : R) (H W : Z).

Hypothesis Hwf : well_formed_call self images weights component_selections
                                  selector_region sigma.

Lemma slot_selection (i : nat) :
  (i < 4)%nat ->
  exists selected, nth_error component_selections i = Some selected /\
                   In selected selectors.
Proof.
  destruct Hwf as (_ & _ & _ & Hlen & Hsel & _). intros Hi.
  destruct (nth_error component_selections i) as [selected|] eqn:Hn.
  - exists selected. split; [reflexivity|].
    apply Hsel. now apply nth_error_In with i.
  - apply nth_error_None in Hn. lia.
Qed.

Lemma slot_outcome (g : ndarray R) (s : ndarray C) (i : nat) :
  (i < 4)%nat -> Np.shape g = Np.shape s ->
  (exists s', Mixer.mix_slot self images weights component_selections
                              g s i = Ok s') \/
  Mixer.mix_slot self images weights component_selections g s i
  = Raise ValueError.
Proof.
  intros Hi Hg. destruct (slot_selection i Hi) as [selected [Hsel Hknown]].
  destruct Hwf as (Hmode & Hli & Hlw & _).
  destruct (nth_error images i) as [[image|]|] eqn:Him.
  - destruct (nth_error weights i) as [weight|] eqn:Hwt.
    + destruct (Req_dec_T weight 0) as [->|Hnz].
      * left. exists s. apply mix_slot_skipped. right. now exists image.
      * assert (Hact : active images weights i image weight)
          by now repeat split.
        destruct (stretches_dec (nrows image) (nrows s)) as [Hr|Hr];
          [destruct (stretches_dec (ncols image) (ncols s)) as [Hc|Hc]|].
        -- destruct (Nat.eq_dec (nrows image) 0) as [Hz|Hz];
             [|destruct (Nat.eq_dec (ncols image) 0) as [Hz'|Hz']].
           ++ right. rewrite (mix_slot_active self images weights
                component_selections g s i image weight selected Hact Hsel).
              unfold Np.fft2. simpl. now rewrite Hz.
           ++ right. rewrite (mix_slot_active self images weights
                component_selections g s i image weight selected Hact Hsel).
              unfold Np.fft2. simpl. rewrite Hz'.
              now rewrite orb_true_r.
           ++ left. apply (mix_slot_fits self images weights
                component_selections g s i image weight selected);
                try assumption; lia.
        -- right. apply (mix_slot_misfit self images weights
             component_selections g s i image weight selected);
             try assumption; tauto.
        -- right. apply (mix_slot_misfit self images weights
             component_selections g s i image weight selected);
             try assumption; tauto.
    + apply nth_error_None in Hwt. lia.
  - left. exists s. apply mix_slot_skipped. now left.
  - apply nth_error_None in Him. lia.
Qed.

(** A slot whose image does not fit makes the whole call raise. *)
Lemma mix_images_misfit (k : nat) (image : ndarray R) (weight : R) :
  (k < 4)%nat -> active images weights k image weight ->
  ~ (stretches (nrows image) (Z.to_nat H) /\
     stretches (ncols image) (Z.to_nat W)) ->
  Mixer.mix_images self images weights component_selections selector_region
                   (Some H) (Some W) = Raise ValueError.
Proof.
  intros Hk Hact Hmis.
  destruct (slot_selection k Hk) as [selected [Hsel Hknown]].
  destruct Hwf as (Hmode & _ & _ & _ & _ & Hsig & Hrange).
  unfold Mixer.mix_images, Mixer.mix_spectrum.
  destruct (Np.zeros C0 H W) as [z|e] eqn:Hz; cbn [Py.bind].
  2:{ unfold Np.zeros in Hz. destruct ((H <? 0) || (W <? 0))%Z;
        [now injection Hz as <- | discriminate]. }
  apply zeros_shape in Hz.
  rewrite (getitem_nth _ _ _ Hsig). cbn [Py.bind].
  rewrite (create_gaussian_mask_ok _ _ _ Hrange). cbn [Py.bind].
  set (g := NDArray (Z.to_nat H) (Z.to_nat W) _).
  rewrite (for_each_raise
             (Mixer.mix_slot self images weights component_selections g)
             (fun s => Np.shape s = (Z.to_nat H, Z.to_nat W))) with (e := ValueError) (k := k).
  - reflexivity.
  - intros s s' i Hs' Hs. now rewrite (mix_slot_shape _ _ _ _ _ _ _ _ Hs').
  - intros s i Hi Hs. apply slot_outcome; [now apply in_range_4|].
    now rewrite Hs.
  - now apply in_range_4.
  - intros s Hs. injection Hs as Hr Hc.
    apply (mix_slot_misfit self images weights component_selections g s k
             image weight selected); try assumption.
    + unfold Np.shape. now rewrite Hr, Hc.
    + now rewrite Hr, Hc.
  - exact Hz.
Qed.

(** A single active slot whose image fits, each axis by its length or by
    length 1, is mixed without an exception. *)
Lemma mix_images_single_fit (k : nat) (image : ndarray R) (weight : R) :
  (1 <= H)%Z -> (1 <= W)%Z ->
  (k < 4)%nat -> active images weights k image weight ->
  stretches (nrows image) (Z.to_nat H) ->
  stretches (ncols image) (Z.to_nat W) ->
  (forall j, (j < 4)%nat -> j <> k -> skipped images weights j) ->
  exists out : ndarray Z,
    Mixer.mix_images self images weights component_selections
                     selector_region (Some H) (Some W) = Ok out /\
    Np.shape out = (Z.to_nat H, Z.to_nat W).
Proof.
  intros HH HW Hk Hact Hfr Hfc Hskip.
  destruct (slot_selection k Hk) as [selected [Hsel Hknown]].
  destruct Hwf as (Hmode & _ & _ & _ & _ & Hsig & Hrange).
  unfold Mixer.mix_images, Mixer.mix_spectrum.
  rewrite zeros_ok by lia. cbn [Py.bind].
  rewrite (getitem_nth _ _ _ Hsig). cbn [Py.bind].
  rewrite (create_gaussian_mask_ok _ _ _ Hrange). cbn [Py.bind].
  set (g := NDArray (Z.to_nat H) (Z.to_nat W) (fun i j => exp _)).
  destruct (for_each_ok
              (Mixer.mix_slot self images weights component_selections g)
              (fun s => Np.shape s = (Z.to_nat H, Z.to_nat W))) with
      (idx := Py.range 4)
      (s := NDArray (Z.to_nat H) (Z.to_nat W) (fun _ _ => C0))
    as [combined [Hcomb Hshape]].
  - intros s s' i Hs' Hs. now rewrite (mix_slot_shape _ _ _ _ _ _ _ _ Hs').
  - intros s i Hi Hs. apply in_range_4 in Hi. injection Hs as Hr Hc.
    destruct (Nat.eq_dec i k) as [->|Hik].
    + apply (mix_slot_fits self images weights component_selections g s k
               image weight selected); try assumption.
      * unfold Np.shape. now rewrite Hr, Hc.
      * destruct Hfr as [Hfr|Hfr]; lia.
      * destruct Hfc as [Hfc|Hfc]; lia.
      * now rewrite Hr.
      * now rewrite Hc.
    + exists s. apply mix_slot_skipped. now apply Hskip.
  - reflexivity.
  - rewrite Hcomb. cbn [Py.bind]. injection Hshape as Hr Hc.
    destruct (reconstruct_ok combined) as [out [Ho Hso]]; try lia.
    exists out. split; [exact Ho|].
    rewrite Hso. unfold Np.shape. now rewrite Hr, Hc.
Qed.

End WellFormedCall.

(** The calls used as examples: one image in slot 0, weight 1, mode None,
    selection "FT Real", sigma 1. *)
Lemma example_call_well_formed (image : option (ndarray R)) :
  well_formed_call Mixer.__init__ [image; None; None; None] [1; 0; 0; 0]
    ["FT Real"; "FT Real"; "FT Real"; "FT Real"]%string [0; 0; 1; 0] 1.
Proof.
  repeat split.
  - now left.
  - intros selected Hin. simpl in Hin. unfold selectors.
    destruct Hin as [<- | [<- | [<- | [<- | []]]]]; simpl; tauto.
  - exact sigma_one_in_range.
Qed.

Lemma example_call_active (image : ndarray R) :
  active [Some image; None; None; None] [1; 0; 0; 0] 0 image 1.
Proof. repeat split. lra. Qed.

Lemma example_call_others_skipped (image : ndarray R) (j : nat) :
  (j < 4)%nat -> j <> 0%nat ->
  skipped [Some image; None; None; None] [1; 0; 0; 0] j.
Proof.
  intros Hj Hne. left.
  destruct j as [|[|[|[|j]]]]; try reflexivity; [contradiction | lia].
Qed.

(** C9 (as amended).  [mix_images] does not validate the shapes of the
    images.  In a well-formed call whose slot [k] is active with an image
    of another shape than the target: if some axis of the image has
    neither the target length nor length 1, the call raises the
    [ValueError] of numpy's broadcasting; if every axis has the target
    length or length 1 and the other slots are skipped, the call raises
    nothing and returns an image of the target shape, the image having
    been broadcast. *)
Theorem mix_images_shape_mismatch
        (self : Mixer.t) (images : list (option (ndarray R)))
        (weights : list R) (component_selections : list string)
        (selector_region : list R) (sigma : R) (H W : Z)
        (k : nat) (image : ndarray R) (weight : R) :
  well_formed_call self images weights component_selections
                   selector_region sigma ->
  (1 <= H)%Z -> (1 <= W)%Z ->
  (k < 4)%nat -> active images weights k image weight ->
  Np.shape image <> (Z.to_nat H, Z.to_nat W) ->
  (~ (stretches (nrows image) (Z.to_nat H) /\
      stretches (ncols image) (Z.to_nat W)) ->
   Mixer.mix_images self images weights component_selections
                    selector_region (Some H) (Some W) = Raise ValueError) /\
  (stretches (nrows image) (Z.to_nat H) /\
   stretches (ncols image) (Z.to_nat W) ->
   (forall j, (j < 4)%nat -> j <> k -> skipped images weights j) ->
   exists out : ndarray Z,
     Mixer.mix_images self images weights component_selections
                      selector_region (Some H) (Some W) = Ok out /\
     Np.shape out = (Z.to_nat H, Z.to_nat W)).
Proof.
  intros Hwf HH HW Hk Hact _. split.
  - intros Hmis. now apply (mix_images_misfit self images weights
      component_selections selector_region sigma H W Hwf k image weight).
  - intros [Hfr Hfc] Hskip. now apply (mix_images_single_fit self images
      weights component_selections selector_region sigma H W Hwf k image
      weight).
Qed.

Lemma mix_images_shape_mismatch_witness :
  Mixer.mix_images Mixer.__init__
    [Some (Np.array 0 [[1; 2; 3]; [4; 5; 6]; [7; 8; 9]]); None; None; None]
    [1; 0; 0; 0] ["FT Real"; "FT Real"; "FT Real"; "FT Real"]%string
    [0; 0; 1; 0] (Some 2%Z) (Some 2%Z)
  = Raise ValueError.
Proof.
  apply (mix_images_shape_mismatch Mixer.__init__
           [Some (Np.array 0 [[1; 2; 3]; [4; 5; 6]; [7; 8; 9]]);
            None; None; None]
           [1; 0; 0; 0] ["FT Real"; "FT Real"; "FT Real"; "FT Real"]%string
           [0; 0; 1; 0] 1 2 2 0
           (Np.array 0 [[1; 2; 3]; [4; 5; 6]; [7; 8; 9]]) 1).
  - apply example_call_well_formed.
  - lia.
  - lia.
  - lia.
  - apply example_call_active.
  - discriminate.
  - unfold stretches. simpl. lia.
Defined.

(** C9, the claim as stated fails: a 1 x 1 image in the active slot of a
    call with target 2 x 2 differs from the target in both dimensions, and
    the call returns an image. *)
Lemma mix_images_accepts_mismatch :
  Np.shape (Np.array 0 [[5]]) <> (2%nat, 2%nat) /\
  active [Some (Np.array 0 [[5]]); None; None; None] [1; 0; 0; 0]
         0 (Np.array 0 [[5]]) 1 /\
  exists out : ndarray Z,
    Mixer.mix_images Mixer.__init__
      [Some (Np.array 0 [[5]]); None; None; None] [1; 0; 0; 0]
      ["FT Real"; "FT Real"; "FT Real"; "FT Real"]%string
      [0; 0; 1; 0] (Some 2%Z) (Some 2%Z) = Ok out.
Proof.
  split; [discriminate|]. split; [apply example_call_active|].
  destruct (mix_images_single_fit Mixer.__init__
              [Some (Np.array 0 [[5]]); None; None; None] [1; 0; 0; 0]
              ["FT Real"; "FT Real"; "FT Real"; "FT Real"]%string
              [0; 0; 1; 0] 1 2 2
              (example_call_well_formed _) 0 (Np.array 0 [[5]]) 1)
    as [out [Ho _]].
  - lia.
  - lia.
  - lia.
  - apply example_call_active.
  - now right.
  - now right.
  - apply example_call_others_skipped.
  - now exists out.
Qed.

(** ** Complex numbers: the ring, sums, the unit circle *)

Lemma C_ring_theory : ring_theory C0 C1 Cadd Cmul Csub Copp eq.
Proof.
  constructor; intros; apply Ceq; simpl; ring.
Qed.

Add Ring C_ring : C_ring_theory.

Lemma Csum_ext (f g : nat -> C) (n : nat) :
  (forall k, (k < n)%nat -> f k = g k) -> Csum f n = Csum g n.
Proof.
  induction n as [|n IH]; intros Hfg; simpl; [reflexivity|].
  rewrite IH, Hfg by (intros; try apply Hfg; lia). reflexivity.
Qed.

Lemma Csum_add (f g : nat -> C) (n : nat) :
  Csum (fun k => Cadd (f k) (g k)) n = Cadd (Csum f n) (Csum g n).
Proof.
  induction n as [|n IH]; simpl; [ring | rewrite IH; ring].
Qed.

Lemma Csum_mul_l (c : C) (f : nat -> C) (n : nat) :
  Csum (fun k => Cmul c (f k)) n = Cmul c (Csum f n).
Proof.
  induction n as [|n IH]; simpl; [ring | rewrite IH; ring].
Qed.

Lemma Csum_mul_r (c : C) (f : nat -> C) (n : nat) :
  Csum (fun k => Cmul (f k) c) n = Cmul (Csum f n) c.
Proof.
  induction n as [|n IH]; simpl; [ring | rewrite IH; ring].
Qed.

Lemma Csum_swap (f : nat -> nat -> C) (n m : nat) :
  Csum (fun i => Csum (fun j => f i j) m) n
  = Csum (fun j => Csum (fun i => f i j) n) m.
Proof.
  induction n as [|n IH]; simpl.
  - symmetry. now apply Csum_zero.
  - rewrite IH, <- Csum_add. reflexivity.
Qed.

(** A sum with one term that is not zero. *)
Lemma Csum_single (f : nat -> C) (n j : nat) :
  (j < n)%nat -> (forall k, (k < n)%nat -> k <> j -> f k = C0) ->
  Csum f n = f j.
Proof.
  induction n as [|n IH]; intros Hj Hz; [lia|]. simpl.
  destruct (Nat.eq_dec j n) as [->|Hne].
  - rewrite (Csum_ext f (fun _ => C0)) by (intros; apply Hz; lia).
    rewrite Csum_zero by reflexivity. ring.
  - rewrite IH by (try lia; intros; apply Hz; lia).
    rewrite (Hz n) by lia. ring.
Qed.

Lemma Csum_const (c : C) (n : nat) :
  Csum (fun _ => c) n = Cmul (RtoC (INR n)) c.
Proof.
  induction n as [|n IH]; [apply Ceq; simpl; ring|].
  change (Csum (fun _ => c) (S n)) with (Cadd (Csum (fun _ => c) n) c).
  rewrite IH, S_INR. apply Ceq; simpl; ring.
Qed.

Lemma cis_add (a b : R) : Cmul (cis a) (cis b) = cis (a + b).
Proof.
  unfold cis, Cmul; simpl. rewrite cos_plus, sin_plus.
  apply Ceq; simpl; ring.
Qed.

Lemma cis_0 : cis 0 = C1.
Proof. unfold cis. now rewrite cos_0, sin_0. Qed.

Lemma cis_conj (a : R) : Cconj (cis a) = cis (- a).
Proof. unfold cis, Cconj; simpl. now rewrite cos_neg, sin_neg. Qed.

(** A whole number of turns. *)
Lemma cis_turns_nat (n : nat) : cis (2 * PI * INR n) = C1.
Proof.
  unfold cis.
  replace (2 * PI * INR n) with (0 + 2 * INR n * PI) by ring.
  now rewrite cos_period, sin_period, cos_0, sin_0.
Qed.

Lemma cis_turns (z : Z) : cis (2 * PI * IZR z) = C1.
Proof.
  destruct (Z_le_gt_dec 0 z) as [Hz|Hz].
  - rewrite <- (Z2Nat.id z Hz), <- INR_IZR_INZ. apply cis_turns_nat.
  - replace (2 * PI * IZR z) with (- (2 * PI * IZR (- z)))
      by (rewrite opp_IZR; ring).
    rewrite <- cis_conj.
    rewrite <- (Z2Nat.id (- z)), <- INR_IZR_INZ by lia.
    rewrite cis_turns_nat. apply Ceq; simpl; ring.
Qed.

(** Only whole numbers of turns come back to 1. *)
Lemma cis_eq_1 (theta : R) :
  cis theta = C1 -> exists z : Z, theta = 2 * PI * IZR z.
Proof.
  unfold cis, C1. intros [= Hc Hs].
  assert (Hhalf : sin (theta / 2) = 0).
  { pose proof (cos_2a_sin (theta / 2)) as H2.
    replace (2 * (theta / 2)) with theta in H2 by field.
    rewrite Hc in H2. nra. }
  apply sin_eq_0_0 in Hhalf. destruct Hhalf as [z Hz].
  exists z. lra.
Qed.

Lemma Cmul_integral (a b : C) : Cmul a b = C0 -> a <> C0 -> b = C0.
Proof.
  destruct a as [x y], b as [u v]. unfold Cmul, C0; simpl.
  intros [= H1 H2] Hne.
  assert (Hn : 0 < x * x + y * y).
  { destruct (Req_dec_T x 0) as [->|Hx]; [|nra].
    destruct (Req_dec_T y 0) as [->|Hy]; [|nra].
    exfalso. now apply Hne. }
  assert (Hu : (x * x + y * y) * u = 0).
  { replace ((x * x + y * y) * u)
      with (x * (x * u - y * v) + y * (x * v + y * u)) by ring.
    rewrite H1, H2. ring. }
  assert (Hv : (x * x + y * y) * v = 0).
  { replace ((x * x + y * y) * v)
      with (x * (x * v + y * u) - y * (x * u - y * v)) by ring.
    rewrite H1, H2. ring. }
  apply Rmult_integral in Hu. apply Rmult_integral in Hv.
  destruct Hu as [Hu|Hu]; [lra|]. destruct Hv as [Hv|Hv]; [lra|].
  now subst.
Qed.

(** The geometric sum on the unit circle. *)
Lemma cis_geometric (theta : R) (n : nat) :
  Cmul (Csub C1 (cis theta)) (Csum (fun k => cis (INR k * theta)) n)
  = Csub C1 (cis (INR n * theta)).
Proof.
  induction n as [|n IH].
  - simpl. rewrite Rmult_0_l, cis_0. ring.
  - change (Csum (fun k => cis (INR k * theta)) (S n))
      with (Cadd (Csum (fun k => cis (INR k * theta)) n)
                 (cis (INR n * theta))).
    replace (INR (S n) * theta) with (theta + INR n * theta)
      by (rewrite S_INR; ring).
    rewrite <- cis_add.
    transitivity (Cadd (Cmul (Csub C1 (cis theta))
                             (Csum (fun k => cis (INR k * theta)) n))
                       (Cmul (Csub C1 (cis theta)) (cis (INR n * theta))));
      [ring|].
    rewrite IH. ring.
Qed.

(** Orthogonality of the characters of the cyclic group of order [n]. *)
Lemma cis_sum (n : nat) (d : Z) :
  (0 < n)%nat ->
  Csum (fun k => cis (2 * PI * INR k * IZR d / INR n)) n
  = if (d mod Z.of_nat n =? 0)%Z then RtoC (INR n) else C0.
Proof.
  intros Hn. assert (HnR : 0 < INR n) by (apply lt_0_INR; lia).
  destruct (Z.eqb_spec (d mod Z.of_nat n) 0) as [Hd|Hd].
  - apply Z.mod_divide in Hd; [|lia]. destruct Hd as [q ->].
    rewrite (Csum_ext _ (fun _ => C1)).
    + rewrite Csum_const. ring.
    + intros k _. rewrite mult_IZR, <- INR_IZR_INZ.
      replace (2 * PI * INR k * (IZR q * INR n) / INR n)
        with (2 * PI * IZR (Z.of_nat k * q))
        by (rewrite mult_IZR, <- INR_IZR_INZ; field; lra).
      apply cis_turns.
  - set (theta := 2 * PI * IZR d / INR n).
    rewrite (Csum_ext _ (fun k => cis (INR k * theta)))
      by (intros; unfold theta; f_equal; field; lra).
    apply Cmul_integral with (Csub C1 (cis theta)).
    + rewrite cis_geometric.
      replace (INR n * theta) with (2 * PI * IZR d)
        by (unfold theta; field; lra).
      rewrite cis_turns. ring.
    + intros Hone.
      assert (Hc : cis theta = C1).
      { transitivity (Csub C1 (Csub C1 (cis theta))); [ring|].
        rewrite Hone. ring. }
      apply cis_eq_1 in Hc. destruct Hc as [q Hq]. apply Hd.
      assert (Hdq : IZR d = IZR (q * Z.of_nat n)).
      { rewrite mult_IZR, <- INR_IZR_INZ. unfold theta in Hq.
        pose proof PI_RGT_0 as Hpi.
        apply Rmult_eq_reg_l with (2 * PI); [|lra].
        transitivity (2 * PI * IZR d / INR n * INR n); [field; lra|].
        rewrite Hq. ring. }
      apply eq_IZR in Hdq. rewrite Hdq. apply Z.mod_mul. lia.
Qed.


(** ** The discrete Fourier transform *)

Lemma twiddle_mul (z : Z) (n k j m : nat) :
  (0 < n)%nat ->
  Cmul (Np.twiddle (IZR z) n k j) (Np.twiddle 1 n m k)
  = cis (2 * PI * INR k * IZR (Z.of_nat m + z * Z.of_nat j) / INR n).
Proof.
  intros Hn. assert (HnR : 0 < INR n) by (apply lt_0_INR; lia).
  unfold Np.twiddle. rewrite cis_add. f_equal.
  rewrite plus_IZR, mult_IZR, <- !INR_IZR_INZ. field. lra.
Qed.

Lemma partner_lt (z : Z) (n m : nat) :
  (m < n)%nat -> (partner z n m < n)%nat.
Proof.
  intros Hm. unfold partner. destruct (z =? 1)%Z; [|exact Hm].
  apply Nat.mod_upper_bound. lia.
Qed.

Lemma partner_spec (z : Z) (n m j : nat) :
  z = 1%Z \/ z = (-1)%Z -> (m < n)%nat -> (j < n)%nat ->
  ((Z.of_nat m + z * Z.of_nat j) mod Z.of_nat n = 0)%Z <-> j = partner z n m.
Proof.
  intros Hz Hm Hj. unfold partner.
  assert (Hrefl : ((n - m) mod n)%nat = if (m =? 0)%nat then 0%nat
                                        else (n - m)%nat).
  { destruct (Nat.eqb_spec m 0) as [->|Hm0].
    - rewrite Nat.sub_0_r. apply Nat.Div0.mod_same.
    - apply Nat.mod_small. lia. }
  destruct Hz as [-> | ->]; simpl (_ =? _)%Z; cbv iota.
  - rewrite Hrefl. split.
    + intros Hmod. apply Z.mod_divide in Hmod; [|lia].
      destruct Hmod as [q Hq].
      assert (Hq01 : (q = 0 \/ q = 1)%Z) by nia.
      destruct (Nat.eqb_spec m 0); destruct Hq01 as [-> | ->]; lia.
    + intros ->. destruct (Nat.eqb_spec m 0) as [->|Hm0].
      * reflexivity.
      * replace (Z.of_nat m + 1 * Z.of_nat (n - m))%Z with (1 * Z.of_nat n)%Z
          by lia.
        apply Z.mod_mul. lia.
  - split.
    + intros Hmod. apply Z.mod_divide in Hmod; [|lia].
      destruct Hmod as [q Hq].
      assert (Hq0 : q = 0%Z) by nia. subst q. lia.
    + intros ->. replace (Z.of_nat m + -1 * Z.of_nat m)%Z with 0%Z by lia.
      reflexivity.
Qed.

(** A backward transform applied to a transform of sign [z] picks one
    entry: the inversion formula for [z = -1], the reflection for
    [z = 1]. *)
Lemma dual_sum (z : Z) (n m : nat) (x : nat -> C) :
  z = 1%Z \/ z = (-1)%Z -> (m < n)%nat ->
  Csum (fun k =>
          Cmul (Csum (fun j => Cmul (x j) (Np.twiddle (IZR z) n k j)) n)
               (Np.twiddle 1 n m k)) n
  = Cmul (RtoC (INR n)) (x (partner z n m)).
Proof.
  intros Hz Hm. assert (Hn : (0 < n)%nat) by lia.
  rewrite (Csum_ext _
    (fun k => Csum (fun j =>
       Cmul (x j)
            (cis (2 * PI * INR k * IZR (Z.of_nat m + z * Z.of_nat j)
                  / INR n))) n)).
  2:{ intros k _. rewrite <- Csum_mul_r. apply Csum_ext. intros j _.
      rewrite <- (twiddle_mul z n k j m Hn). ring. }
  rewrite Csum_swap.
  rewrite (Csum_ext _
    (fun j => Cmul (x j)
       (if (Z.eqb ((Z.of_nat m + z * Z.of_nat j) mod Z.of_nat n) 0)
        then RtoC (INR n) else C0))).
  2:{ intros j _. rewrite Csum_mul_l. f_equal. now apply cis_sum. }
  rewrite (Csum_single _ n (partner z n m)).
  - destruct (Z.eqb_spec
      ((Z.of_nat m + z * Z.of_nat (partner z n m)) mod Z.of_nat n) 0)
      as [_|Hne]; [ring|].
    exfalso. apply Hne. apply partner_spec; auto using partner_lt.
  - now apply partner_lt.
  - intros j Hj Hne.
    destruct (Z.eqb_spec
      ((Z.of_nat m + z * Z.of_nat j) mod Z.of_nat n) 0) as [He|_]; [|ring].
    exfalso. apply Hne. now apply partner_spec in He.
Qed.

Lemma backward_at_ext (h w : nat) (X Y : nat -> nat -> C) (m1 m2 : nat) :
  (forall k1 k2, (k1 < h)%nat -> (k2 < w)%nat -> X k1 k2 = Y k1 k2) ->
  backward_at h w X m1 m2 = backward_at h w Y m1 m2.
Proof.
  intros HXY. unfold backward_at. f_equal.
  apply Csum_ext. intros k1 Hk1. f_equal. f_equal.
  apply Csum_ext. intros k2 Hk2. now rewrite HXY.
Qed.

Lemma backward_at_linear (h w : nat) (c : C) (X Y : nat -> nat -> C)
      (m1 m2 : nat) :
  backward_at h w (fun k1 k2 => Cmul c (Cadd (X k1 k2) (Y k1 k2))) m1 m2
  = Cmul c (Cadd (backward_at h w X m1 m2) (backward_at h w Y m1 m2)).
Proof.
  unfold backward_at.
  rewrite (Csum_ext _ (fun k1 =>
    Cmul c (Cadd
      (Cmul (Cmul (RtoC (/ INR w))
                  (Csum (fun k2 => Cmul (X k1 k2) (Np.twiddle 1 w m2 k2)) w))
            (Np.twiddle 1 h m1 k1))
      (Cmul (Cmul (RtoC (/ INR w))
                  (Csum (fun k2 => Cmul (Y k1 k2) (Np.twiddle 1 w m2 k2)) w))
            (Np.twiddle 1 h m1 k1))))).
  - rewrite Csum_mul_l, Csum_add. ring.
  - intros k1 _.
    rewrite (Csum_ext _ (fun k2 =>
      Cmul c (Cadd (Cmul (X k1 k2) (Np.twiddle 1 w m2 k2))
                   (Cmul (Y k1 k2) (Np.twiddle 1 w m2 k2)))))
      by (intros; ring).
    rewrite Csum_mul_l, Csum_add. ring.
Qed.

Lemma RtoC_inv_mul (n : nat) (z : C) :
  (0 < n)%nat -> Cmul (RtoC (/ INR n)) (Cmul (RtoC (INR n)) z) = z.
Proof.
  intros Hn. assert (HnR : 0 < INR n) by (apply lt_0_INR; lia).
  destruct z as [x y]. apply Ceq; simpl; field; lra.
Qed.

(** Inverting a transform of sign [z]: the entry at the partner index. *)
Lemma backward_of_transform (z : Z) (a : ndarray C) (m1 m2 : nat) :
  z = 1%Z \/ z = (-1)%Z -> (m1 < nrows a)%nat -> (m2 < ncols a)%nat ->
  backward_at (nrows a) (ncols a) (at_ (transform2 z a)) m1 m2
  = at_ a (partner z (nrows a) m1) (partner z (ncols a) m2).
Proof.
  intros Hz Hm1 Hm2. unfold backward_at.
  set (h := nrows a). set (w := ncols a).
  set (jw := partner z w m2).
  rewrite (Csum_ext _ (fun k1 =>
    Cmul (Csum (fun n1 => Cmul (at_ a n1 jw) (Np.twiddle (IZR z) h k1 n1)) h)
         (Np.twiddle 1 h m1 k1))).
  - rewrite (dual_sum z h m1 (fun n1 => at_ a n1 jw) Hz Hm1).
    apply RtoC_inv_mul. unfold h in *. lia.
  - intros k1 _. f_equal.
    unfold transform2, Np.dft_axis0, Np.dft_axis1. cbn [at_ nrows ncols].
    fold h w.
    rewrite (Csum_ext _ (fun k2 =>
      Csum (fun n1 =>
        Cmul (Np.twiddle (IZR z) h k1 n1)
             (Cmul (Csum (fun n2 => Cmul (at_ a n1 n2)
                                         (Np.twiddle (IZR z) w k2 n2)) w)
                   (Np.twiddle 1 w m2 k2))) h)).
    2:{ intros k2 _. rewrite <- Csum_mul_r. apply Csum_ext. intros; ring. }
    rewrite Csum_swap.
    rewrite (Csum_ext _ (fun n1 =>
      Cmul (Np.twiddle (IZR z) h k1 n1)
           (Cmul (RtoC (INR w)) (at_ a n1 jw)))).
    2:{ intros n1 _. rewrite Csum_mul_l. f_equal.
        now apply (dual_sum z w m2 (fun n2 => at_ a n1 n2)). }
    rewrite (Csum_ext _ (fun n1 =>
      Cmul (RtoC (INR w))
           (Cmul (at_ a n1 jw) (Np.twiddle (IZR z) h k1 n1))))
      by (intros; ring).
    rewrite Csum_mul_l. apply RtoC_inv_mul. unfold w in *. lia.
Qed.

(** Conjugation. *)
Lemma Cconj_add (a b : C) : Cconj (Cadd a b) = Cadd (Cconj a) (Cconj b).
Proof. apply Ceq; simpl; ring. Qed.

Lemma Cconj_mul (a b : C) : Cconj (Cmul a b) = Cmul (Cconj a) (Cconj b).
Proof. apply Ceq; simpl; ring. Qed.

Lemma Cconj_RtoC (x : R) : Cconj (RtoC x) = RtoC x.
Proof. apply Ceq; simpl; ring. Qed.

Lemma Cconj_Csum (f : nat -> C) (n : nat) :
  Cconj (Csum f n) = Csum (fun k => Cconj (f k)) n.
Proof.
  induction n as [|n IH]; simpl.
  - apply Ceq; simpl; ring.
  - now rewrite <- IH, <- Cconj_add.
Qed.

Lemma Cconj_twiddle (n k j : nat) :
  Cconj (Np.twiddle (-1) n k j) = Np.twiddle 1 n k j.
Proof. unfold Np.twiddle. rewrite cis_conj. f_equal. ring. Qed.

Lemma re_half (z : C) :
  RtoC (re z) = Cmul (RtoC (/ 2)) (Cadd z (Cconj z)).
Proof. destruct z as [x y]. apply Ceq; simpl; field. Qed.

(** The conjugate of the forward transform of a real image is its
    backward transform. *)
Lemma conj_transform2 (a : ndarray R) (k1 k2 : nat) :
  Cconj (at_ (transform2 (-1) (Np.to_complex a)) k1 k2)
  = at_ (transform2 1 (Np.to_complex a)) k1 k2.
Proof.
  unfold transform2, Np.dft_axis0, Np.dft_axis1, Np.to_complex, Np.map.
  cbn [at_ nrows ncols].
  rewrite Cconj_Csum. apply Csum_ext. intros n1 _.
  rewrite Cconj_mul, Cconj_twiddle, Cconj_Csum. f_equal.
  apply Csum_ext. intros n2 _.
  now rewrite Cconj_mul, Cconj_twiddle, Cconj_RtoC.
Qed.

(** The inverse transform of the real part of the spectrum of a real image
    is the even part of the image. *)
Lemma backward_real_part (a : ndarray R) (m1 m2 : nat) :
  (m1 < nrows a)%nat -> (m2 < ncols a)%nat ->
  backward_at (nrows a) (ncols a)
    (fun k1 k2 => RtoC (re (at_ (transform2 (-1) (Np.to_complex a)) k1 k2)))
    m1 m2
  = RtoC (at_ (even_part a) m1 m2).
Proof.
  intros Hm1 Hm2.
  rewrite (backward_at_ext _ _ _ (fun k1 k2 =>
    Cmul (RtoC (/ 2))
         (Cadd (at_ (transform2 (-1) (Np.to_complex a)) k1 k2)
               (at_ (transform2 1 (Np.to_complex a)) k1 k2)))).
  2:{ intros k1 k2 _ _. now rewrite re_half, conj_transform2. }
  rewrite (backward_at_linear _ _ _
             (at_ (transform2 (-1) (Np.to_complex a)))
             (at_ (transform2 1 (Np.to_complex a)))).
  pose proof (backward_of_transform (-1) (Np.to_complex a) m1 m2
                (or_intror eq_refl) Hm1 Hm2) as Hfwd.
  pose proof (backward_of_transform 1 (Np.to_complex a) m1 m2
                (or_introl eq_refl) Hm1 Hm2) as Hbwd.
  change (nrows (Np.to_complex a)) with (nrows a) in Hfwd, Hbwd.
  change (ncols (Np.to_complex a)) with (ncols a) in Hfwd, Hbwd.
  rewrite Hfwd, Hbwd.
  unfold partner, even_part, reflected, Np.to_complex, Np.map.
  cbn [at_ nrows ncols Z.eqb Pos.eqb].
  apply Ceq; simpl; field.
Qed.

(** ** One active slot with the selection "FT Real" *)

Lemma for_each_skip_all {S : Type} (body : S -> nat -> result S)
      (idx : list nat) (s : S) :
  (forall j t, In j idx -> body t j = Ok t) ->
  Py.for_each body idx s = Ok s.
Proof.
  induction idx as [|i idx IH]; intros Hskip; simpl; [reflexivity|].
  rewrite Hskip by now left. cbn [Py.bind].
  apply IH. intros j t Hj. apply Hskip. now right.
Qed.

(** A loop in which every slot but [k] leaves the accumulator alone. *)
Lemma for_each_single {S : Type} (body : S -> nat -> result S)
      (idx : list nat) (k : nat) (s : S) :
  NoDup idx -> In k idx ->
  (forall j t, In j idx -> j <> k -> body t j = Ok t) ->
  Py.for_each body idx s = body s k.
Proof.
  induction idx as [|i idx IH]; intros Hnd Hk Hskip; [contradiction|].
  inversion Hnd as [|? ? Hni Hnd']; subst. simpl.
  destruct (Nat.eq_dec i k) as [->|Hik].
  - destruct (body s k) as [t|e]; cbn [Py.bind]; [|reflexivity].
    apply for_each_skip_all. intros j u Hj. apply Hskip; [now right|].
    intros ->. contradiction.
  - rewrite Hskip by (auto; now left). cbn [Py.bind].
    apply IH; [assumption | destruct Hk; [contradiction|assumption] |].
    intros j t Hj. apply Hskip. now right.
Qed.

Lemma shift_back (n k : nat) :
  (k < n)%nat -> (((k + n / 2) mod n + (n - n / 2)) mod n)%nat = k.
Proof.
  intros Hk. rewrite Nat.Div0.add_mod_idemp_l.
  assert (Hhalf : (n / 2 <= n)%nat) by (apply Nat.Div0.div_le_upper_bound; lia).
  replace (k + n / 2 + (n - n / 2))%nat with (k + 1 * n)%nat by lia.
  rewrite Nat.Div0.mod_add. now apply Nat.mod_small.
Qed.

Lemma Cabs_RtoC (x : R) : Cabs (RtoC x) = Rabs x.
Proof.
  unfold Cabs, RtoC; simpl. replace (x * x + 0 * 0) with (Rsqr x)
    by (unfold Rsqr; ring).
  apply sqrt_Rsqr_abs.
Qed.

(** The spectrum accumulated from the zero array by an active slot with
    weight 1, mode None and selection "FT Real". *)
Lemma real_slot_spectrum (l1 l2 : option Mixer.widget)
      (images : list (option (ndarray R))) (weights : list R)
      (component_selections : list string) (g : ndarray R)
      (k : nat) (image : ndarray R) :
  active images weights k image 1 ->
  nth_error component_selections k = Some "FT Real"%string ->
  (0 < nrows image)%nat -> (0 < ncols image)%nat ->
  exists combined : ndarray C,
    Mixer.mix_slot (Mixer.Build "None" l1 l2) images weights
                   component_selections g
                   (NDArray (nrows image) (ncols image) (fun _ _ => C0)) k
    = Ok combined /\
    Np.shape combined = Np.shape image /\
    forall k1 k2 : nat, (k1 < nrows image)%nat -> (k2 < ncols image)%nat ->
      at_ (Np.ifftshift combined) k1 k2
      = RtoC (re (at_ (transform2 (-1) (Np.to_complex image)) k1 k2)).
Proof.
  intros [Hi [Hw Hnz]] Hsel Hr Hc. unfold Mixer.mix_slot.
  rewrite (getitem_nth _ _ _ Hi), (getitem_nth _ _ _ Hw). cbn [Py.bind].
  destruct (Req_dec_T 1 0); [lra|].
  unfold Np.fft2. change (nrows (Np.to_complex image)) with (nrows image).
  change (ncols (Np.to_complex image)) with (ncols image).
  destruct (Nat.eqb_spec (nrows image) 0); [lia|].
  destruct (Nat.eqb_spec (ncols image) 0); [lia|]. cbn [orb Py.bind].
  unfold Mixer.__apply_region_mask. cbn [Mixer._region_mode].
  change ("None" =? "None")%string with true. cbv iota. cbn [Py.bind].
  rewrite (getitem_nth _ _ _ Hsel). cbn [Py.bind].
  unfold Mixer.weigh_component.
  change (Py.str_in "FT Real" ["FT Magnitude"; "FT Phase"]%string)
    with false.
  change (Py.str_in "FT Real" ["FT Real"; "FT Imaginary"]%string) with true.
  change ("FT Real" =? "FT Real")%string with true. cbv iota.
  unfold Np.iadd. cbn [nrows ncols Np.map Np.real Np.fftshift
                       Np.dft_axis0 Np.dft_axis1].
  rewrite !Nat.eqb_refl. cbn [orb andb].
  eexists. split; [reflexivity|]. split; [reflexivity|].
  intros k1 k2 Hk1 Hk2. unfold Np.ifftshift. cbn [at_ nrows ncols].
  change (nrows (Np.to_complex image)) with (nrows image).
  change (ncols (Np.to_complex image)) with (ncols image).
  rewrite !bidx_lt by (apply Nat.mod_upper_bound; lia).
  unfold Np.fftshift, Np.real, Np.map. cbn [at_ nrows ncols].
  rewrite !shift_back by assumption.
  apply Ceq; simpl; ring.
Qed.

Lemma range_4_NoDup : NoDup (Py.range 4).
Proof. apply seq_NoDup. Qed.

(** The magnitude image of such a call is the magnitude of the even part
    of the image. *)
Lemma real_selector_mixed (l1 l2 : option Mixer.widget)
      (images : list (option (ndarray R))) (weights : list R)
      (component_selections : list string) (selector_region : list R)
      (sigma : R) (H W : Z) (k : nat) (image : ndarray R) :
  (1 <= H)%Z -> (1 <= W)%Z ->
  Np.shape image = (Z.to_nat H, Z.to_nat W) ->
  nth_error selector_region 2 = Some sigma -> sigma * sigma <= Py.DBL_MAX ->
  (k < 4)%nat -> active images weights k image 1 ->
  nth_error component_selections k = Some "FT Real"%string ->
  (forall j, (j < 4)%nat -> j <> k -> skipped images weights j) ->
  exists (combined : ndarray C) (mixed : ndarray R),
    Mixer.mix_spectrum (Mixer.Build "None" l1 l2) images weights
                       component_selections selector_region H W
    = Ok combined /\
    Mixer.mixed_image combined = Ok mixed /\
    same_array mixed (Np.map Rabs (even_part image)).
Proof.
  intros HH HW Hshape Hsig Hrange Hk Hact Hsel Hskip.
  injection Hshape as Hr Hc.
  unfold Mixer.mix_spectrum. rewrite zeros_ok by lia. cbn [Py.bind].
  rewrite (getitem_nth _ _ _ Hsig). cbn [Py.bind].
  rewrite (create_gaussian_mask_ok _ _ _ Hrange). cbn [Py.bind].
  rewrite <- Hr, <- Hc.
  set (g := NDArray (nrows image) (ncols image) (fun i j => exp _)).
  rewrite (for_each_single _ (Py.range 4) k).
  2: exact range_4_NoDup.
  2: now apply in_range_4.
  2:{ intros j t Hj Hne. apply mix_slot_skipped. apply Hskip; [|exact Hne].
      now apply in_range_4. }
  destruct (real_slot_spectrum l1 l2 images weights component_selections g
              k image Hact Hsel) as [combined [Hcomb [Hsh Hspec]]];
    [lia | lia |].
  exists combined. injection Hsh as Hcr Hcc.
  destruct (mixed_image_ok combined) as [mixed [Hmixed Hms]]; [lia | lia |].
  exists mixed. split; [exact Hcomb|]. split; [exact Hmixed|].
  injection Hms as Hmr Hmc.
  split; [simpl; congruence|]. split; [simpl; congruence|].
  intros y x Hy Hx. rewrite Hmr, Hcr in Hy. rewrite Hmc, Hcc in Hx.
  revert Hmixed. unfold Mixer.mixed_image, Np.ifft2.
  change (nrows (Np.ifftshift combined)) with (nrows combined).
  change (ncols (Np.ifftshift combined)) with (ncols combined).
  destruct (Nat.eqb_spec (nrows combined) 0); [lia|].
  destruct (Nat.eqb_spec (ncols combined) 0); [lia|]. cbn [orb Py.bind].
  intros [= <-].
  change (at_ (Np.abs ?a) y x) with (Cabs (at_ a y x)).
  cbn [Np.map at_]. rewrite <- Cabs_RtoC. f_equal.
  rewrite <- (backward_real_part image y x Hy Hx).
  rewrite <- (backward_at_ext (nrows image) (ncols image)
                (at_ (Np.ifftshift combined)) _ y x Hspec).
  rewrite <- Hcr, <- Hcc. reflexivity.
Qed.

Lemma reduce_ext (op : R -> R -> R) (f g : nat -> R) (n : nat) (c d : R) :
  c = d -> (forall k, (k < n)%nat -> f k = g k) ->
  Np.reduce op f n c = Np.reduce op g n d.
Proof.
  intros <- Hfg. induction n as [|n IH]; simpl; [reflexivity|].
  rewrite IH by (intros; apply Hfg; lia). now rewrite Hfg by lia.
Qed.







(** The example images: one row, two pixels. *)
Lemma row2_cases (P : nat -> nat -> Prop) :
  P 0%nat 0%nat -> P 0%nat 1%nat ->
  forall y x, (y < 1)%nat -> (x < 2)%nat -> P y x.
Proof.
  intros H0 H1 y x Hy Hx.
  destruct y as [|y]; [|lia]. destruct x as [|[|x]]; [assumption..|lia].
Qed.




(** ** The examples of the normalised output *)

(** The magnitude image of the example calls: one slot with weight 1 and
    the selection "FT Real", an image of one row and two non-negative
    pixels, which is its own even part. *)
Lemma real_selector_row2 (a b : R) :
  0 <= a -> 0 <= b ->
  exists (combined : ndarray C) (mixed : ndarray R),
    Mixer.mix_spectrum (Mixer.Build "None" None None)
      [Some (Np.array 0 [[a; b]]); None; None; None] [1; 0; 0; 0]
      ["FT Real"; "FT Real"; "FT Real"; "FT Real"]%string
      [0; 0; 1; 0] 1 2 = Ok combined /\
    Mixer.mixed_image combined = Ok mixed /\
    same_array mixed (Np.array 0 [[a; b]]).
Proof.
  intros Ha Hb.
  destruct (real_selector_mixed None None
              [Some (Np.array 0 [[a; b]]); None; None; None] [1; 0; 0; 0]
              ["FT Real"; "FT Real"; "FT Real"; "FT Real"]%string
              [0; 0; 1; 0] 1 1 2 0 (Np.array 0 [[a; b]]))
    as [combined [mixed [Hcomb [Hmixed Hsame]]]].
  - lia.
  - lia.
  - reflexivity.
  - reflexivity.
  - exact sigma_one_in_range.
  - lia.
  - apply example_call_active.
  - reflexivity.
  - apply example_call_others_skipped.
  - exists combined, mixed. split; [exact Hcomb|]. split; [exact Hmixed|].
    destruct Hsame as (Hr & Hc & Hat). repeat split; try assumption.
    intros y x Hy Hx. rewrite (Hat y x Hy Hx).
    simpl in Hr, Hc. rewrite Hr in Hy. rewrite Hc in Hx.
    revert y x Hy Hx. apply row2_cases; simpl.
    + replace ((a + a) / 2) with a by field. now apply Rabs_pos_eq.
    + replace ((b + b) / 2) with b by field. now apply Rabs_pos_eq.
Qed.



(** Why the range must not be negligible against the maximum: for the
    magnitude image [[1, 1 + 2^-51]], whose range is twice [DBL_EPSILON],
    the products [v * scale] are of the size of [2^59], their rounding
    errors of the size of grey levels, and step 4 in double precision
    computes 256 for the maximum, of which the 8 bits keep 0. *)
Lemma normalize_uint8_cancellation :
  exists out : ndarray Z,
    Binary64.normalize_uint8 Binary64.one_and_next = Ok out /\
    Np.tolist out = [[0; 0]]%Z.
Proof.
  eexists. split; [reflexivity|]. vm_compute. reflexivity.
Qed.

(* ================================================================= *)
(** * Part III: further properties of the code *)
(* ================================================================= *)

(** ** The configuration of a [Mixer] *)

Lemma set_region_mode_known (self : Mixer.t) (mode : string) :
  known_mode (Mixer._region_mode (Mixer.set_region_mode self mode)).
Proof.
  unfold Mixer.set_region_mode, known_mode.
  destruct (Py.contains "Inner" mode); [simpl; tauto|].
  destruct (Py.contains "Outer" mode); simpl; tauto.
Qed.

Lemma reachable_known (self : Mixer.t) :
  reachable self -> known_mode (Mixer._region_mode self).
Proof.
  induction 1 as [|self mode _ _|self l1 l2 _ IH].
  - now left.
  - apply set_region_mode_known.
  - exact IH.
Qed.

Lemma apply_region_mask_known (self : Mixer.t) (ft : ndarray C)
      (g : ndarray R) :
  known_mode (Mixer._region_mode self) ->
  Mixer.__apply_region_mask self ft g <> Raise UnboundLocalError.
Proof.
  intros Hmode. unfold Mixer.__apply_region_mask.
  destruct Hmode as [-> | [-> | ->]]; simpl; try discriminate;
    unfold Np.ufunc2;
    repeat match goal with
           | |- context [match ?b with Some _ => _ | None => _ end] =>
               destruct b
           end; discriminate.
Qed.

(** X1. Whatever sequence of [set_region_mode] and [set_output_labels]
    calls follows [__init__], the stored region mode is one of "None",
    "Inner", "Outer"; hence [__apply_region_mask] always finds [mask]
    assigned and never raises [UnboundLocalError]. *)
Theorem reachable_region_mode_known (self : Mixer.t) :
  reachable self ->
  known_mode (Mixer.region_mode self) /\
  forall (ft : ndarray C) (g : ndarray R),
    Mixer.__apply_region_mask self ft g <> Raise UnboundLocalError.
Proof.
  intros Hr. pose proof (reachable_known self Hr) as Hk.
  split; [exact Hk|]. intros ft g. now apply apply_region_mask_known.
Qed.

Lemma reachable_region_mode_known_witness :
  known_mode
    (Mixer.region_mode
       (Mixer.set_output_labels
          (Mixer.set_region_mode Mixer.__init__ "Low (Inner) Region")
          (Some (Mixer.Widget 1)) None)).
Proof.
  apply (reachable_region_mode_known
           (Mixer.set_output_labels
              (Mixer.set_region_mode Mixer.__init__ "Low (Inner) Region")
              (Some (Mixer.Widget 1)) None)).
  apply reach_output_labels, reach_region_mode, reach_init.
Defined.

(** X2. The region mode is decided by the last [set_region_mode] call
    alone, and normalising is idempotent: feeding the stored mode back to
    the setter changes nothing. *)
Theorem set_region_mode_last_wins (self : Mixer.t) (mode1 mode2 : string) :
  Mixer.set_region_mode (Mixer.set_region_mode self mode1) mode2
  = Mixer.set_region_mode self mode2 /\
  Mixer.set_region_mode (Mixer.set_region_mode self mode1)
    (Mixer.region_mode (Mixer.set_region_mode self mode1))
  = Mixer.set_region_mode self mode1.
Proof.
  split.
  - unfold Mixer.set_region_mode.
    destruct (Py.contains "Inner" mode1), (Py.contains "Outer" mode1),
             (Py.contains "Inner" mode2), (Py.contains "Outer" mode2);
      reflexivity.
  - unfold Mixer.set_region_mode, Mixer.region_mode.
    destruct (Py.contains "Inner" mode1); [reflexivity|].
    destruct (Py.contains "Outer" mode1); reflexivity.
Qed.

Lemma mix_images_region_mode_only (self self' : Mixer.t)
      (images : list (option (ndarray R))) (weights : list R)
      (component_selections : list string) (selector_region : list R)
      (min_height min_width : option Z) :
  Mixer._region_mode self = Mixer._region_mode self' ->
  Mixer.mix_images self images weights component_selections selector_region
                   min_height min_width
  = Mixer.mix_images self' images weights component_selections
                     selector_region min_height min_width.
Proof.
  destruct self as [m l1 l2], self' as [m' l1' l2']. simpl.
  intros <-. reflexivity.
Qed.

(** X3. [set_output_labels] stores the two labels and leaves the region
    mode alone, the two setters commute, and [mix_images] never looks at
    the labels: its result is the same before and after
    [set_output_labels]. *)
Theorem output_labels_do_not_mix
        (self : Mixer.t) (label1 label2 : option Mixer.widget)
        (mode : string)
        (images : list (option (ndarray R))) (weights : list R)
        (component_selections : list string) (selector_region : list R)
        (min_height min_width : option Z) :
  Mixer.region_mode (Mixer.set_output_labels self label1 label2)
  = Mixer.region_mode self /\
  Mixer._output_label_1 (Mixer.set_output_labels self label1 label2) = label1 /\
  Mixer._output_label_2 (Mixer.set_output_labels self label1 label2) = label2 /\
  Mixer.set_output_labels (Mixer.set_region_mode self mode) label1 label2
  = Mixer.set_region_mode (Mixer.set_output_labels self label1 label2) mode /\
  Mixer.mix_images (Mixer.set_output_labels self label1 label2) images
                   weights component_selections selector_region
                   min_height min_width
  = Mixer.mix_images self images weights component_selections
                     selector_region min_height min_width.
Proof.
  split; [reflexivity|]. split; [reflexivity|]. split; [reflexivity|].
  split.
  - unfold Mixer.set_region_mode, Mixer.set_output_labels.
    destruct (Py.contains "Inner" mode); [reflexivity|].
    destruct (Py.contains "Outer" mode); reflexivity.
  - now apply mix_images_region_mode_only.
Qed.

(** ** The shape of the Gaussian mask *)



Lemma distance_sq_centre (H W : Z) (y x : nat) :
  (0 <= H)%Z -> (0 <= W)%Z ->
  distance_sq H W y x = 0%Z <->
  y = Z.to_nat (H / 2) /\ x = Z.to_nat (W / 2).
Proof.
  intros HH HW. unfold distance_sq.
  assert (0 <= H / 2)%Z by (apply Z.div_pos; lia).
  assert (0 <= W / 2)%Z by (apply Z.div_pos; lia).
  split.
  - intros Hd.
    assert (Z.of_nat x - W / 2 = 0)%Z by nia.
    assert (Z.of_nat y - H / 2 = 0)%Z by nia.
    split; lia.
  - intros [-> ->]. rewrite !Z2Nat.id by assumption. ring.
Qed.

(** The entry of the mask as a function of the squared distance. *)
Lemma create_gaussian_mask_entries (H W : Z) (sigma : R) :
  sigma * sigma <= Py.DBL_MAX ->
  exists mask : ndarray R,
    Mixer.__create_gaussian_mask H W sigma = Ok mask /\
    Np.shape mask = (Z.to_nat H, Z.to_nat W) /\
    forall y x : nat,
      at_ mask y x
      = exp (- IZR (distance_sq H W y x) / (2 * (sigma * sigma + 1e-6))).
Proof.
  intros Hs. eexists. split; [apply (create_gaussian_mask_ok _ _ _ Hs)|].
  split; [reflexivity|]. intros y x. cbn [at_].
  now rewrite opp_IZR.
Qed.




(** X5. The mask does not depend on the sign of sigma: [sigma] enters
    through its square only, the overflow test included. *)
Theorem gaussian_mask_even_in_sigma (H W : Z) (sigma : R) :
  Mixer.__create_gaussian_mask H W (- sigma)
  = Mixer.__create_gaussian_mask H W sigma.
Proof.
  unfold Mixer.__create_gaussian_mask, Py.float_pow.
  replace ((- sigma) ^ 2) with (sigma ^ 2) by (simpl; ring).
  reflexivity.
Qed.



(** ** The region mask: low and high frequencies *)

Lemma apply_region_mask_inner_outer
      (l1 l2 : option Mixer.widget) (ft : ndarray C) (g : ndarray R) :
  Np.shape ft = Np.shape g ->
  exists inner outer : ndarray C,
    Mixer.__apply_region_mask (Mixer.Build "Inner" l1 l2) ft g = Ok inner /\
    Mixer.__apply_region_mask (Mixer.Build "Outer" l1 l2) ft g = Ok outer /\
    Np.shape inner = Np.shape ft /\ Np.shape outer = Np.shape ft /\
    forall y x : nat, (y < nrows ft)%nat -> (x < ncols ft)%nat ->
      at_ inner y x = Cmul (at_ ft y x) (RtoC (at_ g y x)) /\
      at_ outer y x = Cmul (at_ ft y x) (RtoC (1 - at_ g y x)).
Proof.
  intros Hs. unfold Mixer.__apply_region_mask; simpl.
  destruct (ufunc2_same_shape (fun z m => Cmul z (RtoC m)) ft g Hs)
    as [inner [Hi [Hsi Hati]]].
  destruct (ufunc2_same_shape (fun z m => Cmul z (RtoC m)) ft
              (Np.map (fun m => 1 - m) g) Hs) as [outer [Ho [Hso Hato]]].
  exists inner, outer. repeat split; try assumption.
  - now apply Hati.
  - now apply Hato.
Qed.

(** X7. The Inner and the Outer masking of one spectrum split it in two:
    entry by entry, the low-pass part plus the high-pass part is the
    spectrum. *)
Theorem region_masks_split_spectrum
        (l1 l2 : option Mixer.widget) (ft : ndarray C) (g : ndarray R) :
  Np.shape ft = Np.shape g ->
  exists inner outer : ndarray C,
    Mixer.__apply_region_mask (Mixer.Build "Inner" l1 l2) ft g = Ok inner /\
    Mixer.__apply_region_mask (Mixer.Build "Outer" l1 l2) ft g = Ok outer /\
    forall y x : nat, (y < nrows ft)%nat -> (x < ncols ft)%nat ->
      Cadd (at_ inner y x) (at_ outer y x) = at_ ft y x.
Proof.
  intros Hs.
  destruct (apply_region_mask_inner_outer l1 l2 ft g Hs)
    as [inner [outer [Hi [Ho [_ [_ Hat]]]]]].
  exists inner, outer. split; [exact Hi|]. split; [exact Ho|].
  intros y x Hy Hx. destruct (Hat y x Hy Hx) as [-> ->].
  apply Ceq; simpl; ring.
Qed.

Lemma region_masks_split_spectrum_witness :
  exists inner outer : ndarray C,
    Mixer.__apply_region_mask (Mixer.Build "Inner" None None)
      (Np.array C0 [[(1, 2); (3, 4)]]) (Np.array 0 [[1; 0]]) = Ok inner /\
    Mixer.__apply_region_mask (Mixer.Build "Outer" None None)
      (Np.array C0 [[(1, 2); (3, 4)]]) (Np.array 0 [[1; 0]]) = Ok outer /\
    Cadd (at_ inner 0 1) (at_ outer 0 1) = (3, 4).
Proof.
  destruct (region_masks_split_spectrum None None
              (Np.array C0 [[(1, 2); (3, 4)]]) (Np.array 0 [[1; 0]]) eq_refl)
    as [inner [outer [Hi [Ho Hat]]]].
  exists inner, outer. split; [exact Hi|]. split; [exact Ho|].
  apply (Hat 0%nat 1%nat); simpl; lia.
Defined.

Lemma half_to_nat (n : Z) : (0 <= n)%Z -> Z.to_nat (n / 2) = (Z.to_nat n / 2)%nat.
Proof.
  intros Hn. apply Nat2Z.inj.
  rewrite Nat2Z.inj_div, !Z2Nat.id; try lia. apply Z.div_pos; lia.
Qed.

Lemma fftshift_centre {A : Type} (a : ndarray A) :
  (0 < nrows a)%nat -> (0 < ncols a)%nat ->
  at_ (Np.fftshift a) (nrows a / 2) (ncols a / 2) = at_ a 0 0.
Proof.
  intros Hr Hc. unfold Np.fftshift. cbn [at_].
  assert (Hh : (nrows a / 2 <= nrows a)%nat)
    by (apply Nat.Div0.div_le_upper_bound; lia).
  assert (Hw : (ncols a / 2 <= ncols a)%nat)
    by (apply Nat.Div0.div_le_upper_bound; lia).
  replace (nrows a / 2 + (nrows a - nrows a / 2))%nat with (nrows a) by lia.
  replace (ncols a / 2 + (ncols a - ncols a / 2))%nat with (ncols a) by lia.
  now rewrite !Nat.Div0.mod_same.
Qed.

(** X8. The centre of the mask sits on the zero-frequency term: the
    entry of the shifted spectrum at [(H // 2, W // 2)] is the term
    [F[0, 0]] of the transform, the Inner mode leaves it as it is and the
    Outer mode sets it to 0. *)
Theorem outer_mode_removes_zero_frequency
        (l1 l2 : option Mixer.widget) (H W : Z) (sigma : R)
        (ft : ndarray C) :
  (1 <= H)%Z -> (1 <= W)%Z -> sigma * sigma <= Py.DBL_MAX ->
  Np.shape ft = (Z.to_nat H, Z.to_nat W) ->
  exists (mask : ndarray R) (inner outer : ndarray C),
    Mixer.__create_gaussian_mask H W sigma = Ok mask /\
    Mixer.__apply_region_mask (Mixer.Build "Inner" l1 l2)
                              (Np.fftshift ft) mask = Ok inner /\
    Mixer.__apply_region_mask (Mixer.Build "Outer" l1 l2)
                              (Np.fftshift ft) mask = Ok outer /\
    at_ inner (Z.to_nat (H / 2)) (Z.to_nat (W / 2)) = at_ ft 0 0 /\
    at_ outer (Z.to_nat (H / 2)) (Z.to_nat (W / 2)) = C0.
Proof.
  intros HH HW Hs Hshape. injection Hshape as Hr Hc.
  destruct (create_gaussian_mask_entries H W sigma Hs)
    as [mask [Hm [Hsh Hat]]].
  destruct (apply_region_mask_inner_outer l1 l2 (Np.fftshift ft) mask)
    as [inner [outer [Hi [Ho [_ [_ Hval]]]]]].
  { rewrite Hsh. unfold Np.shape. simpl. now rewrite Hr, Hc. }
  exists mask, inner, outer. repeat (split; [assumption|]).
  assert (Hcy : (Z.to_nat (H / 2) < nrows (Np.fftshift ft))%nat).
  { simpl. rewrite Hr, half_to_nat by lia.
    apply Nat.Div0.div_lt_upper_bound. lia. }
  assert (Hcx : (Z.to_nat (W / 2) < ncols (Np.fftshift ft))%nat).
  { simpl. rewrite Hc, half_to_nat by lia.
    apply Nat.Div0.div_lt_upper_bound. lia. }
  destruct (Hval _ _ Hcy Hcx) as [-> ->].
  assert (Hone : at_ mask (Z.to_nat (H / 2)) (Z.to_nat (W / 2)) = 1).
  { rewrite Hat.
    replace (distance_sq H W (Z.to_nat (H / 2)) (Z.to_nat (W / 2))) with 0%Z
      by (symmetry; apply distance_sq_centre; [lia | lia | now split]).
    assert (0 <= sigma * sigma) by nra.
    replace (- 0 / (2 * (sigma * sigma + 1e-6))) with 0 by (field; lra).
    exact exp_0. }
  rewrite Hone.
  rewrite !half_to_nat by lia. rewrite <- Hr, <- Hc.
  rewrite fftshift_centre by lia.
  split; apply Ceq; simpl; ring.
Qed.

Lemma outer_mode_removes_zero_frequency_witness :
  exists (mask : ndarray R) (inner outer : ndarray C),
    Mixer.__create_gaussian_mask 1 2 1 = Ok mask /\
    Mixer.__apply_region_mask (Mixer.Build "Inner" None None)
      (Np.fftshift (Np.array C0 [[(1, 2); (3, 4)]])) mask = Ok inner /\
    Mixer.__apply_region_mask (Mixer.Build "Outer" None None)
      (Np.fftshift (Np.array C0 [[(1, 2); (3, 4)]])) mask = Ok outer /\
    at_ inner (Z.to_nat (1 / 2)) (Z.to_nat (2 / 2)) = (1, 2) /\
    at_ outer (Z.to_nat (1 / 2)) (Z.to_nat (2 / 2)) = C0.
Proof.
  apply (outer_mode_removes_zero_frequency None None 1 2 1
           (Np.array C0 [[(1, 2); (3, 4)]])).
  - lia.
  - lia.
  - exact sigma_one_in_range.
  - reflexivity.
Defined.

(** ** The four component selections *)

Lemma iadd_same_shape (a b : ndarray C) :
  Np.shape b = Np.shape a ->
  exists c : ndarray C,
    Np.iadd a b = Ok c /\ Np.shape c = Np.shape a /\
    forall y x : nat, (y < nrows a)%nat -> (x < ncols a)%nat ->
      at_ c y x = Cadd (at_ a y x) (at_ b y x).
Proof.
  intros Hs. injection Hs as Hr Hc. unfold Np.iadd.
  rewrite Hr, Hc, !Nat.eqb_refl. cbn [orb andb].
  eexists. split; [reflexivity|]. split; [reflexivity|].
  intros y x Hy Hx. cbn [at_]. now rewrite !bidx_lt.
Qed.

Lemma Cexp_i (p : R) : Cexp (Cmul Ci (RtoC p)) = cis p.
Proof.
  unfold Cexp, Cmul, Ci, RtoC, cis; simpl.
  replace (0 * p - 1 * 0) with 0 by ring.
  replace (0 * 0 + 1 * p) with p by ring.
  rewrite exp_0. apply Ceq; simpl; ring.
Qed.




(** X10. The "FT Real" and the "FT Imaginary" selection of one masked
    spectrum with one weight, applied one after the other, add up to the
    "FT Magnitude" selection: both leave the accumulator increased by
    [weight * ft_image_masked]. *)
Theorem real_and_imaginary_add_up
        (weight : R) (masked s : ndarray C) :
  Np.shape masked = Np.shape s ->
  exists s1 s2 s3 : ndarray C,
    Mixer.weigh_component "FT Real" weight masked s = Ok s1 /\
    Mixer.weigh_component "FT Imaginary" weight masked s1 = Ok s2 /\
    Mixer.weigh_component "FT Magnitude" weight masked s = Ok s3 /\
    same_array s2 s3 /\
    forall y x : nat, (y < nrows s)%nat -> (x < ncols s)%nat ->
      at_ s2 y x = Cadd (at_ s y x) (Cmul (RtoC weight) (at_ masked y x)).
Proof.
  intros Hs. unfold Mixer.weigh_component.
  change (Py.str_in "FT Real" ["FT Magnitude"; "FT Phase"]%string)
    with false.
  change (Py.str_in "FT Real" ["FT Real"; "FT Imaginary"]%string) with true.
  change (Py.str_in "FT Imaginary" ["FT Magnitude"; "FT Phase"]%string)
    with false.
  change (Py.str_in "FT Imaginary" ["FT Real"; "FT Imaginary"]%string)
    with true.
  change (Py.str_in "FT Magnitude" ["FT Magnitude"; "FT Phase"]%string)
    with true.
  change ("FT Real" =? "FT Real")%string with true.
  change ("FT Imaginary" =? "FT Real")%string with false.
  change ("FT Magnitude" =? "FT Magnitude")%string with true.
  cbv iota.
  destruct (iadd_same_shape s
     (Np.map (fun r => Cmul (RtoC weight) (Cadd (RtoC r) C0))
             (Np.real masked)) Hs) as [s1 [H1 [Hsh1 Hat1]]].
  destruct (iadd_same_shape s1
     (Np.map (fun m => Cmul (RtoC weight) (Cadd (RtoC 0) (Cmul Ci (RtoC m))))
             (Np.imag masked))) as [s2 [H2 [Hsh2 Hat2]]].
  { rewrite Hsh1. exact Hs. }
  destruct (weighted_magnitude_scaled weight masked) as [wm [Hwm Hsame]].
  destruct Hsame as (Hwr & Hwc & Hwat). simpl in Hwr, Hwc.
  destruct (iadd_same_shape s wm) as [s3 [H3 [Hsh3 Hat3]]].
  { unfold Np.shape. rewrite Hwr, Hwc. exact Hs. }
  exists s1, s2, s3. rewrite H1, H2, Hwm. cbn [Py.bind]. rewrite H3.
  repeat (split; [reflexivity|]).
  injection Hs as Hmr Hmc. injection Hsh1 as H1r H1c.
  injection Hsh2 as H2r H2c. injection Hsh3 as H3r H3c.
  assert (Hval : forall y x, (y < nrows s)%nat -> (x < ncols s)%nat ->
            at_ s2 y x
            = Cadd (at_ s y x) (Cmul (RtoC weight) (at_ masked y x))).
  { intros y x Hy Hx.
    rewrite Hat2 by lia. rewrite Hat1 by lia.
    cbn [at_ Np.map Np.real Np.imag].
    destruct (at_ masked y x) as [a b]. apply Ceq; simpl; ring. }
  split; [|exact Hval].
  repeat split; try congruence.
  intros y x Hy Hx. rewrite Hval by lia.
  rewrite Hat3 by lia. rewrite Hwat by lia. reflexivity.
Qed.

Lemma real_and_imaginary_add_up_witness :
  exists s1 s2 s3 : ndarray C,
    Mixer.weigh_component "FT Real" 2 (Np.array C0 [[(1, 2)]])
                          (Np.array C0 [[C0]]) = Ok s1 /\
    Mixer.weigh_component "FT Imaginary" 2 (Np.array C0 [[(1, 2)]]) s1
    = Ok s2 /\
    Mixer.weigh_component "FT Magnitude" 2 (Np.array C0 [[(1, 2)]])
                          (Np.array C0 [[C0]]) = Ok s3 /\
    same_array s2 s3.
Proof.
  destruct (real_and_imaginary_add_up 2 (Np.array C0 [[(1, 2)]])
              (Np.array C0 [[C0]]) eq_refl)
    as [s1 [s2 [s3 [H1 [H2 [H3 [Hsame _]]]]]]].
  exists s1, s2, s3. repeat split; try assumption; apply Hsame.
Defined.

Lemma str_in_false (x : string) (l : list string) :
  ~ In x l -> Py.str_in x l = false.
Proof.
  intros Hn. unfold Py.str_in.
  destruct (existsb (String.eqb x) l) eqn:He; [|reflexivity].
  apply existsb_exists in He. destruct He as [y [Hy Heq]].
  apply String.eqb_eq in Heq. subst y. contradiction.
Qed.

(** X11. A selection that is none of the four known names adds nothing:
    the accumulator comes back as it was, and in mode None the slot is
    passed over without an exception whatever the shape of its image,
    provided the image is not empty. *)
Theorem unknown_selection_adds_nothing
        (selected : string) (weight : R) (masked s : ndarray C)
        (l1 l2 : option Mixer.widget)
        (images : list (option (ndarray R))) (weights : list R)
        (component_selections : list string) (g : ndarray R)
        (i : nat) (image : ndarray R) :
  ~ In selected selectors ->
  Mixer.weigh_component selected weight masked s = Ok s /\
  (active images weights i image weight ->
   nth_error component_selections i = Some selected ->
   (0 < nrows image)%nat -> (0 < ncols image)%nat ->
   Mixer.mix_slot (Mixer.Build "None" l1 l2) images weights
                  component_selections g s i = Ok s).
Proof.
  intros Hn.
  assert (Hw : forall m, Mixer.weigh_component selected weight m s = Ok s).
  { intros m. unfold Mixer.weigh_component.
    rewrite !str_in_false; [reflexivity | |];
      intros Hin; apply Hn; unfold selectors; simpl in *; tauto. }
  split; [apply Hw|].
  intros [Hi [Hwt Hnz]] Hsel Hr Hc. unfold Mixer.mix_slot.
  rewrite (getitem_nth _ _ _ Hi), (getitem_nth _ _ _ Hwt). cbn [Py.bind].
  destruct (Req_dec_T weight 0); [contradiction|].
  destruct (fft2_ok (Np.to_complex image) Hr Hc) as [ft ->]. cbn [Py.bind].
  unfold Mixer.__apply_region_mask. cbn [Mixer._region_mode].
  change ("None" =? "None")%string with true. cbv iota. cbn [Py.bind].
  rewrite (getitem_nth _ _ _ Hsel). cbn [Py.bind]. apply Hw.
Qed.

Lemma unknown_selection_adds_nothing_witness :
  Mixer.weigh_component "FT Power" 1 (Np.array C0 [[(1, 2)]])
                        (Np.array C0 [[C0]])
  = Ok (Np.array C0 [[C0]]).
Proof.
  apply (unknown_selection_adds_nothing "FT Power" 1
           (Np.array C0 [[(1, 2)]]) (Np.array C0 [[C0]]) None None
           [] [] [] (Np.array 0 [[1]]) 0 (Np.array 0 [[1]])).
  unfold selectors. simpl.
  intros [H | [H | [H | [H | []]]]]; discriminate.
Defined.

(** ** One active slot, any selection *)

Lemma weigh_component_contribution (selected : string) (weight : R)
      (masked s : ndarray C) :
  In selected selectors -> Np.shape masked = Np.shape s ->
  exists s' : ndarray C,
    Mixer.weigh_component selected weight masked s = Ok s' /\
    Np.shape s' = Np.shape s /\
    forall y x : nat, (y < nrows s)%nat -> (x < ncols s)%nat ->
      at_ s' y x
      = Cadd (at_ s y x) (contribution selected weight (at_ masked y x)).
Proof.
  unfold selectors. intros Hsel Hs. simpl in Hsel.
  destruct Hsel as [<- | [<- | [<- | [<- | []]]]];
    unfold Mixer.weigh_component, contribution.
  - change (Py.str_in "FT Magnitude" ["FT Magnitude"; "FT Phase"]%string)
      with true.
    change ("FT Magnitude" =? "FT Magnitude")%string with true. cbv iota.
    destruct (weighted_magnitude_scaled weight masked)
      as [wm [-> (Hwr & Hwc & Hwat)]]. cbn [Py.bind].
    simpl in Hwr, Hwc.
    destruct (iadd_same_shape s wm) as [s' [-> [Hsh Hat]]].
    { unfold Np.shape. rewrite Hwr, Hwc. exact Hs. }
    exists s'. split; [reflexivity|]. split; [exact Hsh|].
    intros y x Hy Hx. rewrite (Hat y x Hy Hx). injection Hs as Hr Hc.
    rewrite Hwat by lia. reflexivity.
  - change (Py.str_in "FT Phase" ["FT Magnitude"; "FT Phase"]%string)
      with true.
    change ("FT Phase" =? "FT Magnitude")%string with false.
    change ("FT Phase" =? "FT Phase")%string with true.
    cbv iota. cbn [Py.bind].
    destruct (iadd_same_shape s
      (Np.map (fun e => Cmul (RtoC weight) e)
         (Np.exp (Np.map (fun p => Cmul Ci (RtoC p)) (Np.angle masked)))) Hs)
      as [s' [-> [Hsh Hat]]].
    exists s'. split; [reflexivity|]. split; [exact Hsh|].
    intros y x Hy Hx. rewrite (Hat y x Hy Hx).
    cbn [at_ Np.map Np.exp Np.angle]. now rewrite Cexp_i.
  - change (Py.str_in "FT Real" ["FT Magnitude"; "FT Phase"]%string)
      with false.
    change (Py.str_in "FT Real" ["FT Real"; "FT Imaginary"]%string)
      with true.
    change ("FT Real" =? "FT Real")%string with true.
    change ("FT Real" =? "FT Magnitude")%string with false.
    change ("FT Real" =? "FT Phase")%string with false.
    cbv iota.
    destruct (iadd_same_shape s
      (Np.map (fun r => Cmul (RtoC weight) (Cadd (RtoC r) C0))
              (Np.real masked)) Hs) as [s' [-> [Hsh Hat]]].
    exists s'. split; [reflexivity|]. split; [exact Hsh|].
    intros y x Hy Hx. rewrite (Hat y x Hy Hx).
    cbn [at_ Np.map Np.real]. apply Ceq; simpl; ring.
  - change (Py.str_in "FT Imaginary" ["FT Magnitude"; "FT Phase"]%string)
      with false.
    change (Py.str_in "FT Imaginary" ["FT Real"; "FT Imaginary"]%string)
      with true.
    change ("FT Imaginary" =? "FT Real")%string with false.
    change ("FT Imaginary" =? "FT Magnitude")%string with false.
    change ("FT Imaginary" =? "FT Phase")%string with false.
    change ("FT Imaginary" =? "FT Imaginary")%string with true.
    cbv iota.
    destruct (iadd_same_shape s
      (Np.map (fun m => Cmul (RtoC weight) (Cadd (RtoC 0) (Cmul Ci (RtoC m))))
              (Np.imag masked)) Hs) as [s' [-> [Hsh Hat]]].
    exists s'. split; [reflexivity|]. split; [exact Hsh|].
    intros y x Hy Hx. rewrite (Hat y x Hy Hx).
    cbn [at_ Np.map Np.imag]. apply Ceq; simpl; ring.
Qed.

(** The spectrum accumulated from the zero array by one active slot in
    mode None: entry by entry, the contribution of the transform of the
    image, the two shifts cancelling. *)
Lemma single_slot_spectrum (l1 l2 : option Mixer.widget)
      (images : list (option (ndarray R))) (weights : list R)
      (component_selections : list string) (g : ndarray R)
      (k : nat) (image : ndarray R) (weight : R) (selected : string) :
  active images weights k image weight ->
  nth_error component_selections k = Some selected ->
  In selected selectors ->
  (0 < nrows image)%nat -> (0 < ncols image)%nat ->
  exists combined : ndarray C,
    Mixer.mix_slot (Mixer.Build "None" l1 l2) images weights
                   component_selections g
                   (NDArray (nrows image) (ncols image) (fun _ _ => C0)) k
    = Ok combined /\
    Np.shape combined = Np.shape image /\
    forall k1 k2 : nat, (k1 < nrows image)%nat -> (k2 < ncols image)%nat ->
      at_ (Np.ifftshift combined) k1 k2
      = contribution selected weight
          (at_ (transform2 (-1) (Np.to_complex image)) k1 k2).
Proof.
  intros [Hi [Hw Hnz]] Hsel Hknown Hr Hc. unfold Mixer.mix_slot.
  rewrite (getitem_nth _ _ _ Hi), (getitem_nth _ _ _ Hw). cbn [Py.bind].
  destruct (Req_dec_T weight 0); [contradiction|].
  unfold Np.fft2. change (nrows (Np.to_complex image)) with (nrows image).
  change (ncols (Np.to_complex image)) with (ncols image).
  destruct (Nat.eqb_spec (nrows image) 0); [lia|].
  destruct (Nat.eqb_spec (ncols image) 0); [lia|]. cbn [orb Py.bind].
  unfold Mixer.__apply_region_mask. cbn [Mixer._region_mode].
  change ("None" =? "None")%string with true. cbv iota. cbn [Py.bind].
  rewrite (getitem_nth _ _ _ Hsel). cbn [Py.bind].
  fold (transform2 (-1) (Np.to_complex image)).
  destruct (weigh_component_contribution selected weight
              (Np.fftshift (transform2 (-1) (Np.to_complex image)))
              (NDArray (nrows image) (ncols image) (fun _ _ => C0))
              Hknown eq_refl) as [combined [Hcomb [Hsh Hat]]].
  exists combined. split; [exact Hcomb|]. split; [exact Hsh|].
  injection Hsh as Hcr Hcc. simpl in Hcr, Hcc, Hat.
  intros k1 k2 Hk1 Hk2. unfold Np.ifftshift. cbn [at_]. rewrite Hcr, Hcc.
  rewrite Hat by (apply Nat.mod_upper_bound; lia).
  unfold Np.fftshift. cbn [at_].
  change (nrows (transform2 (-1) (Np.to_complex image))) with (nrows image).
  change (ncols (transform2 (-1) (Np.to_complex image))) with (ncols image).
  rewrite !shift_back by assumption.
  apply Ceq; simpl; ring.
Qed.

(** The call with one active slot in mode None: its magnitude image and
    its output. *)
Lemma single_slot_output (l1 l2 : option Mixer.widget)
      (images : list (option (ndarray R))) (weights : list R)
      (component_selections : list string) (selector_region : list R)
      (sigma : R) (H W : Z) (k : nat) (image : ndarray R) (weight : R)
      (selected : string) :
  (1 <= H)%Z -> (1 <= W)%Z ->
  Np.shape image = (Z.to_nat H, Z.to_nat W) ->
  nth_error selector_region 2 = Some sigma -> sigma * sigma <= Py.DBL_MAX ->
  (k < 4)%nat -> active images weights k image weight ->
  nth_error component_selections k = Some selected ->
  In selected selectors ->
  (forall j, (j < 4)%nat -> j <> k -> skipped images weights j) ->
  exists (mixed : ndarray R) (out : ndarray Z),
    Np.shape mixed = Np.shape image /\
    (forall y x : nat, (y < nrows image)%nat -> (x < ncols image)%nat ->
       at_ mixed y x
       = Cabs (backward_at (nrows image) (ncols image)
                 (fun k1 k2 =>
                    contribution selected weight
                      (at_ (transform2 (-1) (Np.to_complex image)) k1 k2))
                 y x)) /\
    Mixer.normalize_uint8 mixed = Ok out /\
    Mixer.mix_images (Mixer.Build "None" l1 l2) images weights
                     component_selections selector_region (Some H) (Some W)
    = Ok out /\
    Np.shape out = Np.shape image.
Proof.
  intros HH HW Hshape Hsig Hrange Hk Hact Hsel Hknown Hskip.
  injection Hshape as Hr Hc.
  unfold Mixer.mix_images, Mixer.mix_spectrum.
  rewrite zeros_ok by lia. cbn [Py.bind].
  rewrite (getitem_nth _ _ _ Hsig). cbn [Py.bind].
  rewrite (create_gaussian_mask_ok _ _ _ Hrange). cbn [Py.bind].
  rewrite <- Hr, <- Hc.
  set (g := NDArray (nrows image) (ncols image) (fun i j => exp _)).
  rewrite (for_each_single _ (Py.range 4) k).
  2: exact range_4_NoDup.
  2: now apply in_range_4.
  2:{ intros j t Hj Hne. apply mix_slot_skipped. apply Hskip; [|exact Hne].
      now apply in_range_4. }
  destruct (single_slot_spectrum l1 l2 images weights component_selections g
              k image weight selected Hact Hsel Hknown)
    as [combined [Hcomb [Hsh Hspec]]]; [lia | lia |].
  rewrite Hcomb. cbn [Py.bind]. injection Hsh as Hcr Hcc.
  unfold Mixer.reconstruct.
  destruct (mixed_image_ok combined) as [mixed [Hmixed Hms]]; [lia | lia |].
  rewrite Hmixed. cbn [Py.bind]. injection Hms as Hmr Hmc.
  destruct (normalize_uint8_ok mixed) as [out [Hout Hso]]; [lia | lia |].
  exists mixed, out.
  split; [unfold Np.shape; congruence|]. split.
  - intros y x Hy Hx.
    revert Hmixed. unfold Mixer.mixed_image, Np.ifft2.
    change (nrows (Np.ifftshift combined)) with (nrows combined).
    change (ncols (Np.ifftshift combined)) with (ncols combined).
    destruct (Nat.eqb_spec (nrows combined) 0); [lia|].
    destruct (Nat.eqb_spec (ncols combined) 0); [lia|]. cbn [orb Py.bind].
    intros [= <-].
    change (at_ (Np.abs ?a) y x) with (Cabs (at_ a y x)).
    cbn [Np.map at_]. f_equal.
    rewrite <- (backward_at_ext (nrows image) (ncols image)
                  (at_ (Np.ifftshift combined)) _ y x Hspec).
    rewrite <- Hcr, <- Hcc. reflexivity.
  - split; [exact Hout|]. split; [exact Hout|].
    rewrite Hso. unfold Np.shape. congruence.
Qed.

(** ** Reconstruction of a single slot, selection by selection *)

Lemma backward_at_scale (h w : nat) (c : C) (X : nat -> nat -> C)
      (m1 m2 : nat) :
  backward_at h w (fun k1 k2 => Cmul c (X k1 k2)) m1 m2
  = Cmul c (backward_at h w X m1 m2).
Proof.
  unfold backward_at.
  rewrite (Csum_ext _ (fun k1 =>
    Cmul c (Cmul (Cmul (RtoC (/ INR w))
                       (Csum (fun k2 => Cmul (X k1 k2)
                                             (Np.twiddle 1 w m2 k2)) w))
                 (Np.twiddle 1 h m1 k1)))).
  - rewrite Csum_mul_l. ring.
  - intros k1 _.
    rewrite (Csum_ext _ (fun k2 =>
      Cmul c (Cmul (X k1 k2) (Np.twiddle 1 w m2 k2)))) by (intros; ring).
    rewrite Csum_mul_l. ring.
Qed.

Lemma RtoC_mul (a b : R) : Cmul (RtoC a) (RtoC b) = RtoC (a * b).
Proof. apply Ceq; simpl; ring. Qed.

(** The inverse transform of the transform of a real image. *)
Lemma backward_forward (a : ndarray R) (m1 m2 : nat) :
  (m1 < nrows a)%nat -> (m2 < ncols a)%nat ->
  backward_at (nrows a) (ncols a)
              (at_ (transform2 (-1) (Np.to_complex a))) m1 m2
  = RtoC (at_ a m1 m2).
Proof.
  intros Hm1 Hm2.
  pose proof (backward_of_transform (-1) (Np.to_complex a) m1 m2
                (or_intror eq_refl) Hm1 Hm2) as Hfwd.
  change (nrows (Np.to_complex a)) with (nrows a) in Hfwd.
  change (ncols (Np.to_complex a)) with (ncols a) in Hfwd.
  rewrite Hfwd. reflexivity.
Qed.

(** The inverse transform of the imaginary part of the spectrum of a real
    image is the odd part of the image. *)
Lemma backward_imag_part (a : ndarray R) (m1 m2 : nat) :
  (m1 < nrows a)%nat -> (m2 < ncols a)%nat ->
  backward_at (nrows a) (ncols a)
    (fun k1 k2 =>
       Cmul Ci (RtoC (im (at_ (transform2 (-1) (Np.to_complex a)) k1 k2))))
    m1 m2
  = RtoC (at_ (odd_part a) m1 m2).
Proof.
  intros Hm1 Hm2.
  rewrite (backward_at_ext _ _ _ (fun k1 k2 =>
    Cmul (RtoC (/ 2))
         (Cadd (at_ (transform2 (-1) (Np.to_complex a)) k1 k2)
               (Cmul (RtoC (-1))
                     (at_ (transform2 1 (Np.to_complex a)) k1 k2))))).
  2:{ intros k1 k2 _ _. rewrite <- conj_transform2.
      destruct (at_ (transform2 (-1) (Np.to_complex a)) k1 k2) as [u v].
      apply Ceq; simpl; field. }
  rewrite (backward_at_linear _ _ _
             (at_ (transform2 (-1) (Np.to_complex a)))
             (fun k1 k2 => Cmul (RtoC (-1))
                             (at_ (transform2 1 (Np.to_complex a)) k1 k2))).
  rewrite (backward_at_scale _ _ _ (at_ (transform2 1 (Np.to_complex a)))).
  rewrite backward_forward by assumption.
  pose proof (backward_of_transform 1 (Np.to_complex a) m1 m2
                (or_introl eq_refl) Hm1 Hm2) as Hbwd.
  change (nrows (Np.to_complex a)) with (nrows a) in Hbwd.
  change (ncols (Np.to_complex a)) with (ncols a) in Hbwd.
  rewrite Hbwd.
  unfold partner, odd_part, reflected, Np.to_complex, Np.map.
  cbn [at_ nrows ncols Z.eqb Pos.eqb].
  apply Ceq; simpl; field.
Qed.

(** The magnitude image of a single slot for the three selections that
    are linear in the spectrum. *)
Lemma single_slot_mixed_value (selected : string) (weight : R)
      (a : ndarray R) (m1 m2 : nat) :
  (m1 < nrows a)%nat -> (m2 < ncols a)%nat ->
  (selected = "FT Magnitude"%string ->
   Cabs (backward_at (nrows a) (ncols a)
           (fun k1 k2 => contribution selected weight
              (at_ (transform2 (-1) (Np.to_complex a)) k1 k2)) m1 m2)
   = Rabs (weight * at_ a m1 m2)) /\
  (selected = "FT Real"%string ->
   Cabs (backward_at (nrows a) (ncols a)
           (fun k1 k2 => contribution selected weight
              (at_ (transform2 (-1) (Np.to_complex a)) k1 k2)) m1 m2)
   = Rabs (weight * at_ (even_part a) m1 m2)) /\
  (selected = "FT Imaginary"%string ->
   Cabs (backward_at (nrows a) (ncols a)
           (fun k1 k2 => contribution selected weight
              (at_ (transform2 (-1) (Np.to_complex a)) k1 k2)) m1 m2)
   = Rabs (weight * at_ (odd_part a) m1 m2)).
Proof.
  intros Hm1 Hm2. repeat split; intros ->; unfold contribution;
    cbn [String.eqb Ascii.eqb Bool.eqb andb].
  - rewrite (backward_at_scale _ _ _
               (at_ (transform2 (-1) (Np.to_complex a)))).
    rewrite backward_forward by assumption.
    now rewrite RtoC_mul, Cabs_RtoC.
  - rewrite (backward_at_scale _ _ (RtoC weight)
      (fun k1 k2 => RtoC (re (at_ (transform2 (-1) (Np.to_complex a))
                                  k1 k2)))).
    rewrite backward_real_part by assumption.
    now rewrite RtoC_mul, Cabs_RtoC.
  - rewrite (backward_at_scale _ _ (RtoC weight)
      (fun k1 k2 => Cmul Ci (RtoC (im (at_ (transform2 (-1)
                                              (Np.to_complex a)) k1 k2))))).
    rewrite backward_imag_part by assumption.
    now rewrite RtoC_mul, Cabs_RtoC.
Qed.


(** X13. In mode None, with target dimensions of at least 1 x 1, a
    region parameter that carries a sigma whose square is within the
    double range, and one active slot of selection "FT Imaginary" carrying
    a real image of the target shape (the other slots skipped), the call
    returns an image of that shape, the result of step 4 on a magnitude
    image that is, in exact arithmetic, [|weight|] times the magnitude of
    the odd part of the image (half the difference of the image and its
    reflection through the index origin).  For an image equal to its
    reflection that magnitude image is 0 in exact arithmetic: what the
    code then normalises is rounding noise. *)
Theorem imaginary_selector_odd_part (l1 l2 : option Mixer.widget)
        (images : list (option (ndarray R))) (weights : list R)
        (component_selections : list string) (selector_region : list R)
        (sigma : R) (H W : Z) (k : nat) (image : ndarray R) (weight : R) :
  (1 <= H)%Z -> (1 <= W)%Z ->
  Np.shape image = (Z.to_nat H, Z.to_nat W) ->
  nth_error selector_region 2 = Some sigma -> sigma * sigma <= Py.DBL_MAX ->
  (k < 4)%nat -> active images weights k image weight ->
  nth_error component_selections k = Some "FT Imaginary"%string ->
  (forall j, (j < 4)%nat -> j <> k -> skipped images weights j) ->
  exists (mixed : ndarray R) (out : ndarray Z),
    Mixer.mix_images (Mixer.Build "None" l1 l2) images weights
                     component_selections selector_region (Some H) (Some W)
    = Ok out /\
    Np.shape out = Np.shape image /\
    same_array mixed (Np.map (fun v => Rabs (weight * v)) (odd_part image)) /\
    Mixer.normalize_uint8 mixed = Ok out /\
    ((forall y x, (y < nrows image)%nat -> (x < ncols image)%nat ->
        at_ (reflected image) y x = at_ image y x) ->
     forall y x : nat, (y < nrows image)%nat -> (x < ncols image)%nat ->
       at_ mixed y x = 0).
Proof.
  intros HH HW Hshape Hsig Hrange Hk Hact Hsel Hskip.
  destruct (single_slot_output l1 l2 images weights component_selections
              selector_region sigma H W k image weight "FT Imaginary"
              HH HW Hshape Hsig Hrange Hk Hact Hsel) as
      [mixed [out [Hms [Hval [Hnorm [Hout Hso]]]]]];
    [unfold selectors; simpl; tauto | exact Hskip |].
  injection Hms as Hmr Hmc.
  assert (Hat : forall y x, (y < nrows image)%nat -> (x < ncols image)%nat ->
            at_ mixed y x = Rabs (weight * at_ (odd_part image) y x)).
  { intros y x Hy Hx. rewrite (Hval y x Hy Hx).
    now apply (single_slot_mixed_value "FT Imaginary" weight image y x). }
  exists mixed, out. split; [exact Hout|]. split; [exact Hso|].
  split; [|split; [exact Hnorm|]].
  - repeat split; try assumption.
    intros y x Hy Hx. rewrite Hmr in Hy. rewrite Hmc in Hx.
    exact (Hat y x Hy Hx).
  - intros Hsym y x Hy Hx. rewrite (Hat y x Hy Hx). simpl.
    pose proof (Hsym y x Hy Hx) as Hs. simpl in Hs. rewrite Hs.
    replace (weight * ((at_ image y x - at_ image y x) / 2)) with 0 by field.
    apply Rabs_R0.
Qed.

Lemma imaginary_selector_odd_part_witness :
  exists (mixed : ndarray R) (out : ndarray Z),
    Mixer.mix_images (Mixer.Build "None" None None)
      [Some (Np.array 0 [[0; 255]]); None; None; None] [1; 0; 0; 0]
      ["FT Imaginary"; "FT Real"; "FT Real"; "FT Real"]%string
      [0; 0; 1; 0] (Some 1%Z) (Some 2%Z) = Ok out /\
    Mixer.normalize_uint8 mixed = Ok out /\
    at_ mixed 0 0 = 0 /\ at_ mixed 0 1 = 0.
Proof.
  destruct (imaginary_selector_odd_part None None
              [Some (Np.array 0 [[0; 255]]); None; None; None] [1; 0; 0; 0]
              ["FT Imaginary"; "FT Real"; "FT Real"; "FT Real"]%string
              [0; 0; 1; 0] 1 1 2 0 (Np.array 0 [[0; 255]]) 1)
    as [mixed [out [Ho [_ [_ [Hn Hzero]]]]]].
  - lia.
  - lia.
  - reflexivity.
  - reflexivity.
  - exact sigma_one_in_range.
  - lia.
  - apply example_call_active.
  - reflexivity.
  - apply example_call_others_skipped.
  - exists mixed, out. split; [exact Ho|]. split; [exact Hn|].
    assert (Hsym : forall y x, (y < 1)%nat -> (x < 2)%nat ->
              at_ (reflected (Np.array 0 [[0; 255]])) y x
              = at_ (Np.array 0 [[0; 255]]) y x)
      by (apply row2_cases; reflexivity).
    split; [exact (Hzero Hsym 0%nat 0%nat ltac:(simpl; lia) ltac:(simpl; lia))
           | exact (Hzero Hsym 0%nat 1%nat ltac:(simpl; lia)
                          ltac:(simpl; lia))].
Defined.

(** ** Calls that cannot fail *)

(** X16. A well-formed call in which every active image has the target
    shape raises nothing: it returns an 8-bit image of the target shape. *)
Theorem well_formed_call_returns
        (self : Mixer.t) (images : list (option (ndarray R)))
        (weights : list R) (component_selections : list string)
        (selector_region : list R) (sigma : R) (H W : Z) :
  well_formed_call self images weights component_selections
                   selector_region sigma ->
  (1 <= H)%Z -> (1 <= W)%Z ->
  (forall i image weight, (i < 4)%nat ->
     active images weights i image weight ->
     Np.shape image = (Z.to_nat H, Z.to_nat W)) ->
  exists out : ndarray Z,
    Mixer.mix_images self images weights component_selections
                     selector_region (Some H) (Some W) = Ok out /\
    Np.shape out = (Z.to_nat H, Z.to_nat W) /\
    forall y x : nat, (0 <= at_ out y x <= 255)%Z.
Proof.
  intros Hwf HH HW Hfit.
  pose proof Hwf as (Hmode & Hli & Hlw & _ & _ & Hsig & Hrange).
  unfold Mixer.mix_images, Mixer.mix_spectrum.
  rewrite zeros_ok by lia. cbn [Py.bind].
  rewrite (getitem_nth _ _ _ Hsig). cbn [Py.bind].
  rewrite (create_gaussian_mask_ok _ _ _ Hrange). cbn [Py.bind].
  set (g := NDArray (Z.to_nat H) (Z.to_nat W) (fun i j => exp _)).
  destruct (for_each_ok
              (Mixer.mix_slot self images weights component_selections g)
              (fun s => Np.shape s = (Z.to_nat H, Z.to_nat W))) with
      (idx := Py.range 4)
      (s := NDArray (Z.to_nat H) (Z.to_nat W) (fun _ _ => C0))
    as [combined [Hcomb Hshape]].
  - intros s s' i Hs' Hs. now rewrite (mix_slot_shape _ _ _ _ _ _ _ _ Hs').
  - intros s i Hi Hs. apply in_range_4 in Hi.
    destruct (slot_selection self images weights component_selections
                selector_region sigma Hwf i Hi) as [selected [Hsel Hknown]].
    injection Hs as Hr Hc.
    destruct (nth_error images i) as [[image|]|] eqn:Him.
    + destruct (nth_error weights i) as [weight|] eqn:Hwt.
      * destruct (Req_dec_T weight 0) as [->|Hnz].
        -- exists s. apply mix_slot_skipped. right. now exists image.
        -- assert (Hact : active images weights i image weight)
             by now repeat split.
           pose proof (Hfit i image weight Hi Hact) as Hsh.
           injection Hsh as Hir Hic.
           apply (mix_slot_fits self images weights component_selections
                    g s i image weight selected); try assumption.
           ++ unfold Np.shape. now rewrite Hr, Hc.
           ++ lia.
           ++ lia.
           ++ left. congruence.
           ++ left. congruence.
      * apply nth_error_None in Hwt. lia.
    + exists s. apply mix_slot_skipped. now left.
    + apply nth_error_None in Him. lia.
  - reflexivity.
  - rewrite Hcomb. cbn [Py.bind]. injection Hshape as Hr Hc.
    destruct (reconstruct_ok combined) as [out [Ho Hso]]; try lia.
    exists out. split; [exact Ho|]. split.
    + rewrite Hso. unfold Np.shape. now rewrite Hr, Hc.
    + unfold Mixer.reconstruct in Ho. apply bind_ok in Ho.
      destruct Ho as [mixed [_ Hn]]. exact (normalize_uint8_range _ _ Hn).
Qed.

Lemma well_formed_call_returns_witness :
  exists out : ndarray Z,
    Mixer.mix_images Mixer.__init__
      [Some (Np.array 0 [[1; 2]]); None; None; None] [1; 0; 0; 0]
      ["FT Real"; "FT Real"; "FT Real"; "FT Real"]%string
      [0; 0; 1; 0] (Some 1%Z) (Some 2%Z) = Ok out /\
    Np.shape out = (Z.to_nat 1, Z.to_nat 2) /\
    forall y x : nat, (0 <= at_ out y x <= 255)%Z.
Proof.
  apply (well_formed_call_returns Mixer.__init__
           [Some (Np.array 0 [[1; 2]]); None; None; None] [1; 0; 0; 0]
           ["FT Real"; "FT Real"; "FT Real"; "FT Real"]%string
           [0; 0; 1; 0] 1 1 2).
  - apply example_call_well_formed.
  - lia.
  - lia.
  - intros i image weight Hi [Him [Hwt Hnz]].
    destruct i as [|[|[|[|i]]]]; simpl in Him; try discriminate; [|lia].
    now injection Him as <-.
Defined.

Lemma for_each_ext {S : Type} (f g : S -> nat -> result S) (idx : list nat) :
  (forall s i, In i idx -> f s i = g s i) ->
  forall s, Py.for_each f idx s = Py.for_each g idx s.
Proof.
  induction idx as [|i idx IH]; intros Hfg s; simpl; [reflexivity|].
  rewrite Hfg by now left.
  destruct (g s i) as [t|e]; cbn [Py.bind]; [|reflexivity].
  apply IH. intros u j Hj. apply Hfg. now right.
Qed.

(** X17. A slot of weight 0 is never looked into: replacing its image by
    any other image, of whatever shape, or by no image, changes neither the
    result nor the exception of [mix_images]. *)
Theorem zero_weight_slot_is_not_read
        (self : Mixer.t) (images images' : list (option (ndarray R)))
        (weights : list R) (component_selections : list string)
        (selector_region : list R) (min_height min_width : option Z)
        (i : nat) (slot slot' : option (ndarray R)) :
  nth_error weights i = Some 0 ->
  nth_error images i = Some slot -> nth_error images' i = Some slot' ->
  (forall j, j <> i -> nth_error images' j = nth_error images j) ->
  Mixer.mix_images self images' weights component_selections
                   selector_region min_height min_width
  = Mixer.mix_images self images weights component_selections
                     selector_region min_height min_width.
Proof.
  intros Hw Hi Hi' Hrest. unfold Mixer.mix_images.
  destruct min_width as [W|]; [|reflexivity].
  destruct min_height as [H|]; [|reflexivity].
  f_equal. unfold Mixer.mix_spectrum.
  destruct (Np.zeros C0 H W) as [z|e]; cbn [Py.bind]; [|reflexivity].
  destruct (Py.getitem selector_region 2) as [sigma|e]; cbn [Py.bind];
    [|reflexivity].
  destruct (Mixer.__create_gaussian_mask H W sigma) as [g|e];
    cbn [Py.bind]; [|reflexivity].
  apply for_each_ext. intros s j _.
  destruct (Nat.eq_dec j i) as [->|Hne].
  - rewrite !mix_slot_skipped; [reflexivity | |].
    + destruct slot as [a|]; [right; now exists a | now left].
    + destruct slot' as [a|]; [right; now exists a | now left].
  - unfold Mixer.mix_slot, Py.getitem. now rewrite (Hrest j Hne).
Qed.

Lemma zero_weight_slot_is_not_read_witness :
  Mixer.mix_images Mixer.__init__
    [Some (Np.array 0 [[1; 2]]); Some (Np.array 0 []); None; None]
    [1; 0; 0; 0] ["FT Real"; "FT Real"; "FT Real"; "FT Real"]%string
    [0; 0; 1; 0] (Some 1%Z) (Some 2%Z)
  = Mixer.mix_images Mixer.__init__
      [Some (Np.array 0 [[1; 2]]); None; None; None]
      [1; 0; 0; 0] ["FT Real"; "FT Real"; "FT Real"; "FT Real"]%string
      [0; 0; 1; 0] (Some 1%Z) (Some 2%Z).
Proof.
  apply (zero_weight_slot_is_not_read Mixer.__init__
           [Some (Np.array 0 [[1; 2]]); None; None; None]
           [Some (Np.array 0 [[1; 2]]); Some (Np.array 0 []); None; None]
           [1; 0; 0; 0] ["FT Real"; "FT Real"; "FT Real"; "FT Real"]%string
           [0; 0; 1; 0] (Some 1%Z) (Some 2%Z) 1 None
           (Some (Np.array 0 []))).
  - reflexivity.
  - reflexivity.
  - reflexivity.
  - intros j Hj. destruct j as [|[|j]]; [reflexivity | contradiction |].
    reflexivity.
Defined.

(** ** All weights multiplied by one factor *)

Lemma iadd_scaled_by (c : R) (a a' b b' : ndarray C) :
  scaled_by c a a' -> scaled_by c b b' ->
  scaled_result c (Np.iadd a b) (Np.iadd a' b').
Proof.
  intros (Har & Hac & Ha) (Hbr & Hbc & Hb). unfold Np.iadd.
  rewrite Har, Hac, Hbr, Hbc.
  destruct (((nrows b =? nrows a) || (nrows b =? 1)) &&
            ((ncols b =? ncols a) || (ncols b =? 1)))%nat;
    simpl; [|reflexivity].
  repeat split; simpl; try reflexivity.
  intros y x. rewrite Ha, Hb. apply Ceq; simpl; ring.
Qed.

Lemma weigh_component_scaled_by (c : R) (selected : string) (weight : R)
      (masked s s' : ndarray C) :
  scaled_by c s s' ->
  scaled_result c (Mixer.weigh_component selected weight masked s)
                  (Mixer.weigh_component selected (c * weight) masked s').
Proof.
  intros Hs. unfold Mixer.weigh_component.
  destruct (Py.str_in selected ["FT Magnitude"; "FT Phase"]%string).
  - destruct (selected =? "FT Magnitude")%string.
    + unfold Np.ufunc2. cbn [nrows ncols Np.map Np.abs Np.exp Np.angle].
      rewrite !bdim_same. cbn [Py.bind].
      apply iadd_scaled_by; [exact Hs|].
      repeat split; simpl. intros y x. apply Ceq; simpl; ring.
    + cbn [Py.bind]. apply iadd_scaled_by; [exact Hs|].
      repeat split; simpl. intros y x. apply Ceq; simpl; ring.
  - destruct (Py.str_in selected ["FT Real"; "FT Imaginary"]%string);
      [|exact Hs].
    destruct (selected =? "FT Real")%string;
      (apply iadd_scaled_by; [exact Hs|]; repeat split; simpl;
       intros y x; apply Ceq; simpl; ring).
Qed.

Lemma getitem_map {A B : Type} (f : A -> B) (l : list A) (i : nat) :
  Py.getitem (List.map f l) i
  = match Py.getitem l i with Ok a => Ok (f a) | Raise e => Raise e end.
Proof.
  unfold Py.getitem. rewrite nth_error_map.
  now destruct (nth_error l i).
Qed.

Lemma mix_slot_scaled_by (c : R) (self : Mixer.t)
      (images : list (option (ndarray R))) (weights : list R)
      (component_selections : list string) (g : ndarray R)
      (s s' : ndarray C) (i : nat) :
  c <> 0 -> scaled_by c s s' ->
  scaled_result c
    (Mixer.mix_slot self images weights component_selections g s i)
    (Mixer.mix_slot self images (List.map (Rmult c) weights)
                    component_selections g s' i).
Proof.
  intros Hc Hs. unfold Mixer.mix_slot.
  destruct (Py.getitem images i) as [[image|]|e]; cbn [Py.bind];
    [| exact Hs | reflexivity].
  rewrite getitem_map.
  destruct (Py.getitem weights i) as [weight|e]; cbn [Py.bind];
    [|reflexivity].
  destruct (Req_dec_T weight 0) as [->|Hnz].
  - destruct (Req_dec_T (c * 0) 0) as [_|Hne]; [exact Hs|].
    exfalso. apply Hne. ring.
  - destruct (Req_dec_T (c * weight) 0) as [Hz|_].
    { apply Rmult_integral in Hz. tauto. }
    destruct (Np.fft2 (Np.to_complex image)) as [ft|e]; cbn [Py.bind];
      [|reflexivity].
    destruct (Mixer.__apply_region_mask self (Np.fftshift ft) g)
      as [masked|e]; cbn [Py.bind]; [|reflexivity].
    destruct (Py.getitem component_selections i) as [selected|e];
      cbn [Py.bind]; [|reflexivity].
    now apply weigh_component_scaled_by.
Qed.

Lemma for_each_scaled_by (c : R)
      (f f' : ndarray C -> nat -> result (ndarray C)) (idx : list nat) :
  (forall s s' i, scaled_by c s s' -> scaled_result c (f s i) (f' s' i)) ->
  forall s s', scaled_by c s s' ->
    scaled_result c (Py.for_each f idx s) (Py.for_each f' idx s').
Proof.
  intros Hff. induction idx as [|i idx IH]; intros s s' Hs; simpl.
  - exact Hs.
  - specialize (Hff s s' i Hs).
    destruct (f s i) as [t|e], (f' s' i) as [t'|e']; simpl in *;
      try contradiction; [now apply IH | assumption].
Qed.

Lemma mix_spectrum_scaled_by (c : R) (self : Mixer.t)
      (images : list (option (ndarray R))) (weights : list R)
      (component_selections : list string) (selector_region : list R)
      (H W : Z) :
  c <> 0 ->
  scaled_result c
    (Mixer.mix_spectrum self images weights component_selections
                        selector_region H W)
    (Mixer.mix_spectrum self images (List.map (Rmult c) weights)
                        component_selections selector_region H W).
Proof.
  intros Hc. unfold Mixer.mix_spectrum.
  destruct (Np.zeros C0 H W) as [z|e] eqn:Hz; cbn [Py.bind]; [|reflexivity].
  destruct (Py.getitem selector_region 2) as [sigma|e]; cbn [Py.bind];
    [|reflexivity].
  destruct (Mixer.__create_gaussian_mask H W sigma) as [g|e];
    cbn [Py.bind]; [|reflexivity].
  apply for_each_scaled_by.
  - intros s s' i Hs. now apply mix_slot_scaled_by.
  - unfold Np.zeros in Hz. destruct ((H <? 0) || (W <? 0))%Z;
      [discriminate|]. injection Hz as <-.
    repeat split. intros y x. simpl. apply Ceq; simpl; ring.
Qed.

Lemma Cabs_scale (c : R) (z : C) :
  Cabs (Cmul (RtoC c) z) = Rabs c * Cabs z.
Proof.
  destruct z as [u v]. unfold Cabs, Cmul, RtoC; simpl.
  replace ((c * u - 0 * v) * (c * u - 0 * v)
           + (c * v + 0 * u) * (c * v + 0 * u))
    with (Rsqr c * (u * u + v * v)) by (unfold Rsqr; ring).
  rewrite sqrt_mult_alt by apply Rle_0_sqr.
  now rewrite sqrt_Rsqr_abs.
Qed.

Lemma mixed_image_scaled_by (c : R) (s s' : ndarray C) (mixed : ndarray R) :
  scaled_by c s s' -> Mixer.mixed_image s = Ok mixed ->
  exists mixed' : ndarray R,
    Mixer.mixed_image s' = Ok mixed' /\
    nrows mixed' = nrows mixed /\ ncols mixed' = ncols mixed /\
    forall y x : nat, at_ mixed' y x = Rabs c * at_ mixed y x.
Proof.
  intros (Hr & Hc & Hat). destruct s' as [h' w' f'].
  cbn [nrows ncols at_] in Hr, Hc, Hat. subst h' w'.
  unfold Mixer.mixed_image, Np.ifft2.
  cbn [nrows ncols Np.ifftshift].
  destruct ((nrows s =? 0) || (ncols s =? 0))%nat; [discriminate|].
  cbn [Py.bind]. intros [= <-].
  eexists. split; [reflexivity|]. split; [reflexivity|].
  split; [reflexivity|]. intros y x.
  change (at_ (Np.abs ?a) y x) with (Cabs (at_ a y x)).
  rewrite <- Cabs_scale. f_equal.
  change (backward_at (nrows s) (ncols s)
            (at_ (Np.ifftshift (NDArray (nrows s) (ncols s) f'))) y x
          = Cmul (RtoC c)
                 (backward_at (nrows s) (ncols s) (at_ (Np.ifftshift s)) y x)).
  rewrite <- backward_at_scale. apply backward_at_ext.
  intros k1 k2 _ _. unfold Np.ifftshift. cbn [at_ nrows ncols].
  apply Hat.
Qed.

(** X18. The composite spectrum is linear in the weights: when a call
    builds its magnitude image, so does the call with every weight
    multiplied by one factor [c <> 0] (a negative one included); in exact
    arithmetic its composite spectrum is [c] times the first one and its
    magnitude image [|c|] times the first one, and both calls return
    images of the same shape.  Step 4 thus receives the same picture up to
    a positive factor. *)
Theorem weights_common_factor
        (self : Mixer.t) (images : list (option (ndarray R)))
        (weights : list R) (component_selections : list string)
        (selector_region : list R) (H W : Z) (c : R)
        (combined : ndarray C) (mixed : ndarray R) :
  c <> 0 ->
  Mixer.mix_spectrum self images weights component_selections
                     selector_region H W = Ok combined ->
  Mixer.mixed_image combined = Ok mixed ->
  exists (combined' : ndarray C) (mixed' : ndarray R) (out out' : ndarray Z),
    Mixer.mix_spectrum self images (List.map (Rmult c) weights)
                       component_selections selector_region H W
    = Ok combined' /\
    scaled_by c combined combined' /\
    Mixer.mixed_image combined' = Ok mixed' /\
    Np.shape mixed' = Np.shape mixed /\
    (forall y x : nat, at_ mixed' y x = Rabs c * at_ mixed y x) /\
    Mixer.mix_images self images weights component_selections
                     selector_region (Some H) (Some W) = Ok out /\
    Mixer.mix_images self images (List.map (Rmult c) weights)
                     component_selections selector_region
                     (Some H) (Some W) = Ok out' /\
    Np.shape out' = Np.shape out.
Proof.
  intros Hc Hcomb Hmixed.
  pose proof (mix_spectrum_scaled_by c self images weights
                component_selections selector_region H W Hc) as Hspec.
  rewrite Hcomb in Hspec.
  destruct (Mixer.mix_spectrum self images (List.map (Rmult c) weights)
              component_selections selector_region H W) as [s'|e0'] eqn:Hs';
    simpl in Hspec; [|contradiction].
  destruct (mixed_image_scaled_by c combined s' mixed Hspec Hmixed)
    as [mixed' [Hm' [Hmr [Hmc Hat]]]].
  destruct (mixed_image_shape _ _ Hmixed) as [Hsh [Hpr Hpc]].
  injection Hsh as Hr0 Hc0.
  destruct (normalize_uint8_ok mixed) as [out [Hout Hso]]; [lia | lia |].
  destruct (normalize_uint8_ok mixed') as [out' [Hout' Hso']];
    [lia | lia |].
  exists s', mixed', out, out'.
  split; [reflexivity|]. split; [exact Hspec|]. split; [exact Hm'|].
  split; [unfold Np.shape; now rewrite Hmr, Hmc|]. split; [exact Hat|].
  unfold Mixer.mix_images, Mixer.reconstruct.
  rewrite Hcomb, Hs'. cbn [Py.bind]. rewrite Hmixed, Hm'. cbn [Py.bind].
  split; [exact Hout|]. split; [exact Hout'|].
  rewrite Hso, Hso'. unfold Np.shape. now rewrite Hmr, Hmc.
Qed.



Lemma weights_common_factor_witness :
  exists (combined combined' : ndarray C) (mixed mixed' : ndarray R),
    Mixer.mix_spectrum (Mixer.Build "None" None None)
      [Some (Np.array 0 [[0; 10]]); None; None; None] [1; 0; 0; 0]
      ["FT Real"; "FT Real"; "FT Real"; "FT Real"]%string
      [0; 0; 1; 0] 1 2 = Ok combined /\
    Mixer.mix_spectrum (Mixer.Build "None" None None)
      [Some (Np.array 0 [[0; 10]]); None; None; None]
      (List.map (Rmult (-2)) [1; 0; 0; 0])
      ["FT Real"; "FT Real"; "FT Real"; "FT Real"]%string
      [0; 0; 1; 0] 1 2 = Ok combined' /\
    scaled_by (-2) combined combined' /\
    Mixer.mixed_image combined = Ok mixed /\
    Mixer.mixed_image combined' = Ok mixed' /\
    at_ mixed 0 1 = 10 /\ at_ mixed' 0 1 = 20.
Proof.
  destruct (real_selector_row2 0 10) as [combined [mixed [Hcomb [Hm Hsame]]]];
    [lra | lra |].
  assert (Hc2 : -2 <> 0) by lra.
  destruct (weights_common_factor (Mixer.Build "None" None None)
              [Some (Np.array 0 [[0; 10]]); None; None; None] [1; 0; 0; 0]
              ["FT Real"; "FT Real"; "FT Real"; "FT Real"]%string
              [0; 0; 1; 0] 1 2 (-2) combined mixed Hc2 Hcomb Hm)
    as [combined' [mixed' [_ [_ [Hcomb' [Hsc [Hm' [_ [Hat _]]]]]]]]].
  exists combined, combined', mixed, mixed'.
  split; [exact Hcomb|]. split; [exact Hcomb'|]. split; [exact Hsc|].
  split; [exact Hm|]. split; [exact Hm'|].
  destruct Hsame as (Hr & Hcl & Hval). simpl in Hr, Hcl.
  assert (H10 : at_ mixed 0 1 = 10) by (rewrite Hval by lia; reflexivity).
  split; [exact H10|]. rewrite Hat, H10, Rabs_left by lra. lra.
Defined.

(** ** The order of the slots *)

Lemma same_entries_refl {A : Type} (a : ndarray A) : same_entries a a.
Proof. now repeat split. Qed.

Lemma same_entries_trans {A : Type} (a b c : ndarray A) :
  same_entries a b -> same_entries b c -> same_entries a c.
Proof.
  intros (H1 & H2 & H3) (H4 & H5 & H6).
  split; [congruence|]. split; [congruence|].
  intros y x. now rewrite H3.
Qed.

Lemma agree_refl {A : Type} (r : result (ndarray A)) : agree r r.
Proof. destruct r; simpl; [apply same_entries_refl | exact I]. Qed.

Lemma agree_trans {A : Type} (r1 r2 r3 : result (ndarray A)) :
  agree r1 r2 -> agree r2 r3 -> agree r1 r3.
Proof.
  destruct r1, r2, r3; simpl; try tauto. apply same_entries_trans.
Qed.

(** What a slot does to the accumulator does not depend on the
    accumulator: it leaves it alone, or raises, or adds one array. *)
Lemma slot_action (self : Mixer.t) (images : list (option (ndarray R)))
      (weights : list R) (component_selections : list string)
      (g : ndarray R) (i : nat) :
  (forall s, Mixer.mix_slot self images weights component_selections g s i
             = Ok s) \/
  (exists e, forall s,
     Mixer.mix_slot self images weights component_selections g s i
     = Raise e) \/
  (exists b, forall s,
     Mixer.mix_slot self images weights component_selections g s i
     = Np.iadd s b).
Proof.
  unfold Mixer.mix_slot.
  destruct (Py.getitem images i) as [[image|]|e]; cbn [Py.bind];
    [| now left | right; left; now exists e].
  destruct (Py.getitem weights i) as [weight|e]; cbn [Py.bind];
    [| right; left; now exists e].
  destruct (Req_dec_T weight 0); [now left|].
  destruct (Np.fft2 (Np.to_complex image)) as [ft|e]; cbn [Py.bind];
    [| right; left; now exists e].
  destruct (Mixer.__apply_region_mask self (Np.fftshift ft) g)
    as [masked|e]; cbn [Py.bind]; [| right; left; now exists e].
  destruct (Py.getitem component_selections i) as [selected|e];
    cbn [Py.bind]; [| right; left; now exists e].
  unfold Mixer.weigh_component.
  destruct (Py.str_in selected ["FT Magnitude"; "FT Phase"]%string).
  - destruct (selected =? "FT Magnitude")%string.
    + unfold Np.ufunc2. cbn [nrows ncols Np.map Np.abs Np.exp Np.angle].
      rewrite !bdim_same. cbn [Py.bind]. right; right.
      eexists. intros s. reflexivity.
    + cbn [Py.bind]. right; right. eexists. intros s. reflexivity.
  - destruct (Py.str_in selected ["FT Real"; "FT Imaginary"]%string);
      [|now left].
    destruct (selected =? "FT Real")%string;
      right; right; eexists; intros s; reflexivity.
Qed.

Lemma iadd_agree (a a' b : ndarray C) :
  same_entries a a' -> agree (Np.iadd a b) (Np.iadd a' b).
Proof.
  intros (Hr & Hc & Ha). unfold Np.iadd. rewrite <- Hr, <- Hc.
  destruct (((nrows b =? nrows a) || (nrows b =? 1)) &&
            ((ncols b =? ncols a) || (ncols b =? 1)))%nat;
    simpl; [|exact I].
  repeat split; simpl; try assumption. intros y x. now rewrite Ha.
Qed.

Lemma iadd_iadd_agree (a a' b1 b2 : ndarray C) :
  same_entries a a' ->
  agree (Py.bind (Np.iadd a b1) (fun t => Np.iadd t b2))
        (Py.bind (Np.iadd a' b2) (fun t => Np.iadd t b1)).
Proof.
  intros (Hr & Hc & Ha). unfold Np.iadd. rewrite <- Hr, <- Hc.
  destruct (((nrows b1 =? nrows a) || (nrows b1 =? 1)) &&
            ((ncols b1 =? ncols a) || (ncols b1 =? 1)))%nat eqn:H1;
    destruct (((nrows b2 =? nrows a) || (nrows b2 =? 1)) &&
              ((ncols b2 =? ncols a) || (ncols b2 =? 1)))%nat eqn:H2;
    cbn [Py.bind nrows ncols]; rewrite ?H1, ?H2; simpl; try exact I.
  repeat split; simpl; try assumption.
  intros y x. rewrite Ha. apply Ceq; simpl; ring.
Qed.

Lemma bind_ext {A B : Type} (c : result A) (k k' : A -> result B) :
  (forall a, k a = k' a) -> Py.bind c k = Py.bind c k'.
Proof. intros Hk. destruct c; simpl; [apply Hk | reflexivity]. Qed.

Lemma bind_Ok_r {A : Type} (c : result A) : Py.bind c (fun a => Ok a) = c.
Proof. now destruct c. Qed.

Lemma effect_agree (f : ndarray C -> result (ndarray C)) (s s' : ndarray C) :
  slot_effect f -> same_entries s s' -> agree (f s) (f s').
Proof.
  intros [Hskip | [[e He] | [b Hb]]] Hs.
  - now rewrite !Hskip.
  - rewrite !He. exact I.
  - rewrite !Hb. now apply iadd_agree.
Qed.

Lemma effects_commute (f1 f2 : ndarray C -> result (ndarray C))
      (s s' : ndarray C) :
  slot_effect f1 -> slot_effect f2 -> same_entries s s' ->
  agree (Py.bind (f1 s) f2) (Py.bind (f2 s') f1).
Proof.
  intros [H1 | [[e1 H1] | [b1 H1]]] [H2 | [[e2 H2] | [b2 H2]]] Hs.
  - rewrite H1, H2. cbn [Py.bind]. now rewrite H1, H2.
  - rewrite H1, H2. cbn [Py.bind]. rewrite H2. exact I.
  - rewrite H1. cbn [Py.bind].
    rewrite (bind_ext _ f1 (fun a => Ok a) H1), bind_Ok_r.
    rewrite !H2. now apply iadd_agree.
  - rewrite H1, H2. cbn [Py.bind]. rewrite H1. exact I.
  - rewrite H1, H2. exact I.
  - rewrite H1. cbn [Py.bind]. rewrite H2.
    rewrite (bind_ext _ f1 (fun _ => Raise e1) H1).
    destruct (Np.iadd s' b2); exact I.
  - rewrite H2. cbn [Py.bind].
    rewrite (bind_ext _ f2 (fun a => Ok a) H2), bind_Ok_r.
    rewrite !H1. now apply iadd_agree.
  - rewrite H2. cbn [Py.bind]. rewrite H1.
    rewrite (bind_ext _ f2 (fun _ => Raise e2) H2).
    destruct (Np.iadd s b1); exact I.
  - rewrite H1, H2.
    rewrite (bind_ext _ f2 (fun t => Np.iadd t b2) H2).
    rewrite (bind_ext _ f1 (fun t => Np.iadd t b1) H1).
    now apply iadd_iadd_agree.
Qed.

Lemma for_each_agree (body : ndarray C -> nat -> result (ndarray C))
      (idx : list nat) :
  (forall i, slot_effect (fun t => body t i)) ->
  forall s s', same_entries s s' ->
    agree (Py.for_each body idx s) (Py.for_each body idx s').
Proof.
  intros Heff. induction idx as [|i idx IH]; intros s s' Hs; simpl.
  - exact Hs.
  - pose proof (effect_agree _ s s' (Heff i) Hs) as Hag. simpl in Hag.
    destruct (body s i), (body s' i); simpl in Hag; try contradiction;
      cbn [Py.bind]; [now apply IH | exact I].
Qed.

(** A loop whose passes are slot effects may visit the indices in any
    order. *)
Lemma for_each_permutation (body : ndarray C -> nat -> result (ndarray C))
      (idx idx' : list nat) :
  (forall i, slot_effect (fun t => body t i)) ->
  Permutation idx idx' ->
  forall s s', same_entries s s' ->
    agree (Py.for_each body idx s) (Py.for_each body idx' s').
Proof.
  intros Heff.
  induction 1 as [|i l l' _ IH|i j l|l l' l'' _ IH1 _ IH2]; intros s s' Hs.
  - exact Hs.
  - simpl. pose proof (effect_agree _ s s' (Heff i) Hs) as Hag.
    simpl in Hag.
    destruct (body s i), (body s' i); simpl in Hag; try contradiction;
      cbn [Py.bind]; [now apply IH | exact I].
  - simpl.
    pose proof (effects_commute _ _ s s' (Heff j) (Heff i) Hs) as Hag.
    simpl in Hag.
    destruct (body s j) as [t|e]; cbn [Py.bind] in *.
    + destruct (body s' i) as [t'|e']; cbn [Py.bind] in *.
      * destruct (body t i) as [u|e]; cbn [Py.bind] in *;
          destruct (body t' j) as [u'|e']; cbn [Py.bind] in *;
          try contradiction; [now apply for_each_agree | exact I].
      * destruct (body t i); cbn [Py.bind] in *;
          [contradiction | exact I].
    + destruct (body s' i) as [t'|e']; cbn [Py.bind] in *; [|exact I].
      destruct (body t' j); cbn [Py.bind] in *; [contradiction | exact I].
  - eapply agree_trans; [apply IH1, same_entries_refl | now apply IH2].
Qed.

(** Reading lists in the order of a permutation. *)
Lemma map_nth_seq {A : Type} (d : A) (l : list A) :
  List.map (fun i => nth i l d) (seq 0 (List.length l)) = l.
Proof.
  induction l as [|a l IH]; [reflexivity|].
  cbn [List.length seq List.map nth]. f_equal.
  rewrite <- seq_shift, map_map. exact IH.
Qed.

Lemma getitem_reorder {A : Type} (d : A) (p : list nat) (l : list A)
      (i : nat) :
  Permutation p (seq 0 (List.length l)) -> (i < List.length l)%nat ->
  Py.getitem (reorder d p l) i = Py.getitem l (nth i p 0%nat).
Proof.
  intros Hp Hi. unfold Py.getitem, reorder.
  assert (Hlen : List.length p = List.length l)
    by (rewrite (Permutation_length Hp); apply length_seq).
  assert (Hk : (nth i p 0 < List.length l)%nat).
  { assert (Hin : In (nth i p 0%nat) p) by (apply nth_In; lia).
    apply (Permutation_in _ Hp) in Hin. apply in_seq in Hin. lia. }
  rewrite nth_error_map, (nth_error_nth' p 0%nat) by lia. simpl.
  now rewrite (nth_error_nth' l d Hk).
Qed.

Lemma for_each_map {S : Type} (f g : S -> nat -> result S) (h : nat -> nat)
      (idx : list nat) :
  (forall s i, In i idx -> f s i = g s (h i)) ->
  forall s, Py.for_each f idx s = Py.for_each g (List.map h idx) s.
Proof.
  induction idx as [|i idx IH]; intros Hfg s; simpl; [reflexivity|].
  rewrite Hfg by now left.
  destruct (g s (h i)) as [t|e]; cbn [Py.bind]; [|reflexivity].
  apply IH. intros u j Hj. apply Hfg. now right.
Qed.

Lemma mix_slot_reorder (self : Mixer.t) (images : list (option (ndarray R)))
      (weights : list R) (component_selections : list string)
      (g : ndarray R) (p : list nat) (s : ndarray C) (i : nat) :
  List.length images = 4%nat -> List.length weights = 4%nat ->
  List.length component_selections = 4%nat ->
  Permutation p (Py.range 4) -> (i < 4)%nat ->
  Mixer.mix_slot self (reorder None p images) (reorder 0 p weights)
                 (reorder EmptyString p component_selections) g s i
  = Mixer.mix_slot self images weights component_selections g s
                   (nth i p 0%nat).
Proof.
  intros Hli Hlw Hls Hp Hi. unfold Mixer.mix_slot, Py.range in *.
  rewrite (getitem_reorder None p images i) by (rewrite Hli; assumption).
  destruct (Py.getitem images (nth i p 0%nat)) as [[image|]|e];
    cbn [Py.bind]; try reflexivity.
  rewrite (getitem_reorder 0 p weights i) by (rewrite Hlw; assumption).
  destruct (Py.getitem weights (nth i p 0%nat)) as [weight|e];
    cbn [Py.bind]; try reflexivity.
  destruct (Req_dec_T weight 0); [reflexivity|].
  destruct (Np.fft2 (Np.to_complex image)) as [ft|e]; cbn [Py.bind];
    [|reflexivity].
  destruct (Mixer.__apply_region_mask self (Np.fftshift ft) g)
    as [masked|e]; cbn [Py.bind]; [|reflexivity].
  now rewrite (getitem_reorder EmptyString p component_selections i)
    by (rewrite Hls; assumption).
Qed.

Lemma mixed_image_agree (c c' : ndarray C) :
  same_entries c c' -> agree (Mixer.mixed_image c) (Mixer.mixed_image c').
Proof.
  intros (Hr & Hc & Hat). destruct c' as [h' w' f'].
  cbn [nrows ncols at_] in Hr, Hc, Hat. subst h' w'.
  unfold Mixer.mixed_image, Np.ifft2. cbn [nrows ncols Np.ifftshift].
  destruct ((nrows c =? 0) || (ncols c =? 0))%nat; cbn [Py.bind]; [exact I|].
  repeat split. intros y x.
  change (at_ (Np.abs ?a) y x) with (Cabs (at_ a y x)). f_equal.
  change (backward_at (nrows c) (ncols c) (at_ (Np.ifftshift c)) y x
          = backward_at (nrows c) (ncols c)
              (at_ (Np.ifftshift (NDArray (nrows c) (ncols c) f'))) y x).
  apply backward_at_ext. intros k1 k2 _ _.
  unfold Np.ifftshift. cbn [at_ nrows ncols]. apply Hat.
Qed.

Lemma normalize_uint8_agree (m m' : ndarray R) :
  same_entries m m' ->
  agree (Mixer.normalize_uint8 m) (Mixer.normalize_uint8 m').
Proof.
  intros (Hr & Hc & Hat). unfold Mixer.normalize_uint8, Cv2.normalize.
  rewrite <- Hr, <- Hc.
  destruct ((nrows m =? 0) || (ncols m =? 0))%nat; cbn [Py.bind]; [exact I|].
  assert (Hlo : Np.amin m' = Np.amin m).
  { unfold Np.amin. rewrite <- Hr, <- Hc.
    apply reduce_ext; [now rewrite Hat|]. intros y _.
    apply reduce_ext; [now rewrite Hat|]. intros x _. now rewrite Hat. }
  assert (Hhi : Np.amax m' = Np.amax m).
  { unfold Np.amax. rewrite <- Hr, <- Hc.
    apply reduce_ext; [now rewrite Hat|]. intros y _.
    apply reduce_ext; [now rewrite Hat|]. intros x _. now rewrite Hat. }
  rewrite Hlo, Hhi. repeat split; simpl; try assumption.
  intros y x. now rewrite Hat.
Qed.

Lemma reconstruct_agree (c c' : ndarray C) :
  same_entries c c' -> agree (Mixer.reconstruct c) (Mixer.reconstruct c').
Proof.
  intros Hs. unfold Mixer.reconstruct.
  pose proof (mixed_image_agree c c' Hs) as Hm.
  destruct (Mixer.mixed_image c) as [m|e], (Mixer.mixed_image c') as [m'|e'];
    simpl in Hm; try contradiction; cbn [Py.bind]; [|exact I].
  now apply normalize_uint8_agree.
Qed.

Lemma agree_same_outcome {A : Type} (r r' : result (ndarray A)) :
  agree r r' -> same_outcome r r'.
Proof.
  destruct r as [a|e], r' as [b|e']; simpl; try tauto.
  intros (Hr & Hc & _). unfold Np.shape. now rewrite Hr, Hc.
Qed.

(** X19. The order of the slots does not matter for the composite
    spectrum: permuting the four slots (their images, weights and
    selections together) gives, in exact arithmetic, the same composite
    spectrum, the sum being commutative; the two calls end alike, both
    return images of one shape or both raise (possibly with the exception
    of another slot). *)
Theorem slot_order_does_not_matter
        (self : Mixer.t) (images : list (option (ndarray R)))
        (weights : list R) (component_selections : list string)
        (selector_region : list R) (min_height min_width : option Z)
        (p : list nat) :
  List.length images = 4%nat -> List.length weights = 4%nat ->
  List.length component_selections = 4%nat ->
  Permutation p (Py.range 4) ->
  (forall H W : Z,
     agree
       (Mixer.mix_spectrum self (reorder None p images) (reorder 0 p weights)
          (reorder EmptyString p component_selections) selector_region H W)
       (Mixer.mix_spectrum self images weights component_selections
          selector_region H W)) /\
  same_outcome
    (Mixer.mix_images self (reorder None p images) (reorder 0 p weights)
                      (reorder EmptyString p component_selections)
                      selector_region min_height min_width)
    (Mixer.mix_images self images weights component_selections
                      selector_region min_height min_width).
Proof.
  intros Hli Hlw Hls Hp.
  assert (Hspec : forall H W : Z, agree
    (Mixer.mix_spectrum self (reorder None p images) (reorder 0 p weights)
       (reorder EmptyString p component_selections) selector_region H W)
    (Mixer.mix_spectrum self images weights component_selections
       selector_region H W)).
  { intros H W. unfold Mixer.mix_spectrum.
    destruct (Np.zeros C0 H W) as [z|e]; cbn [Py.bind]; [|exact I].
    destruct (Py.getitem selector_region 2) as [sigma|e]; cbn [Py.bind];
      [|exact I].
    destruct (Mixer.__create_gaussian_mask H W sigma) as [g|e];
      cbn [Py.bind]; [|exact I].
    rewrite (for_each_map _
               (Mixer.mix_slot self images weights component_selections g)
               (fun i => nth i p 0%nat)).
    2:{ intros s i Hi. apply mix_slot_reorder; try assumption.
        now apply in_range_4. }
    assert (Hlen : List.length p = 4%nat)
      by (rewrite (Permutation_length Hp); apply length_seq).
    assert (Hmap : List.map (fun i => nth i p 0%nat) (Py.range 4) = p)
      by (unfold Py.range; rewrite <- Hlen; apply map_nth_seq).
    rewrite Hmap.
    apply for_each_permutation;
      [intros i; apply slot_action | exact Hp | apply same_entries_refl]. }
  split; [exact Hspec|].
  apply agree_same_outcome. unfold Mixer.mix_images.
  destruct min_width as [W|]; [|apply agree_refl].
  destruct min_height as [H|]; [|apply agree_refl].
  specialize (Hspec H W).
  destruct (Mixer.mix_spectrum self (reorder None p images)
              (reorder 0 p weights)
              (reorder EmptyString p component_selections)
              selector_region H W) as [c|e];
    destruct (Mixer.mix_spectrum self images weights component_selections
                selector_region H W) as [c'|e'];
    simpl in Hspec; try contradiction; cbn [Py.bind]; [|exact I].
  now apply reconstruct_agree.
Qed.

Lemma slot_order_does_not_matter_witness :
  same_outcome
    (Mixer.mix_images Mixer.__init__
       (reorder None [2; 0; 1; 3]%nat
                [Some (Np.array 0 [[0; 98]]); Some (Np.array 0 [[0; 202]]);
                 Some (Np.array 0 [[0; 54]]); None])
       (reorder 0 [2; 0; 1; 3]%nat [1; 2; 3; 0])
       (reorder EmptyString [2; 0; 1; 3]%nat
                ["FT Real"; "FT Phase"; "FT Magnitude"; "FT Real"]%string)
       [0; 0; 1; 0] (Some 1%Z) (Some 2%Z))
    (Mixer.mix_images Mixer.__init__
       [Some (Np.array 0 [[0; 98]]); Some (Np.array 0 [[0; 202]]);
        Some (Np.array 0 [[0; 54]]); None] [1; 2; 3; 0]
       ["FT Real"; "FT Phase"; "FT Magnitude"; "FT Real"]%string
       [0; 0; 1; 0] (Some 1%Z) (Some 2%Z)).
Proof.
  apply (slot_order_does_not_matter Mixer.__init__
           [Some (Np.array 0 [[0; 98]]); Some (Np.array 0 [[0; 202]]);
            Some (Np.array 0 [[0; 54]]); None] [1; 2; 3; 0]
           ["FT Real"; "FT Phase"; "FT Magnitude"; "FT Real"]%string
           [0; 0; 1; 0] (Some 1%Z) (Some 2%Z) [2; 0; 1; 3]%nat).
  - reflexivity.
  - reflexivity.
  - reflexivity.
  - apply perm_trans with [0; 2; 1; 3]%nat;
      [apply perm_swap | apply perm_skip, perm_swap].
Defined.

(** ** The contrast of the output *)








(** ** The exceptions of [mix_images] *)

Lemma getitem_raises {A : Type} (l : list A) (i : nat) (e : exn) :
  Py.getitem l i = Raise e -> e = IndexError.
Proof.
  unfold Py.getitem. destruct (nth_error l i); [discriminate|].
  now intros [= <-].
Qed.

Lemma iadd_raises (a b : ndarray C) (e : exn) :
  Np.iadd a b = Raise e -> e = ValueError.
Proof.
  unfold Np.iadd.
  destruct (((nrows b =? nrows a) || (nrows b =? 1)) &&
            ((ncols b =? ncols a) || (ncols b =? 1)))%nat;
    [discriminate | now intros [= <-]].
Qed.

Lemma slot_raises (self : Mixer.t) (images : list (option (ndarray R)))
      (weights : list R) (component_selections : list string)
      (g : ndarray R) (s : ndarray C) (i : nat) (e : exn) :
  known_mode (Mixer._region_mode self) ->
  Mixer.mix_slot self images weights component_selections g s i = Raise e ->
  e = IndexError \/ e = ValueError.
Proof.
  intros Hmode. unfold Mixer.mix_slot.
  destruct (Py.getitem images i) as [[image|]|e0] eqn:Hi; cbn [Py.bind];
    [| discriminate | intros [= <-]; left; exact (getitem_raises _ _ _ Hi)].
  destruct (Py.getitem weights i) as [weight|e0] eqn:Hw; cbn [Py.bind];
    [| intros [= <-]; left; exact (getitem_raises _ _ _ Hw)].
  destruct (Req_dec_T weight 0); [discriminate|].
  destruct (fft2_outcome (Np.to_complex image)) as [[ft ->] | ->];
    cbn [Py.bind]; [| intros [= <-]; now right].
  pose proof (apply_region_mask_fit self (Np.fftshift ft) g
                (nrows g) (ncols g) Hmode eq_refl) as Hfit.
  destruct (Mixer.__apply_region_mask self (Np.fftshift ft) g)
    as [masked|e0]; cbn [Py.bind];
    [| intros [= <-]; right; apply Hfit].
  destruct (Py.getitem component_selections i) as [selected|e0] eqn:Hs;
    cbn [Py.bind]; [| intros [= <-]; left; exact (getitem_raises _ _ _ Hs)].
  unfold Mixer.weigh_component.
  destruct (Py.str_in selected ["FT Magnitude"; "FT Phase"]%string).
  - destruct (selected =? "FT Magnitude")%string.
    + destruct (weighted_magnitude_scaled weight masked) as [wm [-> _]].
      cbn [Py.bind]. intros He. right. exact (iadd_raises _ _ _ He).
    + cbn [Py.bind]. intros He. right. exact (iadd_raises _ _ _ He).
  - destruct (Py.str_in selected ["FT Real"; "FT Imaginary"]%string);
      [|discriminate].
    destruct (selected =? "FT Real")%string;
      intros He; right; exact (iadd_raises _ _ _ He).
Qed.

Lemma for_each_raises {S : Type} (body : S -> nat -> result S)
      (P : exn -> Prop) (idx : list nat) :
  (forall s i e, body s i = Raise e -> P e) ->
  forall s e, Py.for_each body idx s = Raise e -> P e.
Proof.
  intros Hbody. induction idx as [|i idx IH]; intros s e; simpl;
    [discriminate|].
  destruct (body s i) as [t|e0] eqn:Hb; cbn [Py.bind].
  - apply IH.
  - intros [= <-]. exact (Hbody _ _ _ Hb).
Qed.

(** X21. The exceptions of a call: with the region mode set through
    [__init__] and the setters, whatever the arguments, [mix_images]
    raises nothing but [IndexError] (a list too short), [OverflowError]
    (the square of sigma) and [ValueError] (shapes or dimensions that do
    not fit); in particular the normalisation never fails. *)
Theorem mix_images_exceptions
        (self : Mixer.t) (images : list (option (ndarray R)))
        (weights : list R) (component_selections : list string)
        (selector_region : list R) (min_height min_width : option Z)
        (e : exn) :
  reachable self ->
  Mixer.mix_images self images weights component_selections
                   selector_region min_height min_width = Raise e ->
  e = IndexError \/ e = OverflowError \/ e = ValueError.
Proof.
  intros Hreach. pose proof (reachable_known self Hreach) as Hmode.
  unfold Mixer.mix_images.
  destruct min_width as [W|]; [|discriminate].
  destruct min_height as [H|]; [|discriminate].
  unfold Mixer.mix_spectrum.
  destruct (Np.zeros C0 H W) as [z|e0] eqn:Hz; cbn [Py.bind].
  2:{ unfold Np.zeros in Hz. destruct ((H <? 0) || (W <? 0))%Z;
        [|discriminate]. injection Hz as <-. intros [= <-]. tauto. }
  destruct (Py.getitem selector_region 2) as [sigma|e0] eqn:Hsig;
    cbn [Py.bind].
  2:{ intros [= <-]. left. exact (getitem_raises _ _ _ Hsig). }
  destruct (Mixer.__create_gaussian_mask H W sigma) as [g|e0] eqn:Hg;
    cbn [Py.bind].
  2:{ intros [= <-]. right; left.
      unfold Mixer.__create_gaussian_mask, Py.float_pow in Hg.
      destruct (Rle_dec (Rabs (sigma ^ 2)) Py.DBL_MAX);
        cbn [Py.bind] in Hg; [discriminate | now injection Hg as <-]. }
  destruct (Py.for_each _ (Py.range 4) z) as [combined|e0] eqn:Hloop;
    cbn [Py.bind].
  2:{ intros [= <-].
      destruct (for_each_raises _ (fun e => e = IndexError \/ e = ValueError)
                  _ (fun s i e => slot_raises self images weights
                       component_selections g s i e Hmode) _ _ Hloop);
        tauto. }
  unfold Mixer.reconstruct.
  destruct (Mixer.mixed_image combined) as [mixed|e0] eqn:Hm; cbn [Py.bind].
  - destruct (mixed_image_shape _ _ Hm) as [Hsh [Hr Hc]].
    injection Hsh as Hmr Hmc.
    destruct (normalize_uint8_ok mixed) as [o [-> _]]; [lia | lia |].
    discriminate.
  - intros [= <-]. right; right.
    unfold Mixer.mixed_image, Np.ifft2 in Hm.
    destruct ((nrows (Np.ifftshift combined) =? 0)
              || (ncols (Np.ifftshift combined) =? 0))%nat;
      cbn [Py.bind] in Hm; [now injection Hm as <- | discriminate].
Qed.

Lemma mix_images_exceptions_witness :
  Mixer.mix_images (Mixer.set_region_mode Mixer.__init__ "Outer")
                   [] [] [] [0; 0] (Some 2%Z) (Some 2%Z) = Raise IndexError /\
  (IndexError = IndexError \/ IndexError = OverflowError
   \/ IndexError = ValueError).
Proof.
  split; [reflexivity|].
  apply (mix_images_exceptions
           (Mixer.set_region_mode Mixer.__init__ "Outer")
           [] [] [] [0; 0] (Some 2%Z) (Some 2%Z) IndexError).
  - apply reach_region_mode, reach_init.
  - reflexivity.
Defined.
